(** * cRIOcpp: Modbus FIFO buffer, CRC, request ledger and generic ILC responses

    A shallow embedding of [ModbusBuffer] (include/cRIO/ModbusBuffer.h,
    src/LSST/cRIO/ModbusBuffer.cpp) and of the generic [ILC] class (ILC.cpp).

    Conventions
    - [uint8_t], [uint16_t], [uint32_t], [uint64_t] values are [Z]; every place
      where the C++ code narrows a value has the wrap-around written out
      ([u8], [u16], [u32], [u64]); signed values go through [s16], [s32].
    - The host is little-endian (x86-64 / ARM cRIO): a value stored in memory and
      viewed through [uint8_t*] is its little-endian byte list ([to_mem]), and
      [htons]/[htonl]/[htobe64] swap bytes ([bswap]).
    - A [float] is carried as its IEEE-754 bit pattern; the code only ever
      reinterprets the four bytes, it does no arithmetic on them.
    - C++ exceptions are the [Throw] outcome of a state-and-error monad which
      keeps the state reached when the exception left the method.
    - Virtual methods are the fields of the classes [ByteCodec] and
      [FrameHooks]; the base class and [ILC] give the instances. *)

From Stdlib Require Import ZArith List Lia Bool.
From stdpp Require Import base option list gmap.

Local Open Scope Z_scope.

(** ** Fixed width integers *)

Definition u8 (x : Z) : Z := x mod 256.
Definition u16 (x : Z) : Z := x mod 65536.
Definition u32 (x : Z) : Z := x mod 4294967296.
Definition u64 (x : Z) : Z := x mod 18446744073709551616.

(** Conversion of an unsigned [w]-bit pattern to the signed type of that width. *)
Definition to_signed (w : Z) (x : Z) : Z :=
  let m := x mod 2 ^ w in if m <? 2 ^ (w - 1) then m else m - 2 ^ w.
Definition s16 : Z -> Z := to_signed 16.
Definition s32 : Z -> Z := to_signed 32.

Definition is_u8 (x : Z) : Prop := 0 <= x < 256.
Definition is_u16 (x : Z) : Prop := 0 <= x < 65536.
Definition is_u32 (x : Z) : Prop := 0 <= x < 4294967296.
Definition is_u64 (x : Z) : Prop := 0 <= x < 18446744073709551616.

(** ** Host memory view and byte swapping *)

(** The [n] bytes of an object holding the unsigned value [v], in address order. *)
Fixpoint to_mem (n : nat) (v : Z) : list Z :=
  match n with
  | O => []
  | S k => v mod 256 :: to_mem k (v / 256)
  end.

(** The unsigned value of an object whose bytes, in address order, are [bs]. *)
Fixpoint of_mem (bs : list Z) : Z :=
  match bs with
  | [] => 0
  | b :: r => b + 256 * of_mem r
  end.

(** [htons], [htonl], [htobe64], [ntohs], [ntohl], [be64toh] on this host. *)
Definition bswap (n : nat) (v : Z) : Z := of_mem (rev (to_mem n v)).
Definition htons : Z -> Z := bswap 2.
Definition ntohs : Z -> Z := bswap 2.
Definition htonl : Z -> Z := bswap 4.
Definition ntohl : Z -> Z := bswap 4.
Definition htobe64 : Z -> Z := bswap 8.
Definition be64toh : Z -> Z := bswap 8.
(** [le32toh] is the identity on this host (the argument is promoted, not swapped). *)
Definition le32toh (v : Z) : Z := v.

(** ** FIFO command words *)

Module FIFO.
Definition WRITE : Z := 0x1000.
Definition TX_FRAMEEND : Z := 0x20DA.
Definition TX_TIMESTAMP : Z := 0x3000.
Definition DELAY : Z := 0x4000.
Definition LONG_DELAY : Z := 0x5000.
Definition TX_WAIT_RX : Z := 0x6000.
Definition TX_IRQTRIGGER : Z := 0x7000.
Definition TX_WAIT_TRIGGER : Z := 0x8000.
Definition TX_WAIT_LONG_RX : Z := 0x9000.
Definition RX_ENDFRAME : Z := 0xA000.
Definition RX_TIMESTAMP : Z := 0xB000.
Definition CMD_MASK : Z := 0xF000.
Definition TX_MASK : Z := 0x1200.
Definition RX_MASK : Z := 0x9200.
End FIFO.

(** ** ModbusBuffer::CRC *)

Module CRC.
(** [reset()]: [_crcCounter = 0xFFFF]. *)
Definition reset : Z := 0xFFFF.

(** One turn of the [for (int j = 0; j < 8; j++)] body of [add]. *)
Definition shift (crc : Z) : Z :=
  if negb (Z.land crc 0x0001 =? 0)
  then u16 (Z.lxor (u16 (Z.shiftr crc 1)) 0xA001)
  else u16 (Z.shiftr crc 1).

(** [add(uint8_t data)]. *)
Definition add (crc : Z) (data : Z) : Z :=
  Nat.iter 8 shift (u16 (Z.lxor crc (u16 data))).

(** [get()]. *)
Definition get (crc : Z) : Z := crc.

(** The register after a fresh [CRC] object was fed [data] in order. *)
Definition of_bytes (data : list Z) : Z := get (fold_left add data reset).
End CRC.

(** The reference Modbus CRC-16 as the specification words it: start at
    0xFFFF; per byte, xor it in, then eight times shift right by one and xor
    with 0xA001 when the bit shifted out was 1; no final xor. *)
Definition crc16_ref_bit (c : Z) : Z :=
  let out := Z.testbit c 0 in
  let c' := Z.shiftr c 1 in
  if out then Z.lxor c' 0xA001 else c'.

Definition crc16_ref_byte (c d : Z) : Z := Nat.iter 8 crc16_ref_bit (Z.lxor c d).

Definition crc16_modbus_ref (data : list Z) : Z := fold_left crc16_ref_byte data 0xFFFF.

(** ** Exceptions and the method monad *)

Inductive exn : Type :=
| EndOfBuffer
| CRCError (calculated received : Z)
| UnmatchedFunction (address func : Z) (expected : option (Z * Z))
| UnknownResponse (address func : Z)
| ModbusException (address func exception : Z)
| RuntimeError            (* a plain std::runtime_error (framing mismatch, bad length) *)
| OutOfRange              (* std::out_of_range *)
| VectorIndex.            (* _buffer[_index] with _index past the end *)

Inductive outcome (A : Type) : Type :=
| Ok (a : A)
| Throw (e : exn)
| OutOfFuel.
Arguments Ok {A} a.
Arguments Throw {A} e.
Arguments OutOfFuel {A}.

Definition M (St A : Type) : Type := St -> outcome A * St.

Definition ret {St A} (a : A) : M St A := fun s => (Ok a, s).
Definition bind {St A B} (m : M St A) (k : A -> M St B) : M St B :=
  fun s => match m s with
           | (Ok a, s') => k a s'
           | (Throw e, s') => (Throw e, s')
           | (OutOfFuel, s') => (OutOfFuel, s')
           end.
Definition throw {St A} (e : exn) : M St A := fun s => (Throw e, s).
Definition get_state {St} : M St St := fun s => (Ok s, s).
Definition modify {St} (f : St -> St) : M St unit := fun s => (Ok tt, f s).
Definition out_of_fuel {St A} : M St A := fun s => (OutOfFuel, s).

(** [try { m } catch (std::out_of_range&) { h }]. *)
Definition catch_out_of_range {St A} (m h : M St A) : M St A :=
  fun s => match m s with
           | (Throw OutOfRange, s') => h s'
           | r => r
           end.

Declare Scope method_scope.
Delimit Scope method_scope with method.
Notation "x <- m ;; k" := (bind m (fun x => k))
  (at level 100, m at next level, right associativity) : method_scope.
Notation "m ;;; k" := (bind m (fun _ => k))
  (at level 100, right associativity) : method_scope.
Local Open Scope method_scope.

(** ** ModbusBuffer *)

Record ModbusBuffer : Type := mkModbusBuffer {
  _buffer : list Z;                 (* std::vector<uint16_t> *)
  _index : nat;                     (* size_t *)
  _crc : Z;                         (* CRC::_crcCounter *)
  _commanded : list (Z * Z);        (* std::queue, front first *)
  _recordChanges : bool;
  _records : list Z                 (* std::vector<uint8_t> *)
}.

Definition set_buffer (v : list Z) (b : ModbusBuffer) :=
  mkModbusBuffer v (_index b) (_crc b) (_commanded b) (_recordChanges b) (_records b).
Definition set_index (v : nat) (b : ModbusBuffer) :=
  mkModbusBuffer (_buffer b) v (_crc b) (_commanded b) (_recordChanges b) (_records b).
Definition set_crc (v : Z) (b : ModbusBuffer) :=
  mkModbusBuffer (_buffer b) (_index b) v (_commanded b) (_recordChanges b) (_records b).
Definition set_commanded (v : list (Z * Z)) (b : ModbusBuffer) :=
  mkModbusBuffer (_buffer b) (_index b) (_crc b) v (_recordChanges b) (_records b).
Definition set_recordChanges (v : bool) (b : ModbusBuffer) :=
  mkModbusBuffer (_buffer b) (_index b) (_crc b) (_commanded b) v (_records b).
Definition set_records (v : list Z) (b : ModbusBuffer) :=
  mkModbusBuffer (_buffer b) (_index b) (_crc b) (_commanded b) (_recordChanges b) v.

Module MB.

Definition reset (b : ModbusBuffer) : ModbusBuffer :=
  set_records [] (set_recordChanges false (set_crc CRC.reset (set_index 0%nat b))).

Definition clear (onlyBuffers : bool) (b : ModbusBuffer) : ModbusBuffer :=
  let b := set_buffer [] b in
  let b := if onlyBuffers then b else set_commanded [] b in
  reset b.

Definition endOfBuffer (b : ModbusBuffer) : bool :=
  (length (_buffer b) <=? _index b)%nat.

(** [_buffer[_index]]. *)
Definition getCurrentBuffer : M ModbusBuffer Z :=
  fun b => match _buffer b !! _index b with
           | Some w => (Ok w, b)
           | None => (Throw VectorIndex, b)
           end.

Definition incIndex : M ModbusBuffer unit := modify (fun b => set_index (S (_index b)) b).

(** [_buffer[_index++]]. *)
Definition getCurrentBufferAndInc : M ModbusBuffer Z :=
  w <- getCurrentBuffer ;; incIndex ;;; ret w.

Definition peek : M ModbusBuffer Z := getCurrentBuffer.

Definition next : M ModbusBuffer unit :=
  fun b => if endOfBuffer b then (Throw EndOfBuffer, b) else incIndex b.

Definition endOfFrame : M ModbusBuffer bool :=
  w <- getCurrentBuffer ;; ret (w =? FIFO.RX_ENDFRAME).

(** [pushBuffer(uint16_t data)]. *)
Definition pushBuffer (data : Z) : M ModbusBuffer unit :=
  modify (fun b => set_buffer (_buffer b ++ [u16 data]) b).

Definition resetCRC : M ModbusBuffer unit := modify (set_crc CRC.reset).
Definition getCalcCrc : M ModbusBuffer Z := fun b => (Ok (CRC.get (_crc b)), b).

Definition processDataCRC (data : Z) : M ModbusBuffer unit :=
  modify (fun b =>
    let b := if _recordChanges b then set_records (_records b ++ [data]) b else b in
    set_crc (CRC.add (_crc b) data) b).

Definition recordChanges : M ModbusBuffer unit := modify (set_recordChanges true).
Definition pauseRecordChanges : M ModbusBuffer unit := modify (set_recordChanges false).

(** [setBuffer(buffer, length)], the words given as a list. *)
Definition setBuffer (words : list Z) : M ModbusBuffer unit :=
  modify (fun b => set_buffer words (set_crc CRC.reset (set_index 0%nat b))).

End MB.

(** ** Virtual methods *)

(** [getByteInstruction] and [readInstructionByte] are virtual: the word that
    carries a payload byte depends on the hardware behind the buffer. *)
Class ByteCodec : Type := {
  getByteInstruction : Z -> M ModbusBuffer Z;
  readInstructionByte : M ModbusBuffer Z
}.

(** The pure virtual framing methods of [ModbusBuffer]. *)
Class FrameHooks : Type := {
  writeEndOfFrame : M ModbusBuffer unit;
  writeWaitForRx : Z -> M ModbusBuffer unit;
  writeRxEndFrame : M ModbusBuffer unit;
  readEndOfFrame : M ModbusBuffer unit
}.

(** The scalar types [read<dt>] and [write<dt>] are instantiated at; [I24] stands
    for [writeI24]; [F32] values are bit patterns. *)
Inductive scalar : Type := I8 | U8 | I16 | U16 | I32 | U32 | U64 | F32 | I24.

Definition in_range (T : scalar) (v : Z) : Prop :=
  match T with
  | I8 => -128 <= v < 128
  | U8 => 0 <= v < 256
  | I16 => -32768 <= v < 32768
  | U16 => 0 <= v < 65536
  | I32 => -2147483648 <= v < 2147483648
  | U32 => 0 <= v < 4294967296
  | U64 => 0 <= v < 18446744073709551616
  | F32 => 0 <= v < 4294967296
  | I24 => -8388608 <= v < 8388608
  end.

Module MBase.
Import MB.

(** [ModbusBuffer::getByteInstruction]. *)
Definition getByteInstruction (data : Z) : M ModbusBuffer Z :=
  processDataCRC data ;;; ret (u16 data).

(** [ModbusBuffer::readInstructionByte]. *)
Definition readInstructionByte : M ModbusBuffer Z :=
  fun b => if endOfBuffer b then (Throw EndOfBuffer, b)
           else (w <- getCurrentBufferAndInc ;; ret (u8 w)) b.

(** [ModbusBuffer::writeWaitForRx] (pure virtual, but defined). *)
Definition writeWaitForRx (timeoutMicros : Z) : M ModbusBuffer unit :=
  pushBuffer (if timeoutMicros >? 0x0FFF
              then Z.lor (Z.land 0x0FFF (timeoutMicros / 1000 + 1)) FIFO.TX_WAIT_LONG_RX
              else Z.lor timeoutMicros FIFO.TX_WAIT_RX).
End MBase.

Definition BaseCodec : ByteCodec := {|
  getByteInstruction := MBase.getByteInstruction;
  readInstructionByte := MBase.readInstructionByte
|}.

Section Buffer.
Context {codec : ByteCodec}.
Import MB.

Fixpoint readBuffer (len : nat) : M ModbusBuffer (list Z) :=
  match len with
  | O => ret []
  | S n =>
      d <- readInstructionByte ;;
      processDataCRC d ;;;
      r <- readBuffer n ;;
      ret (d :: r)
  end.

(** The [for (size_t i = _index - length; i < _index; i++)] loop of
    [getReadData]; [fuel] bounds the number of turns. *)
Fixpoint getReadData_loop (fuel : nat) (i : Z) (data : list Z)
  : M ModbusBuffer (list Z) :=
  fun b =>
    if i <? Z.of_nat (_index b) then
      match fuel with
      | O => (OutOfFuel, b)
      | S f => (d <- readInstructionByte ;;
                getReadData_loop f (u64 (i + 1)) (data ++ [d])) b
      end
    else (Ok data, b).

Definition getReadData (fuel : nat) (length : Z) : M ModbusBuffer (list Z) :=
  fun b => getReadData_loop fuel (u64 (Z.of_nat (_index b) - length)) [] b.

(** *** [read<dt>] *)

Definition read_uint8 : M ModbusBuffer Z :=
  bs <- readBuffer 1 ;; ret (of_mem bs).
Definition read_uint16 : M ModbusBuffer Z :=
  bs <- readBuffer 2 ;; ret (ntohs (of_mem bs)).
Definition read_uint32 : M ModbusBuffer Z :=
  bs <- readBuffer 4 ;; ret (ntohl (of_mem bs)).
Definition read_int32 : M ModbusBuffer Z :=
  bs <- readBuffer 4 ;; ret (s32 (ntohl (u32 (s32 (of_mem bs))))).
Definition read_uint64 : M ModbusBuffer Z :=
  bs <- readBuffer 8 ;; ret (be64toh (of_mem bs)).
Definition read_float : M ModbusBuffer Z := read_uint32.

(** The specializations of [template <typename dt> dt read()] that exist. *)
Definition read (T : scalar) : option (M ModbusBuffer Z) :=
  match T with
  | U8 => Some read_uint8
  | U16 => Some read_uint16
  | I32 => Some read_int32
  | U32 => Some read_uint32
  | U64 => Some read_uint64
  | F32 => Some read_float
  | I8 | I16 | I24 => None
  end.

Definition readU48 : M ModbusBuffer Z :=
  bs <- readBuffer 6 ;; ret (be64toh (of_mem ([0; 0] ++ bs))).

Definition readString (length : nat) : M ModbusBuffer (list Z) := readBuffer length.

Definition checkCRC : M ModbusBuffer unit :=
  calCrc <- getCalcCrc ;;
  pauseRecordChanges ;;;
  bs <- readBuffer 2 ;;
  let crc := u16 (le32toh (of_mem bs)) in
  if negb (crc =? calCrc) then throw (CRCError calCrc crc) else resetCRC.

Definition readDelay : M ModbusBuffer Z :=
  w <- getCurrentBuffer ;;
  let c := Z.land w 0xF000 in
  r <- (if c =? FIFO.DELAY then ret (Z.land 0x0FFF w)
        else if c =? FIFO.LONG_DELAY then ret (u32 (Z.land 0x0FFF w * 1000))
        else throw RuntimeError) ;;
  incIndex ;;;
  ret r.

(** *** [write<dt>] *)

Fixpoint writeBuffer (data : list Z) : M ModbusBuffer unit :=
  match data with
  | [] => ret tt
  | d :: r => w <- getByteInstruction d ;; pushBuffer w ;;; writeBuffer r
  end.

Definition write_int8 (data : Z) : M ModbusBuffer unit := writeBuffer (to_mem 1 (u8 data)).
Definition write_int16 (data : Z) : M ModbusBuffer unit :=
  writeBuffer (to_mem 2 (u16 (s16 (htons (u16 data))))).
Definition write_int32 (data : Z) : M ModbusBuffer unit :=
  writeBuffer (to_mem 4 (u32 (s32 (htonl (u32 data))))).
Definition write_uint8 (data : Z) : M ModbusBuffer unit := writeBuffer (to_mem 1 data).
Definition write_uint16 (data : Z) : M ModbusBuffer unit := writeBuffer (to_mem 2 (htons data)).
Definition write_uint32 (data : Z) : M ModbusBuffer unit := writeBuffer (to_mem 4 (htonl data)).
Definition write_uint64 (data : Z) : M ModbusBuffer unit := writeBuffer (to_mem 8 (htobe64 data)).
Definition write_float (data : Z) : M ModbusBuffer unit := write_uint32 data.

Definition writeI24 (data : Z) : M ModbusBuffer unit :=
  w <- getByteInstruction (u8 (Z.shiftr data 16)) ;; pushBuffer w ;;;
  w <- getByteInstruction (u8 (Z.shiftr data 8)) ;; pushBuffer w ;;;
  w <- getByteInstruction (u8 data) ;; pushBuffer w.

Definition write (T : scalar) (data : Z) : M ModbusBuffer unit :=
  match T with
  | I8 => write_int8 data
  | U8 => write_uint8 data
  | I16 => write_int16 data
  | U16 => write_uint16 data
  | I32 => write_int32 data
  | U32 => write_uint32 data
  | U64 => write_uint64 data
  | F32 => write_float data
  | I24 => writeI24 data
  end.

Definition writeCRC : M ModbusBuffer unit :=
  crc <- getCalcCrc ;;
  w <- getByteInstruction (Z.land crc 0xFF) ;; pushBuffer w ;;;
  w <- getByteInstruction (Z.land (Z.shiftr crc 8) 0xFF) ;; pushBuffer w ;;;
  resetCRC.

Definition writeDelay (delayMicros : Z) : M ModbusBuffer unit :=
  pushBuffer (if delayMicros >? 0x0FFF
              then Z.lor (Z.land 0x0FFF (delayMicros / 1000 + 1)) FIFO.LONG_DELAY
              else Z.lor delayMicros FIFO.DELAY).

(** *** Request ledger and change recording *)

Definition pushCommanded (address function : Z) : M ModbusBuffer unit :=
  if (0 <? address) && (address <? 248) || (address =? 255)
  then modify (fun b => set_commanded (_commanded b ++ [(address, function)]) b)
  else ret tt.

Definition checkCommanded (address function : Z) : M ModbusBuffer unit :=
  fun b =>
    match _commanded b with
    | [] => (Throw (UnmatchedFunction address function None), b)
    | last :: rest =>
        let b := set_commanded rest b in
        if negb (fst last =? address) || negb (snd last =? function)
        then (Throw (UnmatchedFunction address function (Some last)), b)
        else (Ok tt, b)
    end.

Definition checkCommandedEmpty : M ModbusBuffer unit :=
  fun b =>
    match _commanded b with
    | [] => (Ok tt, b)
    | _ => (Throw RuntimeError, set_commanded [] b)
    end.

(** [checkRecording(std::vector<uint8_t>& cached)]: the referenced vector is
    passed in and its final content is returned next to the result. *)
Definition checkRecording (cached : list Z) : M ModbusBuffer (bool * list Z) :=
  fun b =>
    let b := set_recordChanges false b in
    if bool_decide (cached = _records b)
    then (Ok (true, cached), set_records [] b)
    else
      let swapped_cached := _records b in
      let b := set_records cached b in
      (Ok (false, swapped_cached), set_records [] b).

Context {hooks : FrameHooks}.

Fixpoint _functionArguments (params : list (scalar * Z)) : M ModbusBuffer unit :=
  match params with
  | [] => ret tt
  | (T, p1) :: args => write T p1 ;;; _functionArguments args
  end.

Definition callFunction (address function timeout : Z) (params : list (scalar * Z))
  : M ModbusBuffer unit :=
  write_uint8 address ;;;
  write_uint8 function ;;;
  _functionArguments params ;;;
  writeCRC ;;;
  writeEndOfFrame ;;;
  writeWaitForRx timeout ;;;
  pushCommanded address function.

Fixpoint write_each (data : list Z) : M ModbusBuffer unit :=
  match data with
  | [] => ret tt
  | d :: r => write_uint8 d ;;; write_each r
  end.

Definition broadcastFunction (address function counter delay : Z) (data : list Z)
  : M ModbusBuffer unit :=
  write_uint8 address ;;;
  write_uint8 function ;;;
  write_uint8 counter ;;;
  write_each data ;;;
  writeCRC ;;;
  writeEndOfFrame ;;;
  writeDelay delay.

End Buffer.

(** ** Response dispatch (ModbusBuffer::addResponse, ModbusBuffer::processResponse)

    The registered callbacks are closures over the derived object, so the
    dispatcher is stated over the derived state [D], which holds its
    [ModbusBuffer] part behind [base_of] / [with_base]. *)

Section Dispatch.
Context {codec : ByteCodec}.
Context {D : Type} (base_of : D -> ModbusBuffer) (with_base : ModbusBuffer -> D -> D).

(** A base class method run on the derived object. *)
Definition lift {A} (m : M ModbusBuffer A) : M D A :=
  fun d => let (o, b) := m (base_of d) in (o, with_base b d).

Record responses : Type := mkResponses {
  _actions : gmap Z (Z -> M D unit);
  _errorActions : gmap Z (Z * option (Z -> Z -> M D unit))
}.

Definition no_responses : responses := mkResponses ∅ ∅.

Definition addResponse (func : Z) (action : Z -> M D unit) (errorResponse : Z)
    (errorAction : option (Z -> Z -> M D unit)) (r : responses) : responses :=
  mkResponses (<[func := action]> (_actions r))
              (<[errorResponse := (func, errorAction)]> (_errorActions r)).

Variable r : responses.

(** [preProcess] and [postProcess] keep their empty default bodies. *)
Definition preProcess : M D unit := ret tt.
Definition postProcess : M D unit := ret tt.

(** One turn of the [while (endOfBuffer() == false)] loop. *)
Definition processResponse_body : M D unit :=
  address <- lift read_uint8 ;;
  func <- lift read_uint8 ;;
  match _errorActions r !! func with
  | None => lift (checkCommanded address func)
  | Some ea => lift (checkCommanded address (fst ea))
  end ;;;
  catch_out_of_range
    match _actions r !! func with
    | Some action => action address
    | None => throw OutOfRange
    end
    (catch_out_of_range
       match _errorActions r !! func with
       | None => throw OutOfRange
       | Some errorAction =>
           exception <- lift read_uint8 ;;
           lift checkCRC ;;;
           match snd errorAction with
           | Some act => act address exception
           | None => throw (ModbusException address func exception)
           end
       end
       (throw (UnknownResponse address func))).

Fixpoint processResponse_loop (fuel : nat) : M D unit :=
  fun d =>
    if MB.endOfBuffer (base_of d) then (Ok tt, d)
    else match fuel with
         | O => (OutOfFuel, d)
         | S f => (processResponse_body ;;; processResponse_loop f) d
         end.

Definition processResponse (fuel : nat) (response : list Z) : M D unit :=
  preProcess ;;;
  lift (MB.setBuffer response) ;;;
  processResponse_loop fuel ;;;
  postProcess.

End Dispatch.

(** ** ILC *)

(** Modelled from the spec: [ILCMode] is declared in cRIO/ILC.h, which is not
    among the sources; the specification gives the numbering 0=Standby,
    1=Disabled, 2=Enabled, 3=FirmwareUpdate, 4=Fault. *)
Module ILCMode.
Definition Standby : Z := 0.
Definition Disabled : Z := 1.
Definition Enabled : Z := 2.
Definition FirmwareUpdate : Z := 3.
Definition Fault : Z := 4.
End ILCMode.

(** Calls of the abstract [process*] methods, in the order they were made. *)
Inductive hook_call : Type :=
| ProcessServerID (address uniqueID ilcAppType networkNodeType ilcSelectedOptions
                   networkNodeOptions majorRev minorRev : Z) (firmwareName : list Z)
| ProcessServerStatus (address mode status faults : Z)
| ProcessChangeILCMode (address mode : Z)
| ProcessSetTempILCAddress (address newAddress : Z)
| ProcessResetServer (address : Z).

Record ILC : Type := mkILC {
  base : ModbusBuffer;
  _bus : Z;
  _broadcastCounter : Z;
  _alwaysTrigger : bool;
  _lastMode : gmap Z Z;
  _cachedResponse : gmap Z (gmap Z (list Z));
  calls : list hook_call
}.

Definition with_base (b : ModbusBuffer) (i : ILC) : ILC :=
  mkILC b (_bus i) (_broadcastCounter i) (_alwaysTrigger i) (_lastMode i)
        (_cachedResponse i) (calls i).
Definition set_broadcastCounter (v : Z) (i : ILC) : ILC :=
  mkILC (base i) (_bus i) v (_alwaysTrigger i) (_lastMode i) (_cachedResponse i) (calls i).
Definition set_lastMode (v : gmap Z Z) (i : ILC) : ILC :=
  mkILC (base i) (_bus i) (_broadcastCounter i) (_alwaysTrigger i) v
        (_cachedResponse i) (calls i).
Definition set_cachedResponse (v : gmap Z (gmap Z (list Z))) (i : ILC) : ILC :=
  mkILC (base i) (_bus i) (_broadcastCounter i) (_alwaysTrigger i) (_lastMode i) v (calls i).
Definition set_calls (v : list hook_call) (i : ILC) : ILC :=
  mkILC (base i) (_bus i) (_broadcastCounter i) (_alwaysTrigger i) (_lastMode i)
        (_cachedResponse i) v.

Module ILCImpl.
Import MB.

(** [ILC::getByteInstruction]. *)
Definition getByteInstruction (data : Z) : M ModbusBuffer Z :=
  processDataCRC data ;;;
  ret (u16 (Z.lor FIFO.TX_MASK (Z.shiftl (u16 data) 1))).

(** [ILC::readInstructionByte]. *)
Definition readInstructionByte : M ModbusBuffer Z :=
  fun b => if endOfBuffer b then (Throw EndOfBuffer, b)
           else (w <- getCurrentBufferAndInc ;;
                 ret (u8 (Z.land (Z.shiftr w 1) 0xFF))) b.

Definition writeEndOfFrame : M ModbusBuffer unit := pushBuffer FIFO.TX_FRAMEEND.

Definition writeWaitForRx (timeoutMicros : Z) : M ModbusBuffer unit :=
  pushBuffer (if timeoutMicros >? 0x0FFF
              then Z.lor (Z.land 0x0FFF (timeoutMicros / 1000 + 1)) FIFO.TX_WAIT_LONG_RX
              else Z.lor timeoutMicros FIFO.TX_WAIT_RX).

Definition writeRxEndFrame : M ModbusBuffer unit := pushBuffer FIFO.RX_ENDFRAME.

Definition readEndOfFrame : M ModbusBuffer unit :=
  w <- getCurrentBuffer ;;
  if negb (w =? FIFO.TX_FRAMEEND) then throw RuntimeError
  else incIndex ;;; resetCRC.

Definition readWaitForRx : M ModbusBuffer Z :=
  w <- getCurrentBuffer ;;
  let c := Z.land w 0xF000 in
  r <- (if c =? FIFO.TX_WAIT_RX then ret (Z.land 0x0FFF w)
        else if c =? FIFO.TX_WAIT_LONG_RX then ret (u32 (Z.land 0x0FFF w * 1000))
        else throw RuntimeError) ;;
  incIndex ;;;
  ret r.
End ILCImpl.

Definition ILCCodec : ByteCodec := {|
  getByteInstruction := ILCImpl.getByteInstruction;
  readInstructionByte := ILCImpl.readInstructionByte
|}.

Definition ILCHooks : FrameHooks := {|
  writeEndOfFrame := ILCImpl.writeEndOfFrame;
  writeWaitForRx := ILCImpl.writeWaitForRx;
  writeRxEndFrame := ILCImpl.writeRxEndFrame;
  readEndOfFrame := ILCImpl.readEndOfFrame
|}.

Section ILCMethods.
#[local] Existing Instance ILCCodec.
#[local] Existing Instance ILCHooks.

Definition liftI {A} (m : M ModbusBuffer A) : M ILC A := lift base with_base m.

Definition call (c : hook_call) : M ILC unit :=
  modify (fun i => set_calls (calls i ++ [c]) i).

(** [checkRecording(_cachedResponse[address][func])]: both [operator[]]
    create the entry when it is missing; the vector is updated in place. *)
Definition checkRecording_at (address func : Z) : M ILC bool :=
  fun i =>
    let fc := default ∅ (_cachedResponse i !! address) in
    let cached := default [] (fc !! func) in
    match checkRecording cached (base i) with
    | (Ok (res, cached'), b) =>
        (Ok res, set_cachedResponse
                   (<[address := <[func := cached']> fc]> (_cachedResponse i))
                   (with_base b i))
    | (Throw e, b) => (Throw e, with_base b i)
    | (OutOfFuel, b) => (OutOfFuel, with_base b i)
    end.

(** [_cachedResponse.at(address)]. *)
Definition cachedResponse_at (address : Z) : M ILC unit :=
  fun i => match _cachedResponse i !! address with
           | Some _ => (Ok tt, i)
           | None => (Throw OutOfRange, i)
           end.

(** [std::map::emplace] leaves an existing entry alone. *)
Definition emplace {V} (k : Z) (v : V) (m : gmap Z V) : gmap Z V :=
  match m !! k with Some _ => m | None => <[k := v]> m end.

Definition responseMatchCached (address func : Z) : M ILC bool :=
  returned <-
    catch_out_of_range
      (cachedResponse_at address ;;;
       catch_out_of_range
         (res <- checkRecording_at address func ;;
          i <- get_state ;;
          ret (Some (res && negb (_alwaysTrigger i))))
         (modify (fun i =>
            set_cachedResponse
              (<[address := emplace func [] (default ∅ (_cachedResponse i !! address))]>
                 (_cachedResponse i)) i) ;;;
          ret None))
      (modify (fun i =>
         set_cachedResponse (emplace address {[ func := [] ]} (_cachedResponse i)) i) ;;;
       ret None) ;;
  match returned with
  | Some v => ret v
  | None =>
      res <- checkRecording_at address func ;;
      i <- get_state ;;
      ret (res && negb (_alwaysTrigger i))
  end.

Definition set_lastMode_at (address mode : Z) : M ILC unit :=
  modify (fun i => set_lastMode (<[address := mode]> (_lastMode i)) i).

(** The five callbacks registered by the constructor. *)
Definition action17 (address : Z) : M ILC unit :=
  liftI MB.recordChanges ;;;
  fnLen <- liftI read_uint8 ;;
  if fnLen <? 12 then throw RuntimeError else
  let fnLen := u8 (fnLen - 12) in
  uniqueID <- liftI readU48 ;;
  ilcAppType <- liftI read_uint8 ;;
  networkNodeType <- liftI read_uint8 ;;
  ilcSelectedOptions <- liftI read_uint8 ;;
  networkNodeOptions <- liftI read_uint8 ;;
  majorRev <- liftI read_uint8 ;;
  minorRev <- liftI read_uint8 ;;
  fwName <- liftI (readString (Z.to_nat fnLen)) ;;
  liftI checkCRC ;;;
  m <- responseMatchCached address 17 ;;
  if negb m
  then call (ProcessServerID address uniqueID ilcAppType networkNodeType
               ilcSelectedOptions networkNodeOptions majorRev minorRev fwName)
  else ret tt.

Definition action18 (address : Z) : M ILC unit :=
  liftI MB.recordChanges ;;;
  mode <- liftI read_uint8 ;;
  status <- liftI read_uint16 ;;
  faults <- liftI read_uint16 ;;
  liftI checkCRC ;;;
  m <- responseMatchCached address 18 ;;
  if negb m
  then set_lastMode_at address mode ;;; call (ProcessServerStatus address mode status faults)
  else ret tt.

Definition action65 (address : Z) : M ILC unit :=
  liftI MB.recordChanges ;;;
  mode <- liftI read_uint16 ;;
  liftI checkCRC ;;;
  m <- responseMatchCached address 65 ;;
  if negb m
  then set_lastMode_at address (u8 mode) ;;; call (ProcessChangeILCMode address mode)
  else ret tt.

Definition action72 (address : Z) : M ILC unit :=
  newAddress <- liftI read_uint8 ;;
  liftI checkCRC ;;;
  call (ProcessSetTempILCAddress address newAddress).

Definition action107 (address : Z) : M ILC unit :=
  liftI checkCRC ;;;
  call (ProcessResetServer address).

(** The tables filled by [ILC::ILC]. *)
Definition ILC_responses : responses :=
  addResponse 107 action107 235 None
    (addResponse 72 action72 200 None
       (addResponse 65 action65 193 None
          (addResponse 18 action18 146 None
             (addResponse 17 action17 145 None no_responses)))).

(** [ILC::ILC(bus)], after [ModbusBuffer::ModbusBuffer()] ran [clear()]. *)
Definition ILC_new (bus : Z) : ILC :=
  mkILC (MB.clear false (mkModbusBuffer [] 0 0 [] false [])) (u8 bus) 0 false ∅ ∅ [].

Definition ILC_processResponse (fuel : nat) (response : list Z) : M ILC unit :=
  processResponse base with_base ILC_responses fuel response.

Definition nextBroadcastCounter : M ILC Z :=
  fun i =>
    let c := u8 (_broadcastCounter i + 1) in
    let c := if c >? 15 then 0 else c in
    (Ok c, set_broadcastCounter c i).

(** Modelled from the spec: [getLastMode] is defined in cRIO/ILC.h, which is
    not among the sources; [changeILCMode] catches [std::out_of_range] around
    it and the specification says "if no prior mode is recorded, use the
    default", so it is [_lastMode.at(address)]. *)
Definition getLastMode (address : Z) : M ILC Z :=
  fun i => match _lastMode i !! address with
           | Some m => (Ok m, i)
           | None => (Throw OutOfRange, i)
           end.

Definition changeILCMode (address mode : Z) : M ILC unit :=
  timeout <-
    catch_out_of_range
      (lm <- getLastMode address ;;
       if (lm =? ILCMode.Standby) && (mode =? ILCMode.FirmwareUpdate)
       then ret 100000
       else
         lm <- getLastMode address ;;
         if (lm =? ILCMode.FirmwareUpdate) && (mode =? ILCMode.Standby)
         then ret 100000
         else ret 335)
      (ret 335) ;;
  liftI (callFunction address 65 timeout [(U16, mode)]).

End ILCMethods.

(** ** ElectromechanicalPneumaticILC (cRIO/ElectromechanicalPneumaticILC.h)

    The request builders defined inline in the header; the response callbacks
    of this class are registered in a source file that is not at hand. *)

Section EMPILC.
#[local] Existing Instance ILCCodec.
#[local] Existing Instance ILCHooks.

Definition reportHardpointForceStatus (address : Z) : M ILC unit :=
  liftI (callFunction address 67 1800 []).

Definition setOffsetAndSensitivity (address channel offset sensitivity : Z) : M ILC unit :=
  liftI (callFunction address 81 36500 [(U8, channel); (F32, offset); (F32, sensitivity)]).

Definition reportCalibrationData (address : Z) : M ILC unit :=
  liftI (callFunction address 110 1800 []).

Definition reportMezzaninePressure (address : Z) : M ILC unit :=
  liftI (callFunction address 119 1800 []).

End EMPILC.

(** ** Vocabulary of the statements *)

(** What an implementation of the two virtual byte methods has to satisfy for
    the buffer to work: a payload byte goes out as the word [encode d] after it
    went through [processDataCRC], a word is read back as the byte [decode w]
    unless the cursor is at the end, and decoding undoes encoding. *)
Class CodecLaws (codec : ByteCodec) : Type := {
  encode : Z -> Z;
  decode : Z -> Z;
  getByteInstruction_spec :
    forall d b, getByteInstruction d b = (Ok (encode d), snd (MB.processDataCRC d b));
  readInstructionByte_spec :
    forall b, readInstructionByte b =
              match _buffer b !! _index b with
              | Some w => (Ok (decode w), set_index (S (_index b)) b)
              | None => (Throw EndOfBuffer, b)
              end;
  decode_encode : forall d, is_u8 d -> decode (u16 (encode d)) = d
}.

(** The buffer after the bytes [data] were written through [writeBuffer]. *)
Definition wrote `{CodecLaws} (data : list Z) (b : ModbusBuffer) : ModbusBuffer :=
  mkModbusBuffer (_buffer b ++ map (fun d => u16 (encode d)) data)
                 (_index b)
                 (fold_left CRC.add data (_crc b))
                 (_commanded b)
                 (_recordChanges b)
                 (if _recordChanges b then _records b ++ data else _records b).

(** The buffer after the bytes [data] were read through [readBuffer]. *)
Definition consumed (data : list Z) (b : ModbusBuffer) : ModbusBuffer :=
  mkModbusBuffer (_buffer b)
                 (_index b + length data)%nat
                 (fold_left CRC.add data (_crc b))
                 (_commanded b)
                 (_recordChanges b)
                 (if _recordChanges b then _records b ++ data else _records b).

(** [n] times [read<uint8_t>()], as a test does to read arguments back. *)
Fixpoint read_each {codec : ByteCodec} (n : nat) : M ModbusBuffer (list Z) :=
  match n with
  | O => ret []
  | S k => d <- read_uint8 ;; r <- read_each k ;; ret (d :: r)
  end.

(** The unicast addresses according to the guard of [pushCommanded]. *)
Definition unicast (address : Z) : Prop := 1 <= address <= 247 \/ address = 255.

(** The broadcast addresses the specification lists. *)
Definition listed_broadcast (address : Z) : Prop :=
  address = 0 \/ address = 148 \/ address = 149 \/ address = 250.

(** The wait and delay duration decoded from a word written for [t] microseconds. *)
Definition long_duration (t : Z) : Z := ((t / 1000 + 1) mod 4096) * 1000.

(** The payload bytes [write<T>(v)] hands to the byte encoder, in wire order. *)
Definition wire_bytes (T : scalar) (v : Z) : list Z :=
  match T with
  | I8 => to_mem 1 (u8 v)
  | U8 => to_mem 1 v
  | I16 => to_mem 2 (u16 (s16 (htons (u16 v))))
  | U16 => to_mem 2 (htons v)
  | I32 => to_mem 4 (u32 (s32 (htonl (u32 v))))
  | U32 => to_mem 4 (htonl v)
  | U64 => to_mem 8 (htobe64 v)
  | F32 => to_mem 4 (htonl v)
  | I24 => [u8 (Z.shiftr v 16); u8 (Z.shiftr v 8); u8 v]
  end.

(** The number of bytes of a scalar type on the wire. *)
Definition width (T : scalar) : nat :=
  match T with
  | I8 | U8 => 1
  | I16 | U16 => 2
  | I24 => 3
  | I32 | U32 | F32 => 4
  | U64 => 8
  end.

(** The big-endian bytes of the [width T] byte two's complement pattern of [v]. *)
Definition big_endian (T : scalar) (v : Z) : list Z :=
  rev (to_mem (width T) (v mod 256 ^ Z.of_nat (width T))).

(** [write<T>(v); reset(); read<T>() == v] on the buffer [b0]: the reader for
    [T] exists, the write succeeds and the read returns [v]. *)
Definition roundtrip_holds {codec : ByteCodec} (T : scalar) (v : Z) (b0 : ModbusBuffer)
  : Prop :=
  exists rd b1 b2,
    read T = Some rd /\
    write T v b0 = (Ok tt, b1) /\
    rd (MB.reset b1) = (Ok v, b2).

(** The scalar types that have both a [write] and a [read] specialization. *)
Definition readable (T : scalar) : Prop :=
  T = U8 \/ T = U16 \/ T = I32 \/ T = U32 \/ T = U64 \/ T = F32.

(** [write(a); write(f); write(args...); writeCRC()]. *)
Definition write_frame {codec : ByteCodec} (a f : Z) (args : list Z) : M ModbusBuffer unit :=
  write_uint8 a ;;; write_uint8 f ;;; write_each args ;;; writeCRC.

(** [read<u8>(); read<u8>(); read(args...); checkCRC()], returning what was read. *)
Definition read_frame {codec : ByteCodec} (n : nat) : M ModbusBuffer (Z * Z * list Z) :=
  x <- read_uint8 ;; y <- read_uint8 ;; zs <- read_each n ;; checkCRC ;;; ret (x, y, zs).

(** The snapshot the change cache holds for [(address, func)]; a missing entry
    counts as the empty snapshot, as [operator[]] would create it. *)
Definition cached_snapshot (i : ILC) (address func : Z) : list Z :=
  default [] (_cachedResponse i !! address ≫= (fun fc => fc !! func)).

(** The payload byte a received FIFO word carries ([ILC::readInstructionByte]). *)
Definition wire_byte (w : Z) : Z := u8 (Z.land (Z.shiftr w 1) 0xFF).

(** The bytes of a frame: the payload followed by its CRC, low byte first. *)
Definition frame_bytes (payload : list Z) : list Z :=
  payload ++ [Z.land (CRC.of_bytes payload) 0xFF;
              Z.land (Z.shiftr (CRC.of_bytes payload) 8) 0xFF].

(** The payload of a function 18 (server status) response from [address]. *)
Definition status_payload (address mode status faults : Z) : list Z :=
  [address; 18; mode] ++ wire_bytes U16 status ++ wire_bytes U16 faults.

(** A run of [pushCommanded] calls, and of [checkCommanded] calls, one per pair. *)
Fixpoint push_all (ps : list (Z * Z)) : M ModbusBuffer unit :=
  match ps with
  | [] => ret tt
  | (a, f) :: r => pushCommanded a f ;;; push_all r
  end.

Fixpoint check_all (ps : list (Z * Z)) : M ModbusBuffer unit :=
  match ps with
  | [] => ret tt
  | (a, f) :: r => checkCommanded a f ;;; check_all r
  end.

(** [n] calls of [nextBroadcastCounter], keeping the values returned. *)
Fixpoint broadcast_counters (n : nat) : M ILC (list Z) :=
  match n with
  | O => ret []
  | S k => c <- nextBroadcastCounter ;; r <- broadcast_counters k ;; ret (c :: r)
  end.

(** The bytes [callFunction] sends for its typed parameters. *)
Definition params_bytes (params : list (scalar * Z)) : list Z :=
  flat_map (fun p => wire_bytes (fst p) (snd p)) params.

(** Reading a request back as the tests do: address, function, [n] argument
    bytes, [checkCRC()], [readEndOfFrame()], [readWaitForRx()]. *)
Definition read_request (n : nat) : M ModbusBuffer (Z * Z * list Z * Z) :=
  r <- read_frame (codec := ILCCodec) n ;;
  ILCImpl.readEndOfFrame ;;;
  t <- ILCImpl.readWaitForRx ;;
  ret (r, t).

(** Reading a broadcast back: address, function, [n] bytes (the counter and the
    data), [checkCRC()], [readEndOfFrame()], [readDelay()]. *)
Definition read_broadcast (n : nat) : M ModbusBuffer (Z * Z * list Z * Z) :=
  r <- read_frame (codec := ILCCodec) n ;;
  ILCImpl.readEndOfFrame ;;;
  t <- readDelay ;;
  ret (r, t).

(** The duration a wait or delay word written for [t] microseconds reads back as. *)
Definition read_back_duration (t : Z) : Z :=
  if t <=? 0x0FFF then t else long_duration t.

(** The words of the buffer that were not read yet. *)
Definition remaining (b : ModbusBuffer) : list Z := drop (_index b) (_buffer b).

(** The function [processResponse] looks for on the ledger when a response
    carries the function code [func]: the function an error code was
    registered for, [func] itself otherwise. *)
Definition answered_function (func : Z) : Z :=
  match _errorActions ILC_responses !! func with
  | Some ea => fst ea
  | None => func
  end.

(** The responses whose callbacks keep no state: reset server (107) and set
    temporary address (72); their payload, the request they answer and the
    hook their callback calls. *)
Inductive reply : Type :=
| ResetServerReply (address : Z)
| TempAddressReply (address newAddress : Z).

Definition reply_payload (r : reply) : list Z :=
  match r with
  | ResetServerReply a => [a; 107]
  | TempAddressReply a n => [a; 72; n]
  end.

Definition reply_request (r : reply) : Z * Z :=
  match r with
  | ResetServerReply a => (a, 107)
  | TempAddressReply a _ => (a, 72)
  end.

Definition reply_call (r : reply) : hook_call :=
  match r with
  | ResetServerReply a => ProcessResetServer a
  | TempAddressReply a n => ProcessSetTempILCAddress a n
  end.

(** * Properties *)

#[global] Arguments CRC.add : simpl never.
#[global] Arguments CRC.shift : simpl never.
#[global] Arguments u8 : simpl never.
#[global] Arguments u16 : simpl never.
#[global] Arguments u32 : simpl never.
#[global] Arguments u64 : simpl never.

(** ** Arithmetic of the fixed width types *)

Lemma lxor_below_pow2 (n a b : Z) :
  0 <= n -> 0 <= a < 2 ^ n -> 0 <= b < 2 ^ n -> 0 <= Z.lxor a b < 2 ^ n.
Proof.
  intros Hn Ha Hb. split; [apply Z.lxor_nonneg; lia|].
  destruct (Z.eq_dec (Z.lxor a b) 0) as [->|Hnz]; [lia|].
  assert (0 < Z.lxor a b) by (pose proof (proj2 (Z.lxor_nonneg a b)); lia).
  apply Z.log2_lt_pow2; [lia|].
  pose proof (Z.log2_lxor a b ltac:(lia) ltac:(lia)) as Hl.
  assert (Z.log2 a < n).
  { destruct (Z.eq_dec a 0) as [->|]; [simpl|apply Z.log2_lt_pow2]; try lia.
    destruct (Z.eq_dec n 0) as [->|]; [|lia].
    destruct (Z.eq_dec b 0) as [->|]; [rewrite Z.lxor_0_r in Hnz|]; lia. }
  assert (Z.log2 b < n).
  { destruct (Z.eq_dec b 0) as [->|]; [simpl|apply Z.log2_lt_pow2]; try lia.
    destruct (Z.eq_dec n 0) as [->|]; [|lia].
    destruct (Z.eq_dec a 0) as [->|]; [rewrite Z.lxor_0_l in Hnz|]; lia. }
  lia.
Qed.

Lemma lxor_u16 (a b : Z) : is_u16 a -> is_u16 b -> is_u16 (Z.lxor a b).
Proof. unfold is_u16. intros. apply (lxor_below_pow2 16); lia. Qed.

Lemma u16_small (x : Z) : is_u16 x -> u16 x = x.
Proof. unfold is_u16, u16. intros. apply Z.mod_small. lia. Qed.

Lemma u8_small (x : Z) : is_u8 x -> u8 x = x.
Proof. unfold is_u8, u8. intros. apply Z.mod_small. lia. Qed.

Lemma is_u8_u16 (x : Z) : is_u8 x -> is_u16 x.
Proof. unfold is_u8, is_u16. lia. Qed.

(** ** CRC *)

Lemma crc_shift_ref (c : Z) :
  is_u16 c -> CRC.shift c = crc16_ref_bit c /\ is_u16 (CRC.shift c).
Proof.
  intros Hc. unfold CRC.shift, crc16_ref_bit.
  assert (Hs : is_u16 (Z.shiftr c 1)).
  { rewrite Z.shiftr_div_pow2 by lia. unfold is_u16 in *.
    change (2 ^ 1) with 2. split; [apply Z.div_pos; lia|].
    apply Z.div_lt_upper_bound; lia. }
  assert (Hl : (Z.land c 1 =? 0) = negb (Z.odd c)).
  { change 1 with (Z.ones 1). rewrite Z.land_ones by lia.
    change (2 ^ 1) with 2. rewrite <- Z.bit0_mod, Z.bit0_odd.
    destruct (Z.odd c); reflexivity. }
  rewrite Hl, Z.bit0_odd.
  destruct (Z.odd c); simpl.
  - rewrite (u16_small (Z.shiftr c 1)) by assumption.
    assert (is_u16 (Z.lxor (Z.shiftr c 1) 40961))
      by (apply lxor_u16; [assumption | unfold is_u16; lia]).
    rewrite u16_small by assumption. auto.
  - rewrite u16_small by assumption. auto.
Qed.

Lemma crc_iter_ref (n : nat) (c : Z) :
  is_u16 c ->
  Nat.iter n CRC.shift c = Nat.iter n crc16_ref_bit c /\ is_u16 (Nat.iter n CRC.shift c).
Proof.
  intros Hc. induction n as [|n [IHe IHr]]; simpl; [auto|].
  destruct (crc_shift_ref _ IHr) as [He Hr].
  split; [rewrite He, IHe; reflexivity | assumption].
Qed.

Lemma crc_add_ref (c d : Z) :
  is_u16 c -> is_u8 d -> CRC.add c d = crc16_ref_byte c d /\ is_u16 (CRC.add c d).
Proof.
  intros Hc Hd. unfold CRC.add, crc16_ref_byte.
  rewrite (u16_small d) by (apply is_u8_u16; assumption).
  assert (Hx : is_u16 (Z.lxor c d)) by (apply lxor_u16; [|apply is_u8_u16]; assumption).
  rewrite u16_small by assumption.
  apply crc_iter_ref. assumption.
Qed.

Lemma crc_add_u16 (c d : Z) : is_u16 (CRC.add c d).
Proof.
  unfold CRC.add.
  assert (H : forall n x, is_u16 x -> is_u16 (Nat.iter n CRC.shift x)).
  { induction n; simpl; intros; [assumption|].
    unfold CRC.shift. destruct (negb _); unfold is_u16, u16; apply Z.mod_pos_bound; lia. }
  apply H. unfold is_u16, u16. apply Z.mod_pos_bound. lia.
Qed.

Lemma crc_fold_ref (data : list Z) (c : Z) :
  is_u16 c -> Forall is_u8 data ->
  fold_left CRC.add data c = fold_left crc16_ref_byte data c.
Proof.
  intros Hc Hd. revert c Hc. induction Hd as [|d data Hd _ IH]; intros c Hc; simpl; [reflexivity|].
  destruct (crc_add_ref c d Hc Hd) as [He Hr].
  rewrite <- He. apply IH. assumption.
Qed.

(** C5. Feeding any sequence of payload bytes to a freshly reset CRC object
    leaves it, and makes [get()] return, exactly the reference Modbus CRC-16 of
    that sequence: 0xFFFF start, xor the byte in, eight right shifts each
    followed by an xor with 0xA001 when the bit shifted out was 1, and no final
    xor. *)
Theorem crc_matches_modbus_reference (data : list Z) :
  Forall is_u8 data ->
  CRC.get (fold_left CRC.add data CRC.reset) = crc16_modbus_ref data.
Proof.
  intros Hd. unfold CRC.get, crc16_modbus_ref, CRC.reset.
  apply crc_fold_ref; [unfold is_u16; lia | assumption].
Qed.

(** The check value of CRC-16/MODBUS: the ASCII digits 1 to 9 give 0x4B37. *)
Lemma crc_matches_modbus_reference_witness :
  Forall is_u8 [49; 50; 51; 52; 53; 54; 55; 56; 57] /\
  CRC.get (fold_left CRC.add [49; 50; 51; 52; 53; 54; 55; 56; 57] CRC.reset)
  = crc16_modbus_ref [49; 50; 51; 52; 53; 54; 55; 56; 57].
Proof.
  split.
  - repeat constructor; unfold is_u8; lia.
  - apply (crc_matches_modbus_reference [49; 50; 51; 52; 53; 54; 55; 56; 57]).
    repeat constructor; unfold is_u8; lia.
Defined.

Example crc_check_value :
  CRC.of_bytes [49; 50; 51; 52; 53; 54; 55; 56; 57] = 0x4B37.
Proof. vm_compute. reflexivity. Qed.

(** ** Deciding a property of a small range by running it *)

Lemma forall_below (n : nat) (f : Z -> bool) :
  forallb f (map Z.of_nat (seq 0 n)) = true ->
  forall k, 0 <= k < Z.of_nat n -> f k = true.
Proof.
  intros Hall k Hk.
  rewrite forallb_forall in Hall. apply Hall.
  rewrite <- (Z2Nat.id k) by lia.
  apply in_map, in_seq. lia.
Qed.

(** ** The two implementations of the virtual byte methods *)

Lemma lookup_endOfBuffer (b : ModbusBuffer) :
  MB.endOfBuffer b = match _buffer b !! _index b with
                     | Some _ => false
                     | None => true
                     end.
Proof.
  unfold MB.endOfBuffer.
  destruct (_buffer b !! _index b) eqn:E.
  - apply Nat.leb_gt. apply lookup_lt_is_Some. eauto.
  - apply Nat.leb_le. apply lookup_ge_None. assumption.
Qed.

#[export, refine] Instance BaseCodecLaws : CodecLaws BaseCodec := {|
  encode := fun d => u16 d;
  decode := fun w => u8 w
|}.
Proof.
  - intros d b. reflexivity.
  - intros b. simpl. unfold MBase.readInstructionByte.
    rewrite lookup_endOfBuffer.
    unfold bind, MB.getCurrentBufferAndInc, MB.getCurrentBuffer, bind.
    destruct (_buffer b !! _index b); reflexivity.
  - intros d Hd. unfold is_u8 in Hd. unfold u8, u16.
    rewrite !(Z.mod_small d 65536) by lia. apply Z.mod_small. lia.
Defined.

Lemma ilc_decode_encode (d : Z) :
  is_u8 d ->
  u8 (Z.land (Z.shiftr (u16 (u16 (Z.lor FIFO.TX_MASK (Z.shiftl (u16 d) 1)))) 1) 0xFF) = d.
Proof.
  intros Hd.
  apply Z.eqb_eq.
  apply (forall_below 256
           (fun d => u8 (Z.land (Z.shiftr
                      (u16 (u16 (Z.lor FIFO.TX_MASK (Z.shiftl (u16 d) 1)))) 1) 0xFF) =? d)).
  - vm_compute. reflexivity.
  - exact Hd.
Qed.

#[export, refine] Instance ILCCodecLaws : CodecLaws ILCCodec := {|
  encode := fun d => u16 (Z.lor FIFO.TX_MASK (Z.shiftl (u16 d) 1));
  decode := fun w => u8 (Z.land (Z.shiftr w 1) 0xFF)
|}.
Proof.
  - intros d b. reflexivity.
  - intros b. simpl. unfold ILCImpl.readInstructionByte.
    rewrite lookup_endOfBuffer.
    unfold bind, MB.getCurrentBufferAndInc, MB.getCurrentBuffer, bind.
    destruct (_buffer b !! _index b); reflexivity.
  - intros d Hd. apply ilc_decode_encode. exact Hd.
Defined.

(** ** Request ledger *)

(** C7. [checkCommanded(a, f)] on an empty ledger throws
    [UnmatchedFunction(a, f)] and changes nothing; on a non-empty ledger it
    removes the front pair and succeeds exactly when that pair is [(a, f)],
    otherwise it throws [UnmatchedFunction(a, f, expected address, expected
    function)] with the front pair already removed. *)
Theorem checkCommanded_pops_front (a f : Z) (b : ModbusBuffer) :
  match _commanded b with
  | [] => checkCommanded a f b = (Throw (UnmatchedFunction a f None), b)
  | front :: rest =>
      checkCommanded a f b =
      (if decide (front = (a, f)) then Ok tt
       else Throw (UnmatchedFunction a f (Some front)),
       set_commanded rest b)
  end.
Proof.
  unfold checkCommanded.
  destruct (_commanded b) as [|[x y] rest]; [reflexivity|]. simpl.
  destruct (Z.eqb_spec x a) as [->|Hx]; simpl.
  - destruct (Z.eqb_spec y f) as [->|Hy]; simpl.
    + rewrite decide_True by reflexivity. reflexivity.
    + rewrite decide_False by congruence. reflexivity.
  - rewrite decide_False by congruence. reflexivity.
Qed.

(** ** Change recording *)

Lemma checkRecording_spec (c : list Z) (b : ModbusBuffer) :
  checkRecording c b =
  (Ok (if decide (_records b = c) then (true, c) else (false, _records b)),
   set_records [] (set_recordChanges false b)).
Proof.
  unfold checkRecording. simpl.
  destruct (decide (_records b = c)) as [E|E].
  - rewrite bool_decide_eq_true_2 by congruence. reflexivity.
  - rewrite bool_decide_eq_false_2 by congruence. reflexivity.
Qed.

(** C8. [checkRecording(cached)] always ends with recording off and the record
    vector empty; when the record equals [cached] it returns true and leaves
    [cached] as it was, otherwise it returns false and [cached] holds what the
    record was. *)
Theorem checkRecording_compares_and_swaps (c : list Z) (b : ModbusBuffer) :
  checkRecording c b =
  (Ok (if decide (_records b = c) then (true, c) else (false, _records b)),
   set_records [] (set_recordChanges false b)).
Proof.
  unfold checkRecording. cbn [_records set_recordChanges].
  destruct (decide (_records b = c)) as [Heq|Hne].
  - rewrite bool_decide_eq_true_2 by (symmetry; exact Heq). reflexivity.
  - rewrite bool_decide_eq_false_2 by (intros Hc; apply Hne; symmetry; exact Hc).
    reflexivity.
Qed.

(** ** Writing and reading runs of bytes *)

Lemma wrote_nil `{CodecLaws} (b : ModbusBuffer) : wrote [] b = b.
Proof.
  destruct b as [buf idx crc cmd rec recs]. unfold wrote. simpl.
  rewrite !app_nil_r. destruct rec; reflexivity.
Qed.

Lemma wrote_app `{CodecLaws} (xs ys : list Z) (b : ModbusBuffer) :
  wrote ys (wrote xs b) = wrote (xs ++ ys) b.
Proof.
  destruct b as [buf idx crc cmd rec recs]. unfold wrote. simpl.
  rewrite map_app, fold_left_app.
  destruct rec; rewrite <- ?app_assoc; reflexivity.
Qed.

Lemma write_byte_spec `{CodecLaws} (d : Z) (b : ModbusBuffer) :
  (w <- getByteInstruction d ;; MB.pushBuffer w) b = (Ok tt, wrote [d] b).
Proof.
  unfold bind. rewrite getByteInstruction_spec.
  destruct b as [buf idx crc cmd rec recs]. unfold wrote. simpl.
  destruct rec; reflexivity.
Qed.

Lemma writeBuffer_spec `{CodecLaws} (data : list Z) (b : ModbusBuffer) :
  writeBuffer data b = (Ok tt, wrote data b).
Proof.
  revert b. induction data as [|d r IH]; intros b; simpl.
  - rewrite wrote_nil. reflexivity.
  - pose proof (write_byte_spec d b) as Hb.
    unfold bind in Hb |- *.
    destruct (getByteInstruction d b) as [[w| |] b1]; try discriminate.
    rewrite Hb, IH, wrote_app. reflexivity.
Qed.

Lemma consumed_nil (b : ModbusBuffer) : consumed [] b = b.
Proof.
  destruct b as [buf idx crc cmd rec recs]. unfold consumed. simpl.
  rewrite Nat.add_0_r, app_nil_r. destruct rec; reflexivity.
Qed.

Lemma consumed_app (xs ys : list Z) (b : ModbusBuffer) :
  consumed ys (consumed xs b) = consumed (xs ++ ys) b.
Proof.
  destruct b as [buf idx crc cmd rec recs]. unfold consumed. simpl.
  rewrite length_app, fold_left_app, Nat.add_assoc.
  destruct rec; rewrite <- ?app_assoc; reflexivity.
Qed.

Lemma read_byte_spec `{CodecLaws} (w : Z) (b : ModbusBuffer) :
  _buffer b !! _index b = Some w ->
  (d <- readInstructionByte ;; MB.processDataCRC d ;;; ret d) b
  = (Ok (decode w), consumed [decode w] b).
Proof.
  intros Hw. unfold bind. rewrite readInstructionByte_spec, Hw.
  destruct b as [buf idx crc cmd rec recs]. unfold consumed. simpl.
  rewrite Nat.add_1_r. destruct rec; reflexivity.
Qed.

Lemma readBuffer_spec `{CodecLaws} (n : nat) (b : ModbusBuffer) (ws : list Z) :
  take n (drop (_index b) (_buffer b)) = ws -> length ws = n ->
  readBuffer n b = (Ok (map decode ws), consumed (map decode ws) b).
Proof.
  revert b ws. induction n as [|n IH]; intros b ws Hws Hlen.
  - destruct ws; [|discriminate]. simpl. rewrite consumed_nil. reflexivity.
  - destruct ws as [|w ws]; [discriminate|].
    destruct (_buffer b !! _index b) as [x|] eqn:Hx.
    + rewrite (drop_S _ _ _ Hx) in Hws. simpl in Hws.
      injection Hws as -> Hws. simpl in Hlen.
      change (readBuffer (S n) b) with
        ((d <- readInstructionByte ;; MB.processDataCRC d ;;;
          r <- readBuffer n ;; ret (d :: r)) b).
      pose proof (read_byte_spec w b Hx) as Hb.
      unfold bind in Hb |- *.
      destruct (readInstructionByte b) as [[d| |] b1]; try discriminate.
      destruct (MB.processDataCRC d b1) as [[[]| |] b2]; try discriminate.
      injection Hb as -> ->.
      rewrite (IH (consumed [decode w] b) ws).
      * simpl. rewrite consumed_app. reflexivity.
      * simpl. rewrite Nat.add_1_r. exact Hws.
      * lia.
    + apply lookup_ge_None in Hx. rewrite drop_ge in Hws by lia.
      rewrite take_nil in Hws. discriminate.
Qed.

Lemma map_decode_encode `{CodecLaws} (data : list Z) :
  Forall is_u8 data -> map decode (map (fun d => u16 (encode d)) data) = data.
Proof.
  induction 1 as [|d r Hd _ IH]; simpl; [reflexivity|].
  rewrite decode_encode by assumption. rewrite IH. reflexivity.
Qed.

(** Reading back a run of bytes that sits, encoded, at the cursor. *)
Lemma readBuffer_encoded `{CodecLaws} (data : list Z) (b : ModbusBuffer) :
  Forall is_u8 data ->
  take (length data) (drop (_index b) (_buffer b)) = map (fun d => u16 (encode d)) data ->
  readBuffer (length data) b = (Ok data, consumed data b).
Proof.
  intros Hd Hb.
  rewrite (readBuffer_spec _ _ _ Hb) by (rewrite length_map; reflexivity).
  rewrite map_decode_encode by assumption. reflexivity.
Qed.

(** ** Memory view lemmas *)

Lemma to_mem_length (n : nat) (v : Z) : length (to_mem n v) = n.
Proof. revert v. induction n; intros; simpl; [|rewrite IHn]; reflexivity. Qed.

Lemma to_mem_bytes (n : nat) (v : Z) : Forall is_u8 (to_mem n v).
Proof.
  revert v. induction n; intros; simpl; constructor; [|apply IHn].
  unfold is_u8. apply Z.mod_pos_bound. lia.
Qed.

Lemma of_mem_range (bs : list Z) :
  Forall is_u8 bs -> 0 <= of_mem bs < 256 ^ Z.of_nat (length bs).
Proof.
  induction 1 as [|b r Hb _ IH]; simpl length; simpl of_mem; [lia|].
  rewrite Nat2Z.inj_succ, Z.pow_succ_r by lia. unfold is_u8 in Hb. lia.
Qed.

Lemma of_mem_to_mem (n : nat) (v : Z) :
  0 <= v < 256 ^ Z.of_nat n -> of_mem (to_mem n v) = v.
Proof.
  revert v. induction n as [|n IH]; intros v Hv.
  - simpl in *. lia.
  - rewrite Nat2Z.inj_succ, Z.pow_succ_r in Hv by lia. simpl.
    rewrite IH.
    + pose proof (Z.div_mod v 256). lia.
    + split; [apply Z.div_pos; lia | apply Z.div_lt_upper_bound; lia].
Qed.

Lemma to_mem_of_mem (bs : list Z) :
  Forall is_u8 bs -> to_mem (length bs) (of_mem bs) = bs.
Proof.
  induction 1 as [|b r Hb _ IH]; simpl; [reflexivity|].
  unfold is_u8 in Hb.
  replace ((b + 256 * of_mem r) mod 256) with b
    by (rewrite (Z.mul_comm 256), Z.mod_add, Z.mod_small; lia).
  replace ((b + 256 * of_mem r) / 256) with (of_mem r)
    by (rewrite (Z.mul_comm 256), Z.div_add, Z.div_small; lia).
  rewrite IH. reflexivity.
Qed.

(** On the wire the bytes of [bswap n v] are the big-endian bytes of [v]. *)
Lemma to_mem_bswap (n : nat) (v : Z) : to_mem n (bswap n v) = rev (to_mem n v).
Proof.
  unfold bswap.
  rewrite <- (to_mem_length n v) at 1. rewrite <- length_rev.
  apply to_mem_of_mem. apply Forall_rev, to_mem_bytes.
Qed.

Lemma bswap_of_mem_rev (bs : list Z) :
  Forall is_u8 bs -> bswap (length bs) (of_mem (rev bs)) = of_mem bs.
Proof.
  intros Hb. unfold bswap.
  rewrite <- (length_rev bs) at 1.
  rewrite to_mem_of_mem by (apply Forall_rev; assumption).
  rewrite rev_involutive. reflexivity.
Qed.

(** Reading what [bswap] wrote gives the value back. *)
Lemma bswap_roundtrip (n : nat) (v : Z) :
  0 <= v < 256 ^ Z.of_nat n -> bswap n (of_mem (to_mem n (bswap n v))) = v.
Proof.
  intros Hv. rewrite to_mem_bswap.
  rewrite <- (to_mem_length n v) at 1.
  rewrite bswap_of_mem_rev by apply to_mem_bytes.
  apply of_mem_to_mem. assumption.
Qed.

(** ** Typed writes and reads *)

Lemma u32_s32 (x : Z) : is_u32 x -> u32 (s32 x) = x.
Proof.
  unfold is_u32, u32, s32, to_signed. intros Hx.
  change (2 ^ 32) with 4294967296. change (2 ^ (32 - 1)) with 2147483648.
  rewrite (Z.mod_small x) by lia.
  destruct (x <? 2147483648); Z.to_euclidean_division_equations; lia.
Qed.

Lemma s32_u32 (v : Z) : -2147483648 <= v < 2147483648 -> s32 (u32 v) = v.
Proof.
  unfold u32, s32, to_signed. intros Hv.
  change (2 ^ 32) with 4294967296. change (2 ^ (32 - 1)) with 2147483648.
  rewrite Z.mod_mod by lia.
  destruct (Z.ltb_spec (v mod 4294967296) 2147483648);
    Z.to_euclidean_division_equations; lia.
Qed.

Lemma bswap_range (n : nat) (v : Z) : 0 <= bswap n v < 256 ^ Z.of_nat n.
Proof.
  unfold bswap.
  pose proof (of_mem_range (rev (to_mem n v)) (Forall_rev (to_mem_bytes n v))) as Hr.
  rewrite length_rev, to_mem_length in Hr. exact Hr.
Qed.

Lemma write_spec `{CodecLaws} (T : scalar) (v : Z) (b : ModbusBuffer) :
  write T v b = (Ok tt, wrote (wire_bytes T v) b).
Proof.
  destruct T; try apply writeBuffer_spec.
  unfold write, writeI24, wire_bytes.
  pose proof (write_byte_spec (u8 (Z.shiftr v 16)) b) as H1.
  pose proof (write_byte_spec (u8 (Z.shiftr v 8)) (wrote [u8 (Z.shiftr v 16)] b)) as H2.
  pose proof (write_byte_spec (u8 v)
                (wrote [u8 (Z.shiftr v 8)] (wrote [u8 (Z.shiftr v 16)] b))) as H3.
  unfold bind in *.
  destruct (getByteInstruction (u8 (Z.shiftr v 16)) b) as [[w1| |] b1]; try discriminate.
  rewrite H1.
  destruct (getByteInstruction (u8 (Z.shiftr v 8)) _) as [[w2| |] b2]; try discriminate.
  rewrite H2.
  destruct (getByteInstruction (u8 v) _) as [[w3| |] b3]; try discriminate.
  rewrite H3, !wrote_app. reflexivity.
Qed.

Lemma wire_bytes_u8 (T : scalar) (v : Z) : Forall is_u8 (wire_bytes T v).
Proof.
  destruct T; try apply to_mem_bytes.
  repeat constructor; unfold is_u8, u8; apply Z.mod_pos_bound; lia.
Qed.

Lemma u16_s16 (x : Z) : is_u16 x -> u16 (s16 x) = x.
Proof.
  unfold is_u16, u16, s16, to_signed. intros Hx.
  change (2 ^ 16) with 65536. change (2 ^ (16 - 1)) with 32768.
  rewrite (Z.mod_small x) by lia.
  destruct (x <? 32768); Z.to_euclidean_division_equations; lia.
Qed.

(** Every [write<T>] and [writeI24] sends the most significant byte first. *)
Lemma wire_bytes_big_endian (T : scalar) (v : Z) :
  in_range T v -> wire_bytes T v = big_endian T v.
Proof.
  unfold big_endian. intros Hv.
  destruct T; cbn [in_range] in Hv; cbn [wire_bytes width].
  - cbn [to_mem rev app]. unfold u8. change (256 ^ Z.of_nat 1) with 256.
    rewrite Z.mod_mod by lia. reflexivity.
  - rewrite (Z.mod_small v) by (simpl; lia). reflexivity.
  - pose proof (bswap_range 2 (u16 v)) as Hx.
    unfold htons. rewrite u16_s16 by (unfold is_u16; simpl in Hx; lia).
    apply to_mem_bswap.
  - rewrite (Z.mod_small v) by (simpl; lia). apply to_mem_bswap.
  - pose proof (bswap_range 4 (u32 v)) as Hx.
    unfold htonl. rewrite u32_s32 by (unfold is_u32; simpl in Hx; lia).
    apply to_mem_bswap.
  - rewrite (Z.mod_small v) by (simpl; lia). apply to_mem_bswap.
  - rewrite (Z.mod_small v) by (simpl; lia). apply to_mem_bswap.
  - rewrite (Z.mod_small v) by (simpl; lia). apply to_mem_bswap.
  - cbn [to_mem rev app]. unfold u8. rewrite !Z.shiftr_div_pow2 by lia.
    change (256 ^ Z.of_nat 3) with 16777216.
    change (2 ^ 16) with 65536. change (2 ^ 8) with 256.
    f_equal; [|f_equal; [|f_equal]]; Z.to_euclidean_division_equations; lia.
Qed.

(** After [reset()] the reader sees exactly the bytes that were written into an
    empty buffer. *)
Lemma read_back_written `{CodecLaws} (data : list Z) (b0 : ModbusBuffer) :
  _buffer b0 = [] -> Forall is_u8 data ->
  readBuffer (length data) (MB.reset (wrote data b0))
  = (Ok data, consumed data (MB.reset (wrote data b0))).
Proof.
  intros Hb Hd. apply readBuffer_encoded; [assumption|].
  simpl. rewrite Hb. simpl.
  apply take_ge. rewrite length_map. lia.
Qed.

Lemma roundtrip_readable `{CodecLaws} (T : scalar) (v : Z) (b0 : ModbusBuffer) :
  readable T -> in_range T v -> _buffer b0 = [] -> roundtrip_holds T v b0.
Proof.
  intros HT Hv Hb.
  pose proof (read_back_written (wire_bytes T v) b0 Hb (wire_bytes_u8 T v)) as Hr.
  assert (Hrun : forall (n : nat) (conv : Z -> Z),
             length (wire_bytes T v) = n ->
             conv (of_mem (wire_bytes T v)) = v ->
             (bs <- readBuffer n ;; ret (conv (of_mem bs)))
               (MB.reset (wrote (wire_bytes T v) b0))
             = (Ok v, consumed (wire_bytes T v) (MB.reset (wrote (wire_bytes T v) b0)))).
  { intros n conv Hn Hc. unfold bind. rewrite <- Hn, Hr. unfold ret. rewrite Hc.
    reflexivity. }
  unfold roundtrip_holds.
  destruct HT as [-> | [-> | [-> | [-> | [-> | ->]]]]]; simpl in Hv;
    eexists _, _, _; (split; [reflexivity|]); (split; [apply write_spec|]).
  - apply (Hrun 1%nat (fun x => x)); [reflexivity|].
    apply (of_mem_to_mem 1). simpl. lia.
  - apply (Hrun 2%nat ntohs); [reflexivity|].
    apply (bswap_roundtrip 2). simpl. lia.
  - apply (Hrun 4%nat (fun x => s32 (ntohl (u32 (s32 x))))); [reflexivity|].
    unfold wire_bytes, htonl, ntohl.
    pose proof (bswap_range 4 (u32 v)) as Hx.
    rewrite (u32_s32 (bswap 4 (u32 v))) by (unfold is_u32; simpl in Hx; lia).
    rewrite (of_mem_to_mem 4) by exact Hx.
    rewrite (u32_s32 (bswap 4 (u32 v))) by (unfold is_u32; simpl in Hx; lia).
    rewrite <- (of_mem_to_mem 4 (bswap 4 (u32 v))) by exact Hx.
    rewrite (bswap_roundtrip 4)
      by (unfold u32; simpl; apply Z.mod_pos_bound; lia).
    apply s32_u32. lia.
  - apply (Hrun 4%nat ntohl); [reflexivity|].
    apply (bswap_roundtrip 4). simpl. lia.
  - apply (Hrun 8%nat be64toh); [reflexivity|].
    apply (bswap_roundtrip 8). simpl. lia.
  - apply (Hrun 4%nat ntohl); [reflexivity|].
    apply (bswap_roundtrip 4). simpl. lia.
Qed.

(** C3 (the part that holds). For each scalar type that has a reader, that is
    u8, u16, i32, u32, u64 and f32 (as a bit pattern), and every value [v] of
    that type: [write<T>(v)] into an empty buffer, [reset()], [read<T>()]
    returns [v]; the buffer holds one word per byte, most significant byte
    first. This holds for the base class byte methods and for the ILC ones
    alike. *)
Theorem write_reset_read_roundtrip `{CodecLaws} (T : scalar) (v : Z) (b0 : ModbusBuffer) :
  readable T -> in_range T v -> _buffer b0 = [] ->
  roundtrip_holds T v b0 /\
  exists b1, write T v b0 = (Ok tt, b1) /\
             _buffer b1 = map (fun d => u16 (encode d)) (big_endian T v).
Proof.
  intros HT Hv Hb. split; [apply roundtrip_readable; assumption|].
  eexists. split; [apply write_spec|].
  cbn [wrote _buffer]. rewrite Hb, (wire_bytes_big_endian T v Hv). reflexivity.
Qed.

Lemma write_reset_read_roundtrip_witness :
  let b0 := MB.clear false (mkModbusBuffer [] 0 0 [] false []) in
  readable U16 /\ in_range U16 0x1234 /\ _buffer b0 = [] /\
  roundtrip_holds (codec := ILCCodec) U16 0x1234 b0 /\
  exists b1, write (codec := ILCCodec) U16 0x1234 b0 = (Ok tt, b1) /\
             _buffer b1 = [0x1224; 0x1268].
Proof.
  intros b0.
  assert (Ht : readable U16) by (unfold readable; auto).
  assert (Hv : in_range U16 0x1234) by (simpl; lia).
  assert (Hb : _buffer b0 = []) by reflexivity.
  split; [exact Ht|]. split; [exact Hv|]. split; [exact Hb|].
  exact (write_reset_read_roundtrip (codec := ILCCodec) U16 0x1234 b0 Ht Hv Hb).
Defined.

(** C3 as stated fails: i16 is in the list of supported types, [write<int16_t>]
    exists, but there is no [read<int16_t>] (nor [read<int8_t>], nor a reader
    for 24 bit values). *)
Lemma roundtrip_fails_for_int16 :
  in_range I16 0 /\
  ~ roundtrip_holds (codec := ILCCodec) I16 0
      (MB.clear false (mkModbusBuffer [] 0 0 [] false [])).
Proof.
  split; [simpl; lia|].
  intros (rd & b1 & b2 & Hrd & _). simpl in Hrd. discriminate.
Qed.

(** ** CRC of a frame *)

Lemma crc_fold_u16 (data : list Z) (c : Z) : is_u16 c -> is_u16 (fold_left CRC.add data c).
Proof.
  revert c. induction data as [|d r IH]; intros c Hc; simpl; [assumption|].
  apply IH, crc_add_u16.
Qed.

Lemma land_255 (c : Z) : Z.land c 0xFF = c mod 256.
Proof. change 0xFF with (Z.ones 8). rewrite Z.land_ones by lia. reflexivity. Qed.

Lemma crc_low_byte (c : Z) : is_u8 (Z.land c 0xFF).
Proof. rewrite land_255. unfold is_u8. apply Z.mod_pos_bound. lia. Qed.

Lemma crc_high_byte (c : Z) : is_u8 (Z.land (Z.shiftr c 8) 0xFF).
Proof. apply crc_low_byte. Qed.

(** The two bytes [writeCRC] sends, read as a little-endian word, are the CRC. *)
Lemma crc_split (c : Z) :
  is_u16 c -> of_mem [Z.land c 0xFF; Z.land (Z.shiftr c 8) 0xFF] = c.
Proof.
  unfold is_u16. intros Hc. simpl of_mem.
  rewrite !land_255, Z.shiftr_div_pow2 by lia. change (2 ^ 8) with 256.
  Z.to_euclidean_division_equations. lia.
Qed.

Lemma write_uint8_spec `{CodecLaws} (d : Z) (b : ModbusBuffer) :
  is_u8 d -> write_uint8 d b = (Ok tt, wrote [d] b).
Proof.
  intros Hd. unfold write_uint8. rewrite writeBuffer_spec. simpl to_mem.
  unfold is_u8 in Hd. rewrite Z.mod_small by lia. reflexivity.
Qed.

Lemma write_each_spec `{CodecLaws} (data : list Z) (b : ModbusBuffer) :
  Forall is_u8 data -> write_each data b = (Ok tt, wrote data b).
Proof.
  intros Hd. revert b. induction Hd as [|d r Hd _ IH]; intros b; simpl.
  - rewrite wrote_nil. reflexivity.
  - unfold bind. rewrite write_uint8_spec by assumption.
    rewrite IH, wrote_app. reflexivity.
Qed.

Lemma writeCRC_spec `{CodecLaws} (b : ModbusBuffer) :
  writeCRC b =
  (Ok tt, set_crc CRC.reset
            (wrote [Z.land (_crc b) 0xFF; Z.land (Z.shiftr (_crc b) 8) 0xFF] b)).
Proof.
  unfold writeCRC.
  pose proof (write_byte_spec (Z.land (_crc b) 0xFF) b) as H1.
  pose proof (write_byte_spec (Z.land (Z.shiftr (_crc b) 8) 0xFF)
                (wrote [Z.land (_crc b) 0xFF] b)) as H2.
  unfold bind, MB.getCalcCrc, CRC.get in *.
  destruct (getByteInstruction (Z.land (_crc b) 0xFF) b) as [[w1| |] b1]; try discriminate.
  rewrite H1.
  destruct (getByteInstruction (Z.land (Z.shiftr (_crc b) 8) 0xFF) _) as [[w2| |] b2];
    try discriminate.
  rewrite H2, wrote_app. reflexivity.
Qed.

Lemma read_uint8_unfold {codec : ByteCodec} (b : ModbusBuffer) :
  read_uint8 b = (d <- readInstructionByte ;; MB.processDataCRC d ;;; ret d) b.
Proof.
  unfold read_uint8, readBuffer, bind.
  destruct (readInstructionByte b) as [[d| |] b1]; try reflexivity.
  simpl. unfold ret. rewrite Z.add_0_r. reflexivity.
Qed.

Lemma read_each_readBuffer {codec : ByteCodec} (n : nat) (b : ModbusBuffer) :
  read_each n b = readBuffer n b.
Proof.
  revert b. induction n as [|n IH]; intros b; [reflexivity|].
  simpl. unfold bind at 1. rewrite read_uint8_unfold. unfold bind.
  destruct (readInstructionByte b) as [[d| |] b1]; try reflexivity.
  simpl. rewrite IH. reflexivity.
Qed.

Lemma read_uint8_at `{CodecLaws} (d : Z) (b : ModbusBuffer) :
  is_u8 d -> _buffer b !! _index b = Some (u16 (encode d)) ->
  read_uint8 b = (Ok d, consumed [d] b).
Proof.
  intros Hd Hb. rewrite read_uint8_unfold, (read_byte_spec _ _ Hb).
  rewrite decode_encode by assumption. reflexivity.
Qed.

Ltac all_bytes :=
  repeat first [apply Forall_nil_2 | apply Forall_cons_2; [assumption|]].

Lemma checkCRC_spec `{CodecLaws} (b : ModbusBuffer) (lo hi : Z) :
  is_u8 lo -> is_u8 hi ->
  take 2 (drop (_index b) (_buffer b)) = [u16 (encode lo); u16 (encode hi)] ->
  of_mem [lo; hi] = _crc b ->
  checkCRC b = (Ok tt, set_crc CRC.reset (consumed [lo; hi] (set_recordChanges false b))).
Proof.
  intros Hlo Hhi Hws Hcrc.
  assert (Hr : readBuffer 2 (set_recordChanges false b)
               = (Ok [lo; hi], consumed [lo; hi] (set_recordChanges false b))).
  { apply (readBuffer_encoded [lo; hi]); [all_bytes | exact Hws]. }
  unfold checkCRC, bind, MB.getCalcCrc, MB.pauseRecordChanges, modify. rewrite Hr.
  unfold le32toh, CRC.get. rewrite Hcrc.
  assert (Hu : is_u16 (_crc b)).
  { rewrite <- Hcrc. pose proof (of_mem_range [lo; hi] ltac:(all_bytes)) as Hrange.
    exact Hrange. }
  rewrite (u16_small _ Hu), Z.eqb_refl. reflexivity.
Qed.

Lemma crc_wrote `{CodecLaws} (data : list Z) (b : ModbusBuffer) :
  _crc (wrote data b) = fold_left CRC.add data (_crc b).
Proof. reflexivity. Qed.

Lemma write_frame_spec `{CodecLaws} (a f : Z) (args : list Z) (b : ModbusBuffer) :
  is_u8 a -> is_u8 f -> Forall is_u8 args ->
  write_frame a f args b =
  (Ok tt,
   set_crc CRC.reset
     (wrote ((a :: f :: args)
             ++ [Z.land (fold_left CRC.add (a :: f :: args) (_crc b)) 0xFF;
                 Z.land (Z.shiftr (fold_left CRC.add (a :: f :: args) (_crc b)) 8) 0xFF])
            b)).
Proof.
  intros Ha Hf Hargs. unfold write_frame, bind.
  rewrite (write_uint8_spec a) by assumption.
  rewrite (write_uint8_spec f) by assumption.
  rewrite write_each_spec by assumption.
  rewrite writeCRC_spec, !wrote_app, crc_wrote. cbn [app]. reflexivity.
Qed.

Lemma read_frame_spec `{CodecLaws} (a f : Z) (args : list Z) (r0 : ModbusBuffer) (c : Z) :
  is_u8 a -> is_u8 f -> Forall is_u8 args ->
  c = fold_left CRC.add (a :: f :: args) CRC.reset ->
  _buffer r0 = map (fun d => u16 (encode d))
                   ((a :: f :: args) ++ [Z.land c 0xFF; Z.land (Z.shiftr c 8) 0xFF]) ->
  _index r0 = 0%nat -> _crc r0 = CRC.reset ->
  read_frame (length args) r0 =
  (Ok (a, f, args),
   set_crc CRC.reset
     (consumed [Z.land c 0xFF; Z.land (Z.shiftr c 8) 0xFF]
        (set_recordChanges false (consumed (a :: f :: args) r0)))).
Proof.
  intros Ha Hf Hargs Hcdef Hr0 Hi0 Hc0.
  assert (Hc : is_u16 c)
    by (rewrite Hcdef; apply crc_fold_u16; unfold is_u16, CRC.reset; lia).
  rewrite map_app in Hr0. cbn [map app] in Hr0.
  unfold read_frame, bind.
  rewrite (read_uint8_at a r0 Ha) by (rewrite Hr0, Hi0; reflexivity).
  rewrite (read_uint8_at f (consumed [a] r0) Hf)
    by (cbn [consumed _buffer _index length]; rewrite Hr0, Hi0; reflexivity).
  rewrite consumed_app, read_each_readBuffer.
  rewrite (readBuffer_encoded args)
    by (try assumption; cbn [consumed _buffer _index length app]; rewrite Hr0, Hi0;
        cbn [Nat.add drop];
        apply take_app_length'; rewrite length_map; reflexivity).
  rewrite consumed_app.
  rewrite (checkCRC_spec _ (Z.land c 0xFF) (Z.land (Z.shiftr c 8) 0xFF)).
  - reflexivity.
  - apply crc_low_byte.
  - apply crc_high_byte.
  - cbn [consumed _buffer _index length app]. rewrite Hr0, Hi0.
    cbn [Nat.add drop].
    rewrite drop_app_length' by (rewrite length_map; reflexivity). reflexivity.
  - rewrite (crc_split c Hc). cbn [consumed _crc app set_recordChanges].
    rewrite Hc0, Hcdef. reflexivity.
Qed.

(** C2. Whatever the address byte, the function byte and the argument bytes
    are: writing them and then [writeCRC()] into an empty buffer whose CRC is
    reset succeeds, and after [reset()] reading the same number of bytes back
    followed by [checkCRC()] succeeds as well (no [CRCError], no
    [EndOfBuffer]) and returns the bytes written. *)
Theorem crc_roundtrip `{CodecLaws} (a f : Z) (args : list Z) (b0 : ModbusBuffer) :
  is_u8 a -> is_u8 f -> Forall is_u8 args ->
  _buffer b0 = [] -> _crc b0 = CRC.reset ->
  exists b1 b2,
    write_frame a f args b0 = (Ok tt, b1) /\
    read_frame (length args) (MB.reset b1) = (Ok (a, f, args), b2).
Proof.
  intros Ha Hf Hargs Hbuf Hcrc.
  rewrite (write_frame_spec a f args b0 Ha Hf Hargs), Hcrc.
  eexists _, _. split; [reflexivity|].
  apply (read_frame_spec a f args _ _ Ha Hf Hargs eq_refl).
  - cbn [MB.reset set_records set_recordChanges set_crc set_index _buffer wrote].
    rewrite Hbuf. reflexivity.
  - reflexivity.
  - reflexivity.
Qed.

Lemma crc_roundtrip_witness :
  is_u8 17 /\ is_u8 110 /\ Forall is_u8 [1; 2; 3] /\
  exists b1 b2,
    write_frame (codec := ILCCodec) 17 110 [1; 2; 3] (MB.clear false (mkModbusBuffer [] 0 0 [] false []))
    = (Ok tt, b1) /\
    read_frame (codec := ILCCodec) (length [1; 2; 3]) (MB.reset b1) = (Ok (17, 110, [1; 2; 3]), b2).
Proof.
  assert (Ha : is_u8 17) by (unfold is_u8; lia).
  assert (Hf : is_u8 110) by (unfold is_u8; lia).
  assert (Hargs : Forall is_u8 [1; 2; 3])
    by (repeat (apply Forall_cons_2; [unfold is_u8; lia|]); apply Forall_nil_2).
  split; [exact Ha|]. split; [exact Hf|]. split; [exact Hargs|].
  apply (crc_roundtrip 17 110 [1; 2; 3] _ Ha Hf Hargs); reflexivity.
Defined.

(** ** Requests: [callFunction] and the ledger *)

Lemma pushCommanded_spec (a f : Z) (b : ModbusBuffer) :
  pushCommanded a f b =
  (Ok tt, if decide (unicast a) then set_commanded (_commanded b ++ [(a, f)]) b else b).
Proof.
  unfold pushCommanded.
  destruct (decide (unicast a)) as [Hu|Hu]; unfold unicast in Hu;
    destruct (Z.ltb_spec 0 a), (Z.ltb_spec a 248), (Z.eqb_spec a 255); simpl;
    try reflexivity; lia.
Qed.

Lemma functionArguments_spec `{CodecLaws} (params : list (scalar * Z)) :
  exists data, forall b, _functionArguments params b = (Ok tt, wrote data b).
Proof.
  induction params as [|[T v] r [data IH]].
  - exists []. intros b. simpl. rewrite wrote_nil. reflexivity.
  - exists (wire_bytes T v ++ data). intros b. simpl. unfold bind.
    rewrite write_spec, IH, wrote_app. reflexivity.
Qed.

(** The word [ILC::writeWaitForRx(t)] pushes. *)
Lemma ILC_writeWaitForRx_spec (t : Z) (b : ModbusBuffer) :
  ILCImpl.writeWaitForRx t b =
  (Ok tt, set_buffer (_buffer b ++
            [u16 (if t >? 0x0FFF
                  then Z.lor (Z.land 0x0FFF (t / 1000 + 1)) FIFO.TX_WAIT_LONG_RX
                  else Z.lor t FIFO.TX_WAIT_RX)]) b).
Proof. reflexivity. Qed.

(** What [callFunction] of an [ILC] leaves behind: the payload and CRC words,
    the frame end, the wait word, and the ledger entry for unicast addresses. *)
Lemma ILC_callFunction_spec (a f t : Z) (params : list (scalar * Z)) (b : ModbusBuffer) :
  exists data,
    callFunction (codec := ILCCodec) (hooks := ILCHooks) a f t params b =
    (Ok tt,
     mkModbusBuffer
       ((_buffer b ++ map (fun d => u16 (encode (codec := ILCCodec) d)) data)
        ++ [u16 FIFO.TX_FRAMEEND;
            u16 (if t >? 0x0FFF
                 then Z.lor (Z.land 0x0FFF (t / 1000 + 1)) FIFO.TX_WAIT_LONG_RX
                 else Z.lor t FIFO.TX_WAIT_RX)])
       (_index b)
       CRC.reset
       (if decide (unicast a) then _commanded b ++ [(a, f)] else _commanded b)
       (_recordChanges b)
       (if _recordChanges b then _records b ++ data else _records b)).
Proof.
  destruct (functionArguments_spec (codec := ILCCodec) params) as [args Hargs].
  set (payload := to_mem 1 a ++ to_mem 1 f ++ args).
  exists (payload ++ [Z.land (fold_left CRC.add payload (_crc b)) 0xFF;
                      Z.land (Z.shiftr (fold_left CRC.add payload (_crc b)) 8) 0xFF]).
  unfold callFunction, bind.
  unfold write_uint8. rewrite !writeBuffer_spec, Hargs, writeCRC_spec.
  rewrite !wrote_app, crc_wrote. fold payload.
  cbn [writeEndOfFrame writeWaitForRx ILCHooks].
  unfold ILCImpl.writeEndOfFrame, MB.pushBuffer, modify.
  rewrite ILC_writeWaitForRx_spec, pushCommanded_spec.
  destruct b as [buf idx crc cmd rec recs].
  destruct (decide (unicast a)); unfold wrote, set_buffer, set_crc, set_commanded;
    cbn [_buffer _index _crc _commanded _recordChanges _records];
    subst payload; rewrite <- ?app_assoc; cbn [app]; reflexivity.
Qed.

(** C1 (as the code has it). [pushCommanded(a, f)], and therefore
    [callFunction(a, f, ...)], appends [(a, f)] to the ledger exactly when
    [1 <= a <= 247] or [a = 255], and leaves the ledger alone for every other
    address, that is for 0 and for 248..254. *)
Theorem pushCommanded_enqueues_unicast (a f : Z) (b : ModbusBuffer) :
  pushCommanded a f b =
    (Ok tt, if decide (unicast a) then set_commanded (_commanded b ++ [(a, f)]) b else b)
  /\ forall t params, exists b',
       callFunction (codec := ILCCodec) (hooks := ILCHooks) a f t params b = (Ok tt, b') /\
       _commanded b' = if decide (unicast a) then _commanded b ++ [(a, f)] else _commanded b.
Proof.
  split; [apply pushCommanded_spec|].
  intros t params.
  destruct (ILC_callFunction_spec a f t params b) as [data Hcall].
  eexists. split; [exact Hcall|]. reflexivity.
Qed.

(** C1 as stated fails: 148 is one of the broadcast addresses the specification
    lists, and a request to it is put on the ledger. *)
Lemma pushCommanded_enqueues_148 :
  listed_broadcast 148 /\
  pushCommanded 148 18 (MB.clear false (mkModbusBuffer [] 0 0 [] false []))
  = (Ok tt, mkModbusBuffer [] 0 CRC.reset [(148, 18)] false []).
Proof. split; [unfold listed_broadcast; auto | reflexivity]. Qed.

(** The other listed broadcast addresses: 149 is enqueued as well, 0 and 250 are not. *)
Example pushCommanded_listed_broadcasts :
  let b := MB.clear false (mkModbusBuffer [] 0 0 [] false []) in
  _commanded (snd (pushCommanded 149 18 b)) = [(149, 18)] /\
  _commanded (snd (pushCommanded 0 18 b)) = [] /\
  _commanded (snd (pushCommanded 250 18 b)) = [].
Proof. repeat split; reflexivity. Qed.

(** ** Mode change timeout *)

(** The pair "Standby and FirmwareUpdate, in either direction" for the mode
    last recorded for [a] and the requested mode [m]. *)
Lemma changeILCMode_timeout (a m : Z) (i : ILC) :
  changeILCMode a m i =
  liftI (callFunction (codec := ILCCodec) (hooks := ILCHooks) a 65
           (if decide ((_lastMode i !! a = Some ILCMode.Standby /\ m = ILCMode.FirmwareUpdate)
                       \/ (_lastMode i !! a = Some ILCMode.FirmwareUpdate
                           /\ m = ILCMode.Standby))
            then 100000 else 335)
           [(U16, m)]) i.
Proof.
  unfold changeILCMode, bind, catch_out_of_range, getLastMode.
  unfold ILCMode.Standby, ILCMode.FirmwareUpdate.
  destruct (_lastMode i !! a) as [lm|] eqn:Hlm.
  - repeat (cbv beta iota; cbn [andb]; unfold ret at 1; rewrite ?Hlm;
            match goal with
            | |- context [Z.eqb ?x ?y] => destruct (Z.eqb_spec x y)
            end);
      cbv beta iota; cbn [andb]; unfold ret;
      first [ rewrite decide_True by (subst; auto)
            | rewrite decide_False by (intros [[Hx ?]|[Hx ?]]; injection Hx; lia) ];
      reflexivity.
  - rewrite decide_False by (intros [[? ?]|[? ?]]; congruence). reflexivity.
Qed.

(** C6. [changeILCMode(a, m)] always succeeds and the last word it appends is
    the wait-for-Rx word: of class TX_WAIT_LONG_RX with 101 in the low twelve
    bits (100000 us) exactly when the mode last recorded for [a] and [m] are
    Standby and FirmwareUpdate in either order, and otherwise, also when no
    mode was recorded for [a], TX_WAIT_RX with 335. *)
Theorem changeILCMode_wait_word (a m : Z) (i : ILC) :
  exists i' w,
    changeILCMode a m i = (Ok tt, i') /\
    last (_buffer (base i')) = Some w /\
    if decide ((_lastMode i !! a = Some ILCMode.Standby /\ m = ILCMode.FirmwareUpdate)
               \/ (_lastMode i !! a = Some ILCMode.FirmwareUpdate /\ m = ILCMode.Standby))
    then Z.land w 0xF000 = FIFO.TX_WAIT_LONG_RX /\ Z.land w 0x0FFF = 101
    else Z.land w 0xF000 = FIFO.TX_WAIT_RX /\ Z.land w 0x0FFF = 335.
Proof.
  rewrite changeILCMode_timeout.
  set (cond := decide _).
  destruct (ILC_callFunction_spec a 65 (if cond then 100000 else 335) [(U16, m)] (base i))
    as [data Hcall].
  unfold liftI, lift. rewrite Hcall.
  eexists _, _. split; [reflexivity|].
  cbn [base with_base _buffer].
  split.
  - rewrite last_app. reflexivity.
  - destruct cond; vm_compute; auto.
Qed.

(** ** Delay and wait words *)

Lemma duration_word_fields (cls k : Z) :
  cls = FIFO.DELAY \/ cls = FIFO.LONG_DELAY \/ cls = FIFO.TX_WAIT_RX
  \/ cls = FIFO.TX_WAIT_LONG_RX ->
  0 <= k < 4096 ->
  Z.land (u16 (Z.lor k cls)) 0xF000 = cls /\ Z.land 0x0FFF (u16 (Z.lor k cls)) = k.
Proof.
  intros Hcls Hk.
  assert (Hall : forall c,
             forallb (fun k => (Z.land (u16 (Z.lor k c)) 0xF000 =? c)
                               && (Z.land 0x0FFF (u16 (Z.lor k c)) =? k))
                     (map Z.of_nat (seq 0 4096)) = true ->
             Z.land (u16 (Z.lor k c)) 0xF000 = c /\ Z.land 0x0FFF (u16 (Z.lor k c)) = k).
  { intros c Hc.
    pose proof (forall_below 4096 _ Hc k Hk) as Hb. cbv beta in Hb.
    apply andb_true_iff in Hb. destruct Hb as [H1 H2].
    split; apply Z.eqb_eq; assumption. }
  destruct Hcls as [-> | [-> | [-> | ->]]]; apply Hall; vm_compute; reflexivity.
Qed.

Lemma land_4095 (x : Z) : Z.land 0x0FFF x = x mod 4096.
Proof.
  rewrite Z.land_comm. change 0x0FFF with (Z.ones 12).
  rewrite Z.land_ones by lia. reflexivity.
Qed.

(** The word written for [t] microseconds and the duration read back from it,
    for the short class [cs] and the long class [cl]. *)
Lemma duration_word_read (cs cl t : Z) :
  (cs = FIFO.DELAY /\ cl = FIFO.LONG_DELAY) \/ (cs = FIFO.TX_WAIT_RX /\ cl = FIFO.TX_WAIT_LONG_RX) ->
  0 <= t < 4294967296 ->
  let w := u16 (if t >? 0x0FFF then Z.lor (Z.land 0x0FFF (t / 1000 + 1)) cl else Z.lor t cs) in
  if t <=? 0x0FFF
  then Z.land w 0xF000 = cs /\ Z.land 0x0FFF w = t
  else Z.land w 0xF000 = cl /\ u32 (Z.land 0x0FFF w * 1000) = long_duration t.
Proof.
  intros Hcls Ht w. subst w.
  destruct (Z.leb_spec t 0x0FFF) as [Hs|Hl].
  - rewrite Z.gtb_ltb. destruct (Z.ltb_spec 0x0FFF t) as [Hlt|_]; [lia|].
    apply duration_word_fields; [|lia].
    destruct Hcls as [[-> _]|[-> _]]; auto.
  - rewrite Z.gtb_ltb. destruct (Z.ltb_spec 0x0FFF t) as [_|Hge]; [|lia].
    rewrite land_4095.
    assert (Hk : 0 <= (t / 1000 + 1) mod 4096 < 4096) by (apply Z.mod_pos_bound; lia).
    destruct (duration_word_fields cl _ ltac:(destruct Hcls as [[_ ->]|[_ ->]]; auto) Hk)
      as [H1 H2].
    split; [exact H1|]. rewrite H2. unfold long_duration, u32.
    apply Z.mod_small. lia.
Qed.

Lemma lookup_pushed (b : ModbusBuffer) (w : Z) :
  _index b = length (_buffer b) -> (_buffer b ++ [w]) !! _index b = Some w.
Proof. intros Hi. apply list_lookup_middle. exact Hi. Qed.

Ltac duration_cases Hw :=
  match type of Hw with
  | if (?t <=? ?k) then _ else _ =>
      destruct (t <=? k); destruct Hw as [Hc Hv]; rewrite Hc, ?Hv; reflexivity
  end.

Lemma writeDelay_readDelay (t : Z) (b : ModbusBuffer) :
  0 <= t < 4294967296 -> _index b = length (_buffer b) ->
  exists b', (writeDelay t ;;; readDelay) b
             = (Ok (if t <=? 0x0FFF then t else long_duration t), b').
Proof.
  intros Ht Hi.
  pose proof (duration_word_read FIFO.DELAY FIFO.LONG_DELAY t
                ltac:(left; auto) Ht) as Hw. cbv zeta in Hw.
  unfold writeDelay, readDelay, MB.pushBuffer, MB.getCurrentBuffer, MB.incIndex,
    bind, modify.
  cbn [set_buffer _buffer _index]. rewrite (lookup_pushed b _ Hi).
  eexists. duration_cases Hw.
Qed.

Lemma writeWaitForRx_readWaitForRx (t : Z) (b : ModbusBuffer) :
  0 <= t < 4294967296 -> _index b = length (_buffer b) ->
  exists b', (ILCImpl.writeWaitForRx t ;;; ILCImpl.readWaitForRx) b
             = (Ok (if t <=? 0x0FFF then t else long_duration t), b').
Proof.
  intros Ht Hi.
  pose proof (duration_word_read FIFO.TX_WAIT_RX FIFO.TX_WAIT_LONG_RX t
                ltac:(right; auto) Ht) as Hw. cbv zeta in Hw.
  unfold ILCImpl.writeWaitForRx, ILCImpl.readWaitForRx, MB.pushBuffer,
    MB.getCurrentBuffer, MB.incIndex, bind, modify.
  cbn [set_buffer _buffer _index]. rewrite (lookup_pushed b _ Hi).
  eexists. duration_cases Hw.
Qed.

(** C9 (as the code has it). With the cursor on the word about to be written,
    [writeDelay(t); readDelay()] and [writeWaitForRx(t); readWaitForRx()]
    return [t] for [t <= 0x0FFF]; for larger [t] they return
    [(((t / 1000) + 1) mod 4096) * 1000], which is never [t] and which is
    [((t / 1000) + 1) * 1000] as long as [t < 4095000]. *)
Theorem duration_roundtrip (t : Z) (b : ModbusBuffer) :
  0 <= t < 4294967296 -> _index b = length (_buffer b) ->
  let r := if t <=? 0x0FFF then t else long_duration t in
  (exists b', (writeDelay t ;;; readDelay) b = (Ok r, b')) /\
  (exists b', (ILCImpl.writeWaitForRx t ;;; ILCImpl.readWaitForRx) b = (Ok r, b')) /\
  (0x0FFF < t -> r <> t) /\
  (0x0FFF < t < 4095000 -> r = (t / 1000 + 1) * 1000).
Proof.
  intros Ht Hi r.
  split; [apply writeDelay_readDelay; assumption|].
  split; [apply writeWaitForRx_readWaitForRx; assumption|].
  subst r. unfold long_duration.
  split; intros Hl.
  - destruct (Z.leb_spec t 0x0FFF); [lia|].
    Z.to_euclidean_division_equations. lia.
  - destruct (Z.leb_spec t 0x0FFF); [lia|].
    rewrite Z.mod_small; [reflexivity|].
    Z.to_euclidean_division_equations. lia.
Qed.

Lemma duration_roundtrip_witness :
  let b := MB.clear false (mkModbusBuffer [] 0 0 [] false []) in
  (exists b', (writeDelay 36500 ;;; readDelay) b = (Ok 37000, b')) /\
  (exists b', (ILCImpl.writeWaitForRx 36500 ;;; ILCImpl.readWaitForRx) b = (Ok 37000, b')).
Proof.
  intros b.
  destruct (duration_roundtrip 36500 b ltac:(lia) eq_refl) as (H1 & H2 & _).
  split; [exact H1 | exact H2].
Defined.

(** C9 as stated fails for long durations: 4095000 us is written as a
    LONG_DELAY word whose twelve value bits are all zero, and read back as 0
    instead of 4096000. *)
Lemma duration_wraps_at_4095000 :
  let b := MB.clear false (mkModbusBuffer [] 0 0 [] false []) in
  4095000 > 0x0FFF /\
  (4095000 / 1000 + 1) * 1000 = 4096000 /\
  fst ((writeDelay 4095000 ;;; readDelay) b) = Ok 0 /\
  fst ((ILCImpl.writeWaitForRx 4095000 ;;; ILCImpl.readWaitForRx) b) = Ok 0.
Proof. vm_compute. repeat split; reflexivity. Qed.

(** ** getReadData *)

Lemma getReadData_loop_stuck `{CodecLaws} (fuel : nat) :
  forall (b : ModbusBuffer) (i : Z) (data : list Z),
    0 <= i < Z.of_nat (_index b) ->
    Z.of_nat (length (_buffer b)) < 18446744073709551616 ->
    (forall r b', getReadData_loop fuel i data b <> (Ok r, b')) /\
    ((length (_buffer b) - _index b < fuel)%nat ->
     exists b', getReadData_loop fuel i data b = (Throw EndOfBuffer, b')).
Proof.
  induction fuel as [|fuel IH]; intros b i data Hi Hlen.
  - simpl. destruct (Z.ltb_spec i (Z.of_nat (_index b))); [|lia].
    split; [intros r b'; discriminate | lia].
  - simpl. destruct (Z.ltb_spec i (Z.of_nat (_index b))); [|lia].
    unfold bind. rewrite readInstructionByte_spec.
    destruct (_buffer b !! _index b) as [w|] eqn:Hw.
    + pose proof (lookup_lt_Some _ _ _ Hw) as Hlt.
      replace (u64 (i + 1)) with (i + 1)
        by (unfold u64; rewrite Z.mod_small; lia).
      destruct (IH (set_index (S (_index b)) b) (i + 1) (data ++ [decode w])) as [Hn Ht].
      * simpl. lia.
      * exact Hlen.
      * split; [exact Hn|]. intros Hf. apply Ht. simpl. lia.
    + split; [intros r b'; discriminate|]. intros _. eexists. reflexivity.
Qed.

(** C10. When [1 <= length <= _index], [getReadData(length)] never returns a
    vector: the loop bound moves with the cursor, so the loop only ends when
    [readInstructionByte] throws [EndOfBuffer], which it does after at most
    "buffer size minus cursor" turns; [getReadData(0)] returns the empty
    vector at once. *)
Theorem getReadData_never_returns `{CodecLaws} (b : ModbusBuffer) (len : Z) (fuel : nat) :
  1 <= len <= Z.of_nat (_index b) ->
  Z.of_nat (_index b) < 18446744073709551616 ->
  Z.of_nat (length (_buffer b)) < 18446744073709551616 ->
  (forall r b', getReadData fuel len b <> (Ok r, b')) /\
  ((length (_buffer b) - _index b < fuel)%nat ->
   exists b', getReadData fuel len b = (Throw EndOfBuffer, b')) /\
  getReadData fuel 0 b = (Ok [], b).
Proof.
  intros Hlen Hidx Hbuf.
  assert (Hi : u64 (Z.of_nat (_index b) - len) = Z.of_nat (_index b) - len)
    by (unfold u64; apply Z.mod_small; lia).
  unfold getReadData. rewrite Hi.
  destruct (getReadData_loop_stuck fuel b (Z.of_nat (_index b) - len) [])
    as [Hn Ht]; [lia | exact Hbuf |].
  split; [exact Hn|]. split; [exact Ht|].
  rewrite Z.sub_0_r. unfold u64. rewrite Z.mod_small by lia.
  destruct fuel; simpl; rewrite Z.ltb_irrefl; reflexivity.
Qed.

Lemma getReadData_never_returns_witness :
  let b := mkModbusBuffer [0x1222; 0x1224; 0x1226] 2 CRC.reset [] false [] in
  1 <= 2 <= Z.of_nat (_index b) /\
  (forall r b', getReadData (codec := ILCCodec) 5 2 b <> (Ok r, b')) /\
  (exists b', getReadData (codec := ILCCodec) 5 2 b = (Throw EndOfBuffer, b')).
Proof.
  intros b.
  assert (H1 : 1 <= 2 <= Z.of_nat (_index b)) by (simpl; lia).
  destruct (getReadData_never_returns (codec := ILCCodec) b 2 5 H1
              ltac:(simpl; lia) ltac:(simpl; lia))
    as (Hn & Ht & _).
  split; [exact H1|]. split; [exact Hn|]. apply Ht. simpl. lia.
Defined.

(** ** Stepping through a method *)

Lemma bind_ok {St A B} (m : M St A) (k : A -> M St B) (s s' : St) (a : A) :
  m s = (Ok a, s') -> bind m k s = k a s'.
Proof. intros Hm. unfold bind. rewrite Hm. reflexivity. Qed.

Lemma liftI_ok {A} (m : M ModbusBuffer A) (i : ILC) (a : A) (b' : ModbusBuffer) :
  m (base i) = (Ok a, b') -> liftI m i = (Ok a, with_base b' i).
Proof. intros Hm. unfold liftI, lift. rewrite Hm. reflexivity. Qed.

Lemma read_uint8_word `{CodecLaws} (w : Z) (b : ModbusBuffer) :
  _buffer b !! _index b = Some w ->
  read_uint8 b = (Ok (decode w), consumed [decode w] b).
Proof. intros Hw. rewrite read_uint8_unfold. apply read_byte_spec. exact Hw. Qed.

Lemma read_uint16_words `{CodecLaws} (w1 w2 : Z) (b : ModbusBuffer) :
  take 2 (drop (_index b) (_buffer b)) = [w1; w2] ->
  read_uint16 b = (Ok (ntohs (of_mem [decode w1; decode w2])),
                   consumed [decode w1; decode w2] b).
Proof.
  intros Hw. unfold read_uint16, bind.
  rewrite (readBuffer_spec 2 b [w1; w2] Hw eq_refl). reflexivity.
Qed.

Lemma checkCRC_words `{CodecLaws} (w1 w2 : Z) (b : ModbusBuffer) :
  take 2 (drop (_index b) (_buffer b)) = [w1; w2] ->
  is_u16 (_crc b) ->
  of_mem [decode w1; decode w2] = _crc b ->
  checkCRC b = (Ok tt, set_crc CRC.reset
                         (consumed [decode w1; decode w2] (set_recordChanges false b))).
Proof.
  intros Hws Hu Hcrc.
  unfold checkCRC, bind, MB.getCalcCrc, MB.pauseRecordChanges, modify.
  rewrite (readBuffer_spec 2 (set_recordChanges false b) [w1; w2] Hws eq_refl).
  cbn [map]. unfold le32toh, CRC.get. rewrite Hcrc, (u16_small _ Hu), Z.eqb_refl.
  reflexivity.
Qed.

(** ** The change cache *)

Lemma cached_snapshot_unfold (i : ILC) (a f : Z) :
  cached_snapshot i a f = default [] (default ∅ (_cachedResponse i !! a) !! f).
Proof.
  unfold cached_snapshot.
  destruct (_cachedResponse i !! a); cbn; [reflexivity|].
  rewrite lookup_empty. reflexivity.
Qed.

Lemma checkRecording_at_spec (a f : Z) (i : ILC) :
  checkRecording_at a f i =
  (Ok (bool_decide (_records (base i) = cached_snapshot i a f)),
   set_cachedResponse
     (<[a := <[f := _records (base i)]> (default ∅ (_cachedResponse i !! a))]>
        (_cachedResponse i))
     (with_base (set_records [] (set_recordChanges false (base i))) i)).
Proof.
  rewrite cached_snapshot_unfold.
  unfold checkRecording_at. rewrite checkRecording_spec.
  set (c := default [] (default ∅ (_cachedResponse i !! a) !! f)).
  destruct (decide (_records (base i) = c)) as [E|E].
  - rewrite bool_decide_eq_true_2 by assumption. rewrite <- E. reflexivity.
  - rewrite bool_decide_eq_false_2 by assumption. reflexivity.
Qed.

Lemma responseMatchCached_spec (a f : Z) (i : ILC) :
  exists i',
    responseMatchCached a f i =
      (Ok (bool_decide (_records (base i) = cached_snapshot i a f)
           && negb (_alwaysTrigger i)), i') /\
    base i' = set_records [] (set_recordChanges false (base i)) /\
    cached_snapshot i' a f = _records (base i) /\
    _alwaysTrigger i' = _alwaysTrigger i /\
    _lastMode i' = _lastMode i /\
    calls i' = calls i.
Proof.
  unfold responseMatchCached, catch_out_of_range, cachedResponse_at, bind.
  destruct (_cachedResponse i !! a) as [fc|] eqn:Hc.
  - rewrite checkRecording_at_spec. cbn [get_state ret].
    eexists. split; [reflexivity|].
    unfold cached_snapshot. cbn [base with_base set_cachedResponse _cachedResponse
                                 _alwaysTrigger _lastMode calls].
    rewrite lookup_insert_eq. cbn [mbind option_bind]. rewrite lookup_insert_eq.
    repeat split; reflexivity.
  - unfold modify. cbn [ret].
    rewrite checkRecording_at_spec. cbn [get_state ret].
    eexists. split.
    + unfold cached_snapshot, emplace.
      cbn [set_cachedResponse _cachedResponse base _alwaysTrigger].
      rewrite Hc, lookup_insert_eq. cbn [mbind option_bind default].
      rewrite lookup_singleton_eq. reflexivity.
    + unfold cached_snapshot. cbn [base with_base set_cachedResponse _cachedResponse
                                   _alwaysTrigger _lastMode calls].
      rewrite lookup_insert_eq. cbn [mbind option_bind]. rewrite lookup_insert_eq.
      repeat split; reflexivity.
Qed.

(** ** Function 18 responses and change gating *)

#[local] Opaque CRC.add.

Lemma lift_ok {A} (m : M ModbusBuffer A) (i : ILC) (a : A) (b' : ModbusBuffer) :
  m (base i) = (Ok a, b') -> lift base with_base m i = (Ok a, with_base b' i).
Proof. intros Hm. unfold lift. rewrite Hm. reflexivity. Qed.



Lemma status_fields (status : Z) :
  is_u16 status -> ntohs (of_mem (wire_bytes U16 status)) = status.
Proof.
  intros Hs. unfold wire_bytes, ntohs, htons.
  apply (bswap_roundtrip 2). unfold is_u16 in Hs. simpl. lia.
Qed.


Lemma checkCommanded_front (a f : Z) (rest : list (Z * Z)) (b : ModbusBuffer) :
  _commanded b = (a, f) :: rest -> checkCommanded a f b = (Ok tt, set_commanded rest b).
Proof.
  intros Hc. unfold checkCommanded. rewrite Hc. cbn [fst snd].
  rewrite !Z.eqb_refl. reflexivity.
Qed.

Ltac norm_state :=
  cbv [with_base set_buffer set_crc set_index set_commanded set_recordChanges
       set_records set_lastMode set_calls set_cachedResponse consumed];
  cbn [base _buffer _index _crc _commanded _recordChanges _records
       _bus _broadcastCounter _alwaysTrigger _lastMode _cachedResponse calls
       length Nat.add app fold_left map].

Ltac step tac := erewrite bind_ok; [|tac]; norm_state.


Lemma CRC_of_bytes_fold (data : list Z) :
  CRC.of_bytes data = fold_left CRC.add data CRC.reset.
Proof. reflexivity. Qed.






(** * Further properties of the code *)

(** ** CRC residue *)

Lemma crc16_ref_bit_even (z : Z) : crc16_ref_bit (2 * z) = z.
Proof.
  unfold crc16_ref_bit. cbv zeta.
  rewrite Z.testbit_even_0, Z.shiftr_div_pow2 by lia.
  change (2 ^ 1) with 2. rewrite Z.mul_comm, Z.div_mul by lia. reflexivity.
Qed.

Lemma crc16_ref_bits_shift (k : nat) (y : Z) :
  Nat.iter k crc16_ref_bit (2 ^ Z.of_nat k * y) = y.
Proof.
  revert y. induction k as [|k IH]; intros y.
  - simpl. destruct y; reflexivity.
  - rewrite Nat2Z.inj_succ, Z.pow_succ_r by lia.
    rewrite Nat.iter_succ_r.
    rewrite <- Z.mul_assoc, crc16_ref_bit_even. apply IH.
Qed.

Lemma clear_low_byte (c : Z) : Z.lxor c (Z.land c 0xFF) = 256 * (c / 256).
Proof.
  change 0xFF with (Z.ones 8).
  replace (256 * (c / 256)) with (Z.shiftl (Z.shiftr c 8) 8)
    by (rewrite Z.shiftl_mul_pow2, Z.shiftr_div_pow2 by lia;
        change (2 ^ 8) with 256; lia).
  apply Z.bits_inj'. intros n Hn.
  rewrite Z.lxor_spec, Z.land_spec.
  destruct (Z.ltb_spec n 8) as [Hlt|Hge].
  - rewrite Z.ones_spec_low, Z.shiftl_spec_low by lia.
    destruct (Z.testbit c n); reflexivity.
  - rewrite Z.ones_spec_high, Z.shiftl_spec, Z.shiftr_spec by lia.
    replace (n - 8 + 8) with n by lia.
    destruct (Z.testbit c n); reflexivity.
Qed.

Lemma crc_residue_word (c : Z) :
  is_u16 c -> CRC.add (CRC.add c (Z.land c 0xFF)) (Z.land (Z.shiftr c 8) 0xFF) = 0.
Proof.
  intros Hc.
  assert (Hhi : Z.land (Z.shiftr c 8) 0xFF = c / 256).
  { rewrite land_255, Z.shiftr_div_pow2 by lia. change (2 ^ 8) with 256.
    unfold is_u16 in Hc. apply Z.mod_small.
    split; [apply Z.div_pos; lia | apply Z.div_lt_upper_bound; lia]. }
  assert (Hh8 : is_u8 (c / 256)) by (rewrite <- Hhi; apply crc_high_byte).
  destruct (crc_add_ref c (Z.land c 0xFF) Hc (crc_low_byte c)) as [E1 _].
  rewrite E1, Hhi. unfold crc16_ref_byte at 1.
  rewrite clear_low_byte.
  change 256 with (2 ^ Z.of_nat 8). rewrite crc16_ref_bits_shift.
  destruct (crc_add_ref (c / 2 ^ Z.of_nat 8) (c / 2 ^ Z.of_nat 8)) as [E2 _];
    [apply is_u8_u16; exact Hh8 | exact Hh8 |].
  rewrite E2. unfold crc16_ref_byte. rewrite Z.lxor_nilpotent. reflexivity.
Qed.

(** X1. Whatever the payload, the CRC accumulated over the payload followed by
    the two CRC bytes [writeCRC] appends (low byte first) is 0: a receiver that
    feeds a whole frame to [CRC::add] ends with an all-zero register. *)
Theorem crc_of_frame_is_zero (payload : list Z) :
  CRC.of_bytes (frame_bytes payload) = 0.
Proof.
  unfold frame_bytes. rewrite !CRC_of_bytes_fold, fold_left_app.
  cbn [fold_left]. apply crc_residue_word.
  apply crc_fold_u16. unfold is_u16, CRC.reset. lia.
Qed.

(** ** Broadcast counter *)

Lemma nextBroadcastCounter_spec (i : ILC) :
  0 <= _broadcastCounter i <= 15 ->
  nextBroadcastCounter i =
  (Ok ((_broadcastCounter i + 1) mod 16),
   set_broadcastCounter ((_broadcastCounter i + 1) mod 16) i).
Proof.
  intros Hc. unfold nextBroadcastCounter, u8.
  rewrite (Z.mod_small (_broadcastCounter i + 1) 256) by lia.
  rewrite Z.gtb_ltb.
  destruct (Z.ltb_spec 15 (_broadcastCounter i + 1)) as [Hw|Hw].
  - replace (_broadcastCounter i + 1) with 16 by lia. reflexivity.
  - rewrite Z.mod_small by lia. reflexivity.
Qed.

(** X2. Starting from a counter between 0 and 15 (the constructor sets 0),
    [n] calls of [nextBroadcastCounter] return c+1, c+2, ..., c+n modulo 16 and
    leave the counter at (c+n) mod 16: the values stay in 0..15 and repeat with
    period 16. *)
Theorem broadcast_counter_wraps (n : nat) (i : ILC) :
  0 <= _broadcastCounter i <= 15 ->
  exists i',
    broadcast_counters n i = (Ok (map (fun k => (_broadcastCounter i + Z.of_nat k) mod 16)
                                      (seq 1 n)), i') /\
    _broadcastCounter i' = (_broadcastCounter i + Z.of_nat n) mod 16.
Proof.
  revert i.
  induction n as [|n IH]; intros i Hc.
  - exists i. split; [reflexivity|].
    rewrite Z.add_0_r, Z.mod_small by lia. reflexivity.
  - cbn [broadcast_counters]. unfold bind at 1.
    rewrite (nextBroadcastCounter_spec i Hc).
    set (i1 := set_broadcastCounter _ i).
    assert (Hc1 : 0 <= _broadcastCounter i1 <= 15).
    { subst i1. cbn [set_broadcastCounter _broadcastCounter].
      pose proof (Z.mod_pos_bound (_broadcastCounter i + 1) 16). lia. }
    destruct (IH i1 Hc1) as (i' & Hrun & Hfin).
    exists i'. unfold bind. rewrite Hrun. unfold ret.
    assert (Hshift : forall k, (_broadcastCounter i1 + Z.of_nat k) mod 16
                               = (_broadcastCounter i + Z.of_nat (S k)) mod 16).
    { intros k. subst i1. cbn [set_broadcastCounter _broadcastCounter].
      rewrite Zplus_mod_idemp_l. f_equal. lia. }
    split.
    + do 2 f_equal. cbn [seq map]. f_equal.
      rewrite <- (seq_shift n 1), map_map.
      apply map_ext. intros k. apply Hshift.
    + rewrite Hfin. apply Hshift.
Qed.

Lemma broadcast_counter_wraps_witness :
  0 <= _broadcastCounter (ILC_new 1) <= 15 /\
  exists i',
    broadcast_counters 17 (ILC_new 1)
    = (Ok [1; 2; 3; 4; 5; 6; 7; 8; 9; 10; 11; 12; 13; 14; 15; 0; 1], i') /\
    _broadcastCounter i' = 1.
Proof.
  assert (Hc : 0 <= _broadcastCounter (ILC_new 1) <= 15) by (simpl; lia).
  split; [exact Hc|].
  exact (broadcast_counter_wraps 17 (ILC_new 1) Hc).
Defined.

(** ** The ledger is a queue *)

Lemma push_all_spec (ps : list (Z * Z)) :
  Forall (fun p => unicast (fst p)) ps ->
  forall b, push_all ps b = (Ok tt, set_commanded (_commanded b ++ ps) b).
Proof.
  induction 1 as [|[a f] r Ha _ IH]; intros b.
  - cbn [push_all]. rewrite app_nil_r. destruct b; reflexivity.
  - cbn [push_all fst] in *. unfold bind. rewrite pushCommanded_spec.
    rewrite decide_True by exact Ha. rewrite IH.
    cbn [set_commanded _commanded]. rewrite <- app_assoc. reflexivity.
Qed.

Lemma check_all_spec (ps : list (Z * Z)) :
  forall b rest, _commanded b = ps ++ rest ->
                 check_all ps b = (Ok tt, set_commanded rest b).
Proof.
  induction ps as [|[a f] r IH]; intros b rest Hb.
  - cbn [check_all]. simpl in Hb. rewrite <- Hb. destruct b; reflexivity.
  - cbn [check_all]. unfold bind.
    rewrite (checkCommanded_front a f (r ++ rest) b Hb).
    rewrite (IH _ rest) by reflexivity. reflexivity.
Qed.

(** X3. Requests to unicast addresses are answered first in, first out: after
    [pushCommanded] for each pair of a list, [checkCommanded] for the same
    pairs in the same order succeeds every time and leaves on the ledger
    exactly what was there before, in front. *)
Theorem ledger_first_in_first_out (ps : list (Z * Z)) (b : ModbusBuffer) :
  Forall (fun p => unicast (fst p)) ps ->
  _commanded b = [] ->
  (push_all ps ;;; check_all ps) b = (Ok tt, b).
Proof.
  intros Hps Hb. unfold bind. rewrite (push_all_spec ps Hps).
  rewrite (check_all_spec ps _ []).
  - destruct b as [buf idx crc cmd rec recs]. simpl in Hb. subst cmd. reflexivity.
  - cbn [set_commanded _commanded]. rewrite Hb, app_nil_r. reflexivity.
Qed.

Lemma ledger_first_in_first_out_witness :
  let b := MB.clear false (mkModbusBuffer [] 0 0 [] false []) in
  Forall (fun p => unicast (fst p)) [(8, 18); (9, 18); (255, 65)] /\
  (push_all [(8, 18); (9, 18); (255, 65)] ;;; check_all [(8, 18); (9, 18); (255, 65)]) b
  = (Ok tt, b).
Proof.
  intros b.
  assert (Hps : Forall (fun p => unicast (fst p)) [(8, 18); (9, 18); (255, 65)])
    by (repeat (apply Forall_cons_2; [unfold unicast; simpl; lia|]); apply Forall_nil_2).
  split; [exact Hps|].
  apply (ledger_first_in_first_out [(8, 18); (9, 18); (255, 65)] b Hps). reflexivity.
Defined.

Lemma checkCommanded_other (a f : Z) (front : Z * Z) (rest : list (Z * Z))
    (b : ModbusBuffer) :
  _commanded b = front :: rest -> front <> (a, f) ->
  checkCommanded a f b
  = (Throw (UnmatchedFunction a f (Some front)), set_commanded rest b).
Proof.
  intros Hc Hne. unfold checkCommanded. rewrite Hc. destruct front as [x y].
  cbn [fst snd].
  destruct (Z.eqb_spec x a) as [->|Hx]; [|reflexivity].
  destruct (Z.eqb_spec y f) as [->|Hy]; [congruence | reflexivity].
Qed.

(** X4. [checkCommandedEmpty] succeeds exactly when no request is pending. When
    it throws it has emptied the ledger: calling it again succeeds, and every
    response that arrives afterwards is refused with [UnmatchedFunction] as
    unrequested. *)
Theorem checkCommandedEmpty_drains (b : ModbusBuffer) :
  (fst (checkCommandedEmpty b) = Ok tt <-> _commanded b = []) /\
  (_commanded b <> [] ->
   fst (checkCommandedEmpty b) = Throw RuntimeError /\
   fst (checkCommandedEmpty (snd (checkCommandedEmpty b))) = Ok tt /\
   forall a f, fst (checkCommanded a f (snd (checkCommandedEmpty b)))
               = Throw (UnmatchedFunction a f None)).
Proof.
  unfold checkCommandedEmpty.
  destruct (_commanded b) as [|p r] eqn:Hc; cbn [fst snd].
  - split; [split; congruence | congruence].
  - split; [split; [discriminate | congruence]|].
    intros _. split; [reflexivity|]. split; [reflexivity|].
    intros a f. reflexivity.
Qed.

Lemma checkCommandedEmpty_drains_witness :
  let b := mkModbusBuffer [] 0 CRC.reset [(8, 18); (9, 18)] false [] in
  _commanded b <> [] /\
  fst (checkCommandedEmpty b) = Throw RuntimeError /\
  fst (checkCommandedEmpty (snd (checkCommandedEmpty b))) = Ok tt /\
  forall a f, fst (checkCommanded a f (snd (checkCommandedEmpty b)))
              = Throw (UnmatchedFunction a f None).
Proof.
  intros b.
  assert (Hne : _commanded b <> []) by discriminate.
  split; [exact Hne|].
  exact (proj2 (checkCommandedEmpty_drains b) Hne).
Defined.

(** ** Reading past the end *)

Lemma readBuffer_short `{CodecLaws} (n : nat) :
  forall b,
    (_index b <= length (_buffer b))%nat ->
    (length (_buffer b) < _index b + n)%nat ->
    exists b',
      readBuffer n b = (Throw EndOfBuffer, b') /\
      _index b' = length (_buffer b) /\
      _buffer b' = _buffer b /\
      _commanded b' = _commanded b.
Proof.
  induction n as [|n IH]; intros b Hle Hlt; [lia|].
  cbn [readBuffer]. unfold bind at 1. rewrite readInstructionByte_spec.
  destruct (_buffer b !! _index b) as [w|] eqn:Hw.
  - pose proof (lookup_lt_Some _ _ _ Hw) as Hi.
    unfold bind at 1. unfold MB.processDataCRC at 1, modify.
    match goal with
    | |- context [bind (readBuffer n) _ ?s] =>
        destruct (IH s) as (b' & Hr & Hidx & Hbuf & Hcmd)
    end.
    + destruct (_recordChanges (set_index (S (_index b)) b)); simpl; lia.
    + destruct (_recordChanges (set_index (S (_index b)) b)); simpl; lia.
    + exists b'. unfold bind. rewrite Hr.
      split; [reflexivity|]. rewrite Hidx, Hbuf, Hcmd.
      destruct (_recordChanges (set_index (S (_index b)) b)); repeat split; reflexivity.
  - apply lookup_ge_None in Hw. exists b. repeat split; try reflexivity. lia.
Qed.

(** X5. A typed read that needs more words than are left between the cursor
    and the end of the buffer throws [EndOfBuffer], having moved the cursor to
    the end; the buffer itself and the ledger are untouched. This holds for
    every [read<T>] specialization and for both implementations of the byte
    methods. *)
Theorem read_past_end `{CodecLaws} (T : scalar) (rd : M ModbusBuffer Z) (b : ModbusBuffer) :
  read T = Some rd ->
  (_index b <= length (_buffer b))%nat ->
  (length (_buffer b) < _index b + width T)%nat ->
  exists b',
    rd b = (Throw EndOfBuffer, b') /\
    _index b' = length (_buffer b) /\
    _buffer b' = _buffer b /\
    _commanded b' = _commanded b.
Proof.
  intros Hrd Hle Hlt.
  destruct (readBuffer_short (width T) b Hle Hlt) as (b' & Hr & Hrest).
  exists b'. split; [|exact Hrest].
  destruct T; cbn [read] in Hrd; try discriminate; injection Hrd as <-;
    cbn [width] in Hr;
    unfold read_uint8, read_uint16, read_int32, read_uint32, read_uint64, read_float,
      read_uint32, bind; rewrite Hr; reflexivity.
Qed.

Lemma read_past_end_witness :
  let b := mkModbusBuffer [0x1224; 0x1268; 0x1200] 1 CRC.reset [(8, 18)] false [] in
  exists b',
    read_uint32 (codec := ILCCodec) b = (Throw EndOfBuffer, b') /\
    _index b' = 3%nat /\
    _buffer b' = _buffer b /\
    _commanded b' = _commanded b.
Proof.
  intros b.
  apply (read_past_end (codec := ILCCodec) U32 read_uint32 b eq_refl); simpl; lia.
Defined.

(** ** Six byte identifiers *)

Lemma wire_byte_u8 (w : Z) : is_u8 (wire_byte w).
Proof. unfold wire_byte, is_u8, u8. apply Z.mod_pos_bound. lia. Qed.

Lemma be64toh_low_six (b0 b1 b2 b3 b4 b5 : Z) :
  is_u8 b0 -> is_u8 b1 -> is_u8 b2 -> is_u8 b3 -> is_u8 b4 -> is_u8 b5 ->
  be64toh (of_mem ([0; 0] ++ [b0; b1; b2; b3; b4; b5]))
  = b0 * 2 ^ 40 + b1 * 2 ^ 32 + b2 * 2 ^ 24 + b3 * 2 ^ 16 + b4 * 2 ^ 8 + b5.
Proof.
  intros H0 H1 H2 H3 H4 H5.
  unfold be64toh, bswap.
  change 8%nat with (length ([0; 0] ++ [b0; b1; b2; b3; b4; b5])).
  rewrite to_mem_of_mem
    by (repeat (apply Forall_cons_2; [first [assumption | unfold is_u8; lia]|]);
        apply Forall_nil_2).
  cbn [rev app of_mem]. lia.
Qed.

(** X6. [readU48] takes the next six payload bytes as a big-endian number:
    the first byte read is the most significant, the result is below 2^48, and
    the cursor has moved by six words. *)
Theorem readU48_big_endian (b : ModbusBuffer) (w0 w1 w2 w3 w4 w5 : Z) :
  take 6 (drop (_index b) (_buffer b)) = [w0; w1; w2; w3; w4; w5] ->
  let v := wire_byte w0 * 2 ^ 40 + wire_byte w1 * 2 ^ 32 + wire_byte w2 * 2 ^ 24
           + wire_byte w3 * 2 ^ 16 + wire_byte w4 * 2 ^ 8 + wire_byte w5 in
  exists b',
    readU48 (codec := ILCCodec) b = (Ok v, b') /\
    0 <= v < 2 ^ 48 /\
    _index b' = (_index b + 6)%nat.
Proof.
  intros Hws v.
  unfold readU48, bind.
  rewrite (readBuffer_spec (codec := ILCCodec) 6 b _ Hws eq_refl).
  change (@decode ILCCodec ILCCodecLaws) with wire_byte. cbn [map].
  rewrite be64toh_low_six by apply wire_byte_u8.
  eexists. split; [reflexivity|]. split; [|reflexivity].
  subst v.
  pose proof (wire_byte_u8 w0). pose proof (wire_byte_u8 w1).
  pose proof (wire_byte_u8 w2). pose proof (wire_byte_u8 w3).
  pose proof (wire_byte_u8 w4). pose proof (wire_byte_u8 w5).
  unfold is_u8 in *. lia.
Qed.

Lemma readU48_big_endian_witness :
  let b := mkModbusBuffer [0x1202; 0x1204; 0x1206; 0x1208; 0x120A; 0x120C] 0
                          CRC.reset [] false [] in
  exists b',
    readU48 (codec := ILCCodec) b = (Ok 0x010203040506, b') /\
    0 <= 0x010203040506 < 2 ^ 48 /\
    _index b' = 6%nat.
Proof.
  intros b.
  exact (readU48_big_endian b 0x1202 0x1204 0x1206 0x1208 0x120A 0x120C eq_refl).
Defined.

(** ** Requests read back *)

Lemma functionArguments_bytes `{CodecLaws} (params : list (scalar * Z)) (b : ModbusBuffer) :
  _functionArguments params b = (Ok tt, wrote (params_bytes params) b).
Proof.
  revert b. induction params as [|[T v] r IH]; intros b.
  - cbn [_functionArguments params_bytes flat_map]. rewrite wrote_nil. reflexivity.
  - cbn [_functionArguments params_bytes flat_map fst snd]. unfold bind.
    rewrite write_spec, IH, wrote_app. reflexivity.
Qed.

Lemma params_bytes_u8 (params : list (scalar * Z)) : Forall is_u8 (params_bytes params).
Proof.
  induction params as [|[T v] r IH]; cbn [params_bytes flat_map fst snd].
  - apply Forall_nil_2.
  - apply Forall_app. split; [apply wire_bytes_u8 | exact IH].
Qed.

(** The two CRC bytes of a payload. *)
Lemma frame_bytes_app (payload : list Z) :
  frame_bytes payload
  = payload ++ [Z.land (fold_left CRC.add payload CRC.reset) 0xFF;
                Z.land (Z.shiftr (fold_left CRC.add payload CRC.reset) 8) 0xFF].
Proof. reflexivity. Qed.

(** The state a write of a whole frame leads to. *)
Lemma write_payload_and_crc `{CodecLaws} (payload : list Z) (b : ModbusBuffer) :
  _crc b = CRC.reset ->
  (writeBuffer payload ;;; writeCRC) b
  = (Ok tt, set_crc CRC.reset (wrote (frame_bytes payload) b)).
Proof.
  intros Hcrc. unfold bind. rewrite writeBuffer_spec, writeCRC_spec, wrote_app, crc_wrote.
  rewrite Hcrc. reflexivity.
Qed.

(** Reading a frame that is followed by further words. *)
Lemma read_frame_followed `{CodecLaws} (a f : Z) (args post : list Z) (r0 : ModbusBuffer) :
  is_u8 a -> is_u8 f -> Forall is_u8 args ->
  _buffer r0 = map (fun d => u16 (encode d)) (frame_bytes (a :: f :: args)) ++ post ->
  _index r0 = 0%nat -> _crc r0 = CRC.reset ->
  exists r1,
    read_frame (length args) r0 = (Ok (a, f, args), r1) /\
    _buffer r1 = _buffer r0 /\
    _index r1 = (length args + 4)%nat /\
    _crc r1 = CRC.reset /\
    _commanded r1 = _commanded r0 /\
    _recordChanges r1 = false.
Proof.
  intros Ha Hf Hargs Hr0 Hi0 Hc0.
  rewrite frame_bytes_app in Hr0.
  set (c := fold_left CRC.add (a :: f :: args) CRC.reset) in *.
  assert (Hc : is_u16 c) by (apply crc_fold_u16; unfold is_u16, CRC.reset; lia).
  rewrite map_app in Hr0. cbn [map app] in Hr0. rewrite <- app_assoc in Hr0.
  unfold read_frame, bind.
  rewrite (read_uint8_at a r0 Ha) by (rewrite Hr0, Hi0; reflexivity).
  rewrite (read_uint8_at f (consumed [a] r0) Hf)
    by (cbn [consumed _buffer _index length]; rewrite Hr0, Hi0; reflexivity).
  rewrite consumed_app, read_each_readBuffer.
  rewrite (readBuffer_encoded args)
    by (try assumption; cbn [consumed _buffer _index length app]; rewrite Hr0, Hi0;
        cbn [Nat.add drop];
        apply take_app_length'; rewrite length_map; reflexivity).
  rewrite consumed_app.
  rewrite (checkCRC_spec _ (Z.land c 0xFF) (Z.land (Z.shiftr c 8) 0xFF)).
  - eexists. split; [reflexivity|].
    cbn [set_crc consumed set_recordChanges _buffer _index _crc _commanded
         _recordChanges length app].
    rewrite Hi0. repeat split; try reflexivity.
    rewrite ?length_app. cbn [length Nat.add]. lia.
  - apply crc_low_byte.
  - apply crc_high_byte.
  - cbn [consumed _buffer _index length app set_recordChanges]. rewrite Hr0, Hi0.
    cbn [Nat.add drop].
    rewrite drop_app_length' by (rewrite length_map; reflexivity). reflexivity.
  - rewrite (crc_split c Hc). cbn [consumed _crc app set_recordChanges].
    rewrite Hc0. reflexivity.
Qed.

Lemma readEndOfFrame_word (b : ModbusBuffer) :
  _buffer b !! _index b = Some FIFO.TX_FRAMEEND ->
  ILCImpl.readEndOfFrame b = (Ok tt, set_crc CRC.reset (set_index (S (_index b)) b)).
Proof.
  intros Hw. unfold ILCImpl.readEndOfFrame, bind, MB.getCurrentBuffer.
  rewrite Hw. reflexivity.
Qed.

Lemma readWaitForRx_word (t : Z) (b : ModbusBuffer) :
  0 <= t < 4294967296 ->
  _buffer b !! _index b
  = Some (u16 (if t >? 0x0FFF
               then Z.lor (Z.land 0x0FFF (t / 1000 + 1)) FIFO.TX_WAIT_LONG_RX
               else Z.lor t FIFO.TX_WAIT_RX)) ->
  ILCImpl.readWaitForRx b = (Ok (read_back_duration t), set_index (S (_index b)) b).
Proof.
  intros Ht Hw.
  pose proof (duration_word_read FIFO.TX_WAIT_RX FIFO.TX_WAIT_LONG_RX t
                ltac:(right; auto) Ht) as Hd. cbv zeta in Hd.
  unfold ILCImpl.readWaitForRx, MB.getCurrentBuffer, MB.incIndex, bind, modify,
    read_back_duration.
  rewrite Hw. duration_cases Hd.
Qed.

Lemma readDelay_word (t : Z) (b : ModbusBuffer) :
  0 <= t < 4294967296 ->
  _buffer b !! _index b
  = Some (u16 (if t >? 0x0FFF
               then Z.lor (Z.land 0x0FFF (t / 1000 + 1)) FIFO.LONG_DELAY
               else Z.lor t FIFO.DELAY)) ->
  readDelay b = (Ok (read_back_duration t), set_index (S (_index b)) b).
Proof.
  intros Ht Hw.
  pose proof (duration_word_read FIFO.DELAY FIFO.LONG_DELAY t
                ltac:(left; auto) Ht) as Hd. cbv zeta in Hd.
  unfold readDelay, MB.getCurrentBuffer, MB.incIndex, bind, modify, read_back_duration.
  rewrite Hw. duration_cases Hd.
Qed.

(** What is in the buffer after [callFunction] of an [ILC] on an empty buffer. *)
Lemma ILC_callFunction_frame (a f t : Z) (params : list (scalar * Z)) (b : ModbusBuffer) :
  is_u8 a -> is_u8 f -> _crc b = CRC.reset ->
  callFunction (codec := ILCCodec) (hooks := ILCHooks) a f t params b =
  (Ok tt,
   mkModbusBuffer
     (_buffer b
      ++ map (fun d => u16 (encode (codec := ILCCodec) d))
             (frame_bytes (a :: f :: params_bytes params))
      ++ [FIFO.TX_FRAMEEND;
          u16 (if t >? 0x0FFF
               then Z.lor (Z.land 0x0FFF (t / 1000 + 1)) FIFO.TX_WAIT_LONG_RX
               else Z.lor t FIFO.TX_WAIT_RX)])
     (_index b) CRC.reset
     (if decide (unicast a) then _commanded b ++ [(a, f)] else _commanded b)
     (_recordChanges b)
     (if _recordChanges b
      then _records b ++ frame_bytes (a :: f :: params_bytes params)
      else _records b)).
Proof.
  intros Ha Hf Hcrc.
  unfold callFunction, bind.
  rewrite (write_uint8_spec (codec := ILCCodec) a b Ha).
  rewrite (write_uint8_spec (codec := ILCCodec) f _ Hf).
  rewrite functionArguments_bytes, writeCRC_spec.
  rewrite !wrote_app, crc_wrote, Hcrc.
  cbn [writeEndOfFrame writeWaitForRx ILCHooks].
  unfold ILCImpl.writeEndOfFrame, MB.pushBuffer, modify.
  rewrite ILC_writeWaitForRx_spec, pushCommanded_spec.
  destruct b as [buf idx crc cmd rec recs].
  destruct (decide (unicast a)); unfold wrote, set_buffer, set_crc, set_commanded;
    cbn [_buffer _index _crc _commanded _recordChanges _records];
    rewrite <- ?app_assoc; cbn [app]; reflexivity.
Qed.

Lemma params_bytes_big_endian (params : list (scalar * Z)) :
  Forall (fun p => in_range (fst p) (snd p)) params ->
  params_bytes params = flat_map (fun p => big_endian (fst p) (snd p)) params.
Proof.
  induction 1 as [|[T v] r Hv _ IH]; cbn [params_bytes flat_map fst snd] in *.
  - reflexivity.
  - rewrite (wire_bytes_big_endian T v Hv). f_equal. exact IH.
Qed.

(** After a frame was read: the frame end and the duration word that follow. *)
Lemma read_frame_end_and_wait (t : Z) (frame : list Z) (r1 : ModbusBuffer) :
  0 <= t < 4294967296 ->
  _buffer r1 = frame ++ [FIFO.TX_FRAMEEND;
                         u16 (if t >? 0x0FFF
                              then Z.lor (Z.land 0x0FFF (t / 1000 + 1)) FIFO.TX_WAIT_LONG_RX
                              else Z.lor t FIFO.TX_WAIT_RX)] ->
  _index r1 = length frame ->
  exists r2,
    (ILCImpl.readEndOfFrame ;;; ILCImpl.readWaitForRx) r1
    = (Ok (read_back_duration t), r2) /\
    MB.endOfBuffer r2 = true /\
    _commanded r2 = _commanded r1.
Proof.
  intros Ht Hbuf Hidx. unfold bind.
  rewrite readEndOfFrame_word
    by (rewrite Hbuf; apply list_lookup_middle; exact Hidx).
  rewrite (readWaitForRx_word t).
  - eexists. split; [reflexivity|]. split; [|reflexivity].
    unfold MB.endOfBuffer. cbn [set_index set_crc _buffer _index].
    rewrite Hbuf, Hidx, length_app. cbn [length]. apply Nat.leb_le. lia.
  - exact Ht.
  - cbn [set_index set_crc _buffer _index]. rewrite Hbuf, Hidx.
    change (frame ++ [?x; ?y]) with (frame ++ [x] ++ [y]).
    rewrite app_assoc. apply list_lookup_middle.
    rewrite length_app. cbn [length]. lia.
Qed.

Lemma read_frame_end_and_delay (t : Z) (frame : list Z) (r1 : ModbusBuffer) :
  0 <= t < 4294967296 ->
  _buffer r1 = frame ++ [FIFO.TX_FRAMEEND;
                         u16 (if t >? 0x0FFF
                              then Z.lor (Z.land 0x0FFF (t / 1000 + 1)) FIFO.LONG_DELAY
                              else Z.lor t FIFO.DELAY)] ->
  _index r1 = length frame ->
  exists r2,
    (ILCImpl.readEndOfFrame ;;; readDelay) r1 = (Ok (read_back_duration t), r2) /\
    MB.endOfBuffer r2 = true /\
    _commanded r2 = _commanded r1.
Proof.
  intros Ht Hbuf Hidx. unfold bind.
  rewrite readEndOfFrame_word
    by (rewrite Hbuf; apply list_lookup_middle; exact Hidx).
  rewrite (readDelay_word t).
  - eexists. split; [reflexivity|]. split; [|reflexivity].
    unfold MB.endOfBuffer. cbn [set_index set_crc _buffer _index].
    rewrite Hbuf, Hidx, length_app. cbn [length]. apply Nat.leb_le. lia.
  - exact Ht.
  - cbn [set_index set_crc _buffer _index]. rewrite Hbuf, Hidx.
    change (frame ++ [?x; ?y]) with (frame ++ [x] ++ [y]).
    rewrite app_assoc. apply list_lookup_middle.
    rewrite length_app. cbn [length]. lia.
Qed.

Lemma frame_bytes_length (payload : list Z) :
  length (frame_bytes payload) = (length payload + 2)%nat.
Proof. unfold frame_bytes. rewrite length_app. reflexivity. Qed.

Lemma callFunction_read_back (a f t : Z) (params : list (scalar * Z)) (b0 : ModbusBuffer) :
  is_u8 a -> is_u8 f -> 0 <= t < 4294967296 ->
  _buffer b0 = [] -> _crc b0 = CRC.reset ->
  exists b1 b2,
    callFunction (codec := ILCCodec) (hooks := ILCHooks) a f t params b0 = (Ok tt, b1) /\
    read_request (length (params_bytes params)) (MB.reset b1)
    = (Ok (a, f, params_bytes params, read_back_duration t), b2) /\
    MB.endOfBuffer b2 = true /\
    _commanded b1 = (if decide (unicast a) then _commanded b0 ++ [(a, f)]
                     else _commanded b0).
Proof.
  intros Ha Hf Ht Hbuf Hcrc.
  rewrite (ILC_callFunction_frame a f t params b0 Ha Hf Hcrc), Hbuf.
  eexists. 
  match goal with
  | |- exists b2, (_, ?b1) = _ /\ _ =>
      destruct (read_frame_followed (codec := ILCCodec) a f (params_bytes params)
                  [FIFO.TX_FRAMEEND;
                   u16 (if t >? 0x0FFF
                        then Z.lor (Z.land 0x0FFF (t / 1000 + 1)) FIFO.TX_WAIT_LONG_RX
                        else Z.lor t FIFO.TX_WAIT_RX)]
                  (MB.reset b1) Ha Hf (params_bytes_u8 params))
        as (r1 & Hread & Hb1 & Hi1 & _ & _ & _); try reflexivity
  end.
  destruct (read_frame_end_and_wait t
              (map (fun d => u16 (encode (codec := ILCCodec) d))
                   (frame_bytes (a :: f :: params_bytes params))) r1 Ht)
    as (r2 & Hend & Heob & _).
  { rewrite Hb1. reflexivity. }
  { rewrite Hi1, length_map, frame_bytes_length. cbn [length]. lia. }
  exists r2. split; [reflexivity|]. split; [|split; [exact Heob | reflexivity]].
  unfold read_request. unfold bind at 1. rewrite Hread.
  unfold bind in Hend |- *.
  destruct (ILCImpl.readEndOfFrame r1) as [[[]| |] r1']; try discriminate.
  rewrite Hend. reflexivity.
Qed.

(** X7. A request built by [callFunction] parses back: for every address,
    function, timeout and typed parameters, after [callFunction] on an empty
    buffer and [reset()], reading address, function and the parameter bytes,
    then [checkCRC()], [readEndOfFrame()] and [readWaitForRx()] all succeed,
    return what was sent (the timeout as a wait word can carry it), and leave
    the cursor at the end of the buffer. The parameters travel most significant
    byte first. The pair is on the ledger exactly for unicast addresses. *)
Theorem callFunction_frame_reads_back (a f t : Z) (params : list (scalar * Z))
    (b0 : ModbusBuffer) :
  is_u8 a -> is_u8 f -> 0 <= t < 4294967296 ->
  Forall (fun p => in_range (fst p) (snd p)) params ->
  _buffer b0 = [] -> _crc b0 = CRC.reset ->
  let bytes := flat_map (fun p => big_endian (fst p) (snd p)) params in
  exists b1 b2,
    callFunction (codec := ILCCodec) (hooks := ILCHooks) a f t params b0 = (Ok tt, b1) /\
    read_request (length bytes) (MB.reset b1)
    = (Ok (a, f, bytes, read_back_duration t), b2) /\
    MB.endOfBuffer b2 = true /\
    _commanded b1 = (if decide (unicast a) then _commanded b0 ++ [(a, f)]
                     else _commanded b0).
Proof.
  intros Ha Hf Ht Hp Hbuf Hcrc bytes. subst bytes.
  rewrite <- (params_bytes_big_endian params Hp).
  apply callFunction_read_back; assumption.
Qed.

Lemma callFunction_frame_reads_back_witness :
  let b0 := MB.clear false (mkModbusBuffer [] 0 0 [] false []) in
  exists b1 b2,
    callFunction (codec := ILCCodec) (hooks := ILCHooks) 231 81 36500
                 [(U8, 1); (U16, 0x1234)] b0 = (Ok tt, b1) /\
    read_request 3 (MB.reset b1) = (Ok (231, 81, [1; 0x12; 0x34], 37000), b2) /\
    MB.endOfBuffer b2 = true /\
    _commanded b1 = [(231, 81)].
Proof.
  intros b0.
  apply (callFunction_frame_reads_back 231 81 36500 [(U8, 1); (U16, 0x1234)] b0);
    try reflexivity; try (unfold is_u8; lia); try lia.
  repeat (apply Forall_cons_2; [simpl; lia|]). apply Forall_nil_2.
Defined.

(** What is in the buffer after [broadcastFunction] of an [ILC]. *)
Lemma ILC_broadcastFunction_frame (a f counter delay : Z) (data : list Z)
    (b : ModbusBuffer) :
  is_u8 a -> is_u8 f -> is_u8 counter -> Forall is_u8 data -> _crc b = CRC.reset ->
  broadcastFunction (codec := ILCCodec) (hooks := ILCHooks) a f counter delay data b =
  (Ok tt,
   mkModbusBuffer
     (_buffer b
      ++ map (fun d => u16 (encode (codec := ILCCodec) d))
             (frame_bytes (a :: f :: counter :: data))
      ++ [FIFO.TX_FRAMEEND;
          u16 (if delay >? 0x0FFF
               then Z.lor (Z.land 0x0FFF (delay / 1000 + 1)) FIFO.LONG_DELAY
               else Z.lor delay FIFO.DELAY)])
     (_index b) CRC.reset (_commanded b) (_recordChanges b)
     (if _recordChanges b
      then _records b ++ frame_bytes (a :: f :: counter :: data)
      else _records b)).
Proof.
  intros Ha Hf Hc Hd Hcrc.
  unfold broadcastFunction, bind.
  rewrite (write_uint8_spec (codec := ILCCodec) a b Ha).
  rewrite (write_uint8_spec (codec := ILCCodec) f _ Hf).
  rewrite (write_uint8_spec (codec := ILCCodec) counter _ Hc).
  rewrite (write_each_spec (codec := ILCCodec) data _ Hd), writeCRC_spec.
  rewrite !wrote_app, crc_wrote, Hcrc.
  cbn [writeEndOfFrame ILCHooks].
  unfold ILCImpl.writeEndOfFrame, writeDelay, MB.pushBuffer, modify.
  destruct b as [buf idx crc cmd rec recs].
  unfold wrote, set_buffer, set_crc, set_commanded;
    cbn [_buffer _index _crc _commanded _recordChanges _records];
    rewrite <- ?app_assoc; cbn [app]; reflexivity.
Qed.

(** X8. A broadcast built by [broadcastFunction] parses back: reading address,
    function, the counter and the data bytes, then [checkCRC()],
    [readEndOfFrame()] and [readDelay()] all succeed and return what was sent
    (the delay as a delay word can carry it), ending at the end of the buffer.
    Whatever the address, nothing is put on the request ledger, so no response
    to a broadcast is expected. *)
Theorem broadcastFunction_frame_reads_back (a f counter delay : Z) (data : list Z)
    (b0 : ModbusBuffer) :
  is_u8 a -> is_u8 f -> is_u8 counter -> Forall is_u8 data ->
  0 <= delay < 4294967296 ->
  _buffer b0 = [] -> _crc b0 = CRC.reset ->
  exists b1 b2,
    broadcastFunction (codec := ILCCodec) (hooks := ILCHooks) a f counter delay data b0
    = (Ok tt, b1) /\
    read_broadcast (S (length data)) (MB.reset b1)
    = (Ok (a, f, counter :: data, read_back_duration delay), b2) /\
    MB.endOfBuffer b2 = true /\
    _commanded b1 = _commanded b0.
Proof.
  intros Ha Hf Hc Hd Ht Hbuf Hcrc.
  rewrite (ILC_broadcastFunction_frame a f counter delay data b0 Ha Hf Hc Hd Hcrc), Hbuf.
  eexists.
  match goal with
  | |- exists b2, (_, ?b1) = _ /\ _ =>
      destruct (read_frame_followed (codec := ILCCodec) a f (counter :: data)
                  [FIFO.TX_FRAMEEND;
                   u16 (if delay >? 0x0FFF
                        then Z.lor (Z.land 0x0FFF (delay / 1000 + 1)) FIFO.LONG_DELAY
                        else Z.lor delay FIFO.DELAY)]
                  (MB.reset b1) Ha Hf (Forall_cons_2 _ _ _ Hc Hd))
        as (r1 & Hread & Hb1 & Hi1 & _ & _ & _); try reflexivity
  end.
  destruct (read_frame_end_and_delay delay
              (map (fun d => u16 (encode (codec := ILCCodec) d))
                   (frame_bytes (a :: f :: counter :: data))) r1 Ht)
    as (r2 & Hend & Heob & _).
  { rewrite Hb1. reflexivity. }
  { rewrite Hi1, length_map, frame_bytes_length. cbn [length]. lia. }
  exists r2. split; [reflexivity|]. split; [|split; [exact Heob | reflexivity]].
  unfold read_broadcast. unfold bind at 1.
  change (length (counter :: data)) with (S (length data)) in Hread.
  rewrite Hread.
  unfold bind in Hend |- *.
  destruct (ILCImpl.readEndOfFrame r1) as [[[]| |] r1']; try discriminate.
  rewrite Hend. reflexivity.
Qed.

Lemma broadcastFunction_frame_reads_back_witness :
  let b0 := MB.clear false (mkModbusBuffer [] 0 0 [] false []) in
  exists b1 b2,
    broadcastFunction (codec := ILCCodec) (hooks := ILCHooks) 5 66 3 300000 [1; 2; 255] b0
    = (Ok tt, b1) /\
    read_broadcast 4 (MB.reset b1) = (Ok (5, 66, [3; 1; 2; 255], 301000), b2) /\
    MB.endOfBuffer b2 = true /\
    _commanded b1 = [].
Proof.
  intros b0.
  apply (broadcastFunction_frame_reads_back 5 66 3 300000 [1; 2; 255] b0);
    try reflexivity; try (unfold is_u8; lia); try lia.
  repeat (apply Forall_cons_2; [unfold is_u8; lia|]). apply Forall_nil_2.
Defined.

(** ** The electromechanical and pneumatic ILC requests *)

Lemma liftI_callFunction_read_back (a f t : Z) (params : list (scalar * Z)) (i : ILC) :
  is_u8 a -> is_u8 f -> 0 <= t < 4294967296 ->
  _buffer (base i) = [] -> _crc (base i) = CRC.reset ->
  exists i1 b2,
    liftI (callFunction (codec := ILCCodec) (hooks := ILCHooks) a f t params) i
    = (Ok tt, i1) /\
    read_request (length (params_bytes params)) (MB.reset (base i1))
    = (Ok (a, f, params_bytes params, read_back_duration t), b2) /\
    MB.endOfBuffer b2 = true /\
    _commanded (base i1) = (if decide (unicast a) then _commanded (base i) ++ [(a, f)]
                            else _commanded (base i)).
Proof.
  intros Ha Hf Ht Hbuf Hcrc.
  destruct (callFunction_read_back a f t params (base i) Ha Hf Ht Hbuf Hcrc)
    as (b1 & b2 & Hcall & Hread & Heob & Hcmd).
  exists (with_base b1 i), b2.
  split; [apply liftI_ok; exact Hcall|].
  destruct i; cbn [with_base base]. auto.
Qed.

(** X9. The four requests of the electromechanical and pneumatic ILC. On an
    ILC with an empty buffer, for every address:
    [setOffsetAndSensitivity] sends function 81 with the channel byte and the
    32-bit patterns of both floats most significant byte first (nine bytes) and a wait that reads back
    as 37000 microseconds; [reportHardpointForceStatus],
    [reportCalibrationData] and [reportMezzaninePressure] send functions 67,
    110 and 119 without arguments and a wait of 1800 microseconds. Each frame
    passes [checkCRC()] and is followed by the frame end, and each request is
    put on the ledger exactly for a unicast address. *)
Theorem emp_requests_read_back (address channel offset sensitivity : Z) (i : ILC) :
  is_u8 address -> is_u8 channel ->
  in_range F32 offset -> in_range F32 sensitivity ->
  _buffer (base i) = [] -> _crc (base i) = CRC.reset ->
  let sent (request : M ILC unit) (f : Z) (bytes : list Z) (wait : Z) :=
    exists i1 b2,
      request i = (Ok tt, i1) /\
      read_request (length bytes) (MB.reset (base i1)) = (Ok (address, f, bytes, wait), b2) /\
      MB.endOfBuffer b2 = true /\
      _commanded (base i1) = (if decide (unicast address)
                              then _commanded (base i) ++ [(address, f)]
                              else _commanded (base i)) in
  sent (setOffsetAndSensitivity address channel offset sensitivity) 81
       (channel :: big_endian F32 offset ++ big_endian F32 sensitivity) 37000 /\
  sent (reportHardpointForceStatus address) 67 [] 1800 /\
  sent (reportCalibrationData address) 110 [] 1800 /\
  sent (reportMezzaninePressure address) 119 [] 1800.
Proof.
  intros Ha Hch Hoff Hsens Hbuf Hcrc sent. subst sent. cbv beta.
  repeat split.
  - pose proof (liftI_callFunction_read_back address 81 36500
                  [(U8, channel); (F32, offset); (F32, sensitivity)] i Ha
                  ltac:(unfold is_u8; lia) ltac:(lia) Hbuf Hcrc) as Hr.
    rewrite (params_bytes_big_endian
               [(U8, channel); (F32, offset); (F32, sensitivity)]) in Hr.
    + cbn [flat_map fst snd] in Hr. rewrite app_nil_r in Hr.
      replace (big_endian U8 channel) with [channel] in Hr.
      * exact Hr.
      * unfold is_u8 in Hch. unfold big_endian. cbn [width].
        change (256 ^ Z.of_nat 1) with 256.
        rewrite (Z.mod_small channel 256) by lia. simpl to_mem.
        rewrite Z.mod_small by lia. reflexivity.
    + apply Forall_cons_2; [exact Hch|].
      repeat (apply Forall_cons_2; [assumption|]). apply Forall_nil_2.
  - exact (liftI_callFunction_read_back address 67 1800 [] i Ha
             ltac:(unfold is_u8; lia) ltac:(lia) Hbuf Hcrc).
  - exact (liftI_callFunction_read_back address 110 1800 [] i Ha
             ltac:(unfold is_u8; lia) ltac:(lia) Hbuf Hcrc).
  - exact (liftI_callFunction_read_back address 119 1800 [] i Ha
             ltac:(unfold is_u8; lia) ltac:(lia) Hbuf Hcrc).
Qed.

Lemma emp_requests_read_back_witness :
  let i := ILC_new 1 in
  let sent (request : M ILC unit) (f : Z) (bytes : list Z) (wait : Z) :=
    exists i1 b2,
      request i = (Ok tt, i1) /\
      read_request (length bytes) (MB.reset (base i1)) = (Ok (231, f, bytes, wait), b2) /\
      MB.endOfBuffer b2 = true /\
      _commanded (base i1) = [(231, f)] in
  sent (setOffsetAndSensitivity 231 1 0x4015C28F 0xC091EB85) 81
       [1; 0x40; 0x15; 0xC2; 0x8F; 0xC0; 0x91; 0xEB; 0x85] 37000 /\
  sent (reportHardpointForceStatus 231) 67 [] 1800 /\
  sent (reportCalibrationData 231) 110 [] 1800 /\
  sent (reportMezzaninePressure 231) 119 [] 1800.
Proof.
  intros i.
  apply (emp_requests_read_back 231 1 0x4015C28F 0xC091EB85 i);
    try reflexivity; try (unfold is_u8; lia); simpl; lia.
Defined.

(** ** Responses at any place of the buffer *)

Lemma remaining_consumed (data : list Z) (b : ModbusBuffer) :
  remaining (consumed data b) = drop (length data) (remaining b).
Proof. unfold remaining. cbn [consumed _buffer _index]. rewrite drop_drop. reflexivity. Qed.

Lemma remaining_lookup (b : ModbusBuffer) : _buffer b !! _index b = head (remaining b).
Proof.
  unfold remaining. rewrite head_lookup, lookup_drop, Nat.add_0_r. reflexivity.
Qed.

Lemma endOfBuffer_remaining (b : ModbusBuffer) :
  MB.endOfBuffer b = match remaining b with [] => true | _ => false end.
Proof.
  rewrite lookup_endOfBuffer, remaining_lookup. destruct (remaining b); reflexivity.
Qed.

Lemma ILC_read_uint8 (w : Z) (t : list Z) (b : ModbusBuffer) :
  remaining b = w :: t ->
  read_uint8 (codec := ILCCodec) b = (Ok (wire_byte w), consumed [wire_byte w] b).
Proof.
  intros Hr. pose proof (read_uint8_word (codec := ILCCodec) w b) as H.
  change (@decode ILCCodec ILCCodecLaws) with wire_byte in H. apply H.
  rewrite remaining_lookup, Hr. reflexivity.
Qed.

Lemma ILC_read_uint16 (w1 w2 : Z) (t : list Z) (b : ModbusBuffer) :
  remaining b = w1 :: w2 :: t ->
  read_uint16 (codec := ILCCodec) b
  = (Ok (ntohs (of_mem [wire_byte w1; wire_byte w2])),
     consumed [wire_byte w1; wire_byte w2] b).
Proof.
  intros Hr. pose proof (read_uint16_words (codec := ILCCodec) w1 w2 b) as H.
  change (@decode ILCCodec ILCCodecLaws) with wire_byte in H. apply H.
  fold (remaining b). rewrite Hr. reflexivity.
Qed.

Lemma ILC_checkCRC_ok (w1 w2 : Z) (t : list Z) (b : ModbusBuffer) :
  remaining b = w1 :: w2 :: t ->
  is_u16 (_crc b) ->
  of_mem [wire_byte w1; wire_byte w2] = _crc b ->
  checkCRC (codec := ILCCodec) b
  = (Ok tt, set_crc CRC.reset
              (consumed [wire_byte w1; wire_byte w2] (set_recordChanges false b))).
Proof.
  intros Hr Hu Hc. pose proof (checkCRC_words (codec := ILCCodec) w1 w2 b) as H.
  change (@decode ILCCodec ILCCodecLaws) with wire_byte in H.
  apply H; try assumption.
  fold (remaining b). rewrite Hr. reflexivity.
Qed.

Lemma ILC_checkCRC_mismatch (w1 w2 : Z) (t : list Z) (b : ModbusBuffer) :
  remaining b = w1 :: w2 :: t ->
  of_mem [wire_byte w1; wire_byte w2] <> _crc b ->
  checkCRC (codec := ILCCodec) b
  = (Throw (CRCError (_crc b) (of_mem [wire_byte w1; wire_byte w2])),
     consumed [wire_byte w1; wire_byte w2] (set_recordChanges false b)).
Proof.
  intros Hr Hc.
  unfold checkCRC, bind, MB.getCalcCrc, MB.pauseRecordChanges, modify.
  rewrite (readBuffer_spec (codec := ILCCodec) 2 (set_recordChanges false b) [w1; w2])
    by (try reflexivity; cbn [set_recordChanges _buffer _index];
        fold (remaining b); rewrite Hr; reflexivity).
  change (@decode ILCCodec ILCCodecLaws) with wire_byte. cbn [map].
  unfold le32toh, CRC.get.
  assert (Hw : is_u16 (of_mem [wire_byte w1; wire_byte w2])).
  { pose proof (wire_byte_u8 w1) as H1. pose proof (wire_byte_u8 w2) as H2.
    unfold is_u8 in H1, H2. unfold is_u16. simpl of_mem. lia. }
  rewrite (u16_small _ Hw).
  destruct (Z.eqb_spec (of_mem [wire_byte w1; wire_byte w2]) (_crc b)) as [E|E];
    [contradiction|]. reflexivity.
Qed.

Lemma bind_throw {St A B} (m : M St A) (k : A -> M St B) (s s' : St) (e : exn) :
  m s = (Throw e, s') -> bind m k s = (Throw e, s').
Proof. intros Hm. unfold bind. rewrite Hm. reflexivity. Qed.

Lemma lift_throw {A} (m : M ModbusBuffer A) (i : ILC) (e : exn) (b' : ModbusBuffer) :
  m (base i) = (Throw e, b') -> lift base with_base m i = (Throw e, with_base b' i).
Proof. intros Hm. unfold lift. rewrite Hm. reflexivity. Qed.

(** The tables the constructor fills, looked up at any function code. *)
Lemma ILC_errorActions_lookup (f : Z) :
  _errorActions ILC_responses !! f
  = if decide (f = 235) then Some (107, None)
    else if decide (f = 200) then Some (72, None)
    else if decide (f = 193) then Some (65, None)
    else if decide (f = 146) then Some (18, None)
    else if decide (f = 145) then Some (17, None)
    else None.
Proof.
  unfold ILC_responses, addResponse, no_responses. cbn [_errorActions].
  repeat (destruct (decide _) as [->|?];
          [rewrite ?lookup_insert_eq; try reflexivity;
           repeat (rewrite lookup_insert_ne by discriminate);
           rewrite ?lookup_insert_eq; reflexivity
          | rewrite lookup_insert_ne by congruence]).
  apply lookup_empty.
Qed.

Lemma ILC_actions_lookup (f : Z) :
  _actions ILC_responses !! f
  = if decide (f = 107) then Some action107
    else if decide (f = 72) then Some action72
    else if decide (f = 65) then Some action65
    else if decide (f = 18) then Some action18
    else if decide (f = 17) then Some action17
    else None.
Proof.
  unfold ILC_responses, addResponse, no_responses. cbn [_actions].
  repeat (destruct (decide _) as [->|?];
          [rewrite ?lookup_insert_eq; try reflexivity;
           repeat (rewrite lookup_insert_ne by discriminate);
           rewrite ?lookup_insert_eq; reflexivity
          | rewrite lookup_insert_ne by congruence]).
  apply lookup_empty.
Qed.

(** One turn of the loop, up to the ledger check. *)
Lemma body_header (w1 w2 : Z) (t : list Z) (i : ILC) :
  remaining (base i) = w1 :: w2 :: t ->
  processResponse_body (codec := ILCCodec) base with_base ILC_responses i
  = ((lift base with_base
        (checkCommanded (wire_byte w1) (answered_function (wire_byte w2))) ;;;
      catch_out_of_range
        match _actions ILC_responses !! wire_byte w2 with
        | Some action => action (wire_byte w1)
        | None => throw OutOfRange
        end
        (catch_out_of_range
           match _errorActions ILC_responses !! wire_byte w2 with
           | None => throw OutOfRange
           | Some errorAction =>
               exception <- lift base with_base (read_uint8 (codec := ILCCodec)) ;;
               lift base with_base (checkCRC (codec := ILCCodec)) ;;;
               match snd errorAction with
               | Some act => act (wire_byte w1) exception
               | None => throw (ModbusException (wire_byte w1) (wire_byte w2) exception)
               end
           end
           (throw (UnknownResponse (wire_byte w1) (wire_byte w2)))))
       (with_base (consumed [wire_byte w1; wire_byte w2] (base i)) i)).
Proof.
  intros Hr. unfold processResponse_body.
  destruct i as [b bus bc at' lm cache cl]. cbn [base] in Hr.
  erewrite bind_ok; [|apply lift_ok; apply (ILC_read_uint8 w1 (w2 :: t)); exact Hr].
  erewrite bind_ok;
    [|apply lift_ok; cbn [base with_base];
      apply (ILC_read_uint8 w2 t); rewrite remaining_consumed, Hr; reflexivity].
  cbn [base with_base].
  rewrite consumed_app. cbn [app].
  unfold answered_function.
  destruct (_errorActions ILC_responses !! wire_byte w2); reflexivity.
Qed.

(** The loop entered with words left to read. *)
Lemma processResponse_loop_S (fuel : nat) (w : Z) (t : list Z) (i : ILC) :
  remaining (base i) = w :: t ->
  processResponse_loop (codec := ILCCodec) base with_base ILC_responses (S fuel) i
  = (processResponse_body (codec := ILCCodec) base with_base ILC_responses ;;;
     processResponse_loop (codec := ILCCodec) base with_base ILC_responses fuel) i.
Proof.
  intros Hr. cbn [processResponse_loop]. rewrite endOfBuffer_remaining, Hr. reflexivity.
Qed.

Lemma processResponse_loop_done (fuel : nat) (i : ILC) :
  remaining (base i) = [] ->
  processResponse_loop (codec := ILCCodec) base with_base ILC_responses fuel i = (Ok tt, i).
Proof.
  intros Hr. destruct fuel; cbn [processResponse_loop];
    rewrite endOfBuffer_remaining, Hr; reflexivity.
Qed.

(** [processResponse] as the loop run on the new buffer. *)
Lemma ILC_processResponse_unfold (fuel : nat) (response : list Z) (i : ILC) :
  ILC_processResponse fuel response i
  = processResponse_loop (codec := ILCCodec) base with_base ILC_responses fuel
      (with_base (set_buffer response (set_crc CRC.reset (set_index 0%nat (base i)))) i).
Proof.
  unfold ILC_processResponse, processResponse, preProcess, postProcess.
  erewrite bind_ok; [|reflexivity].
  erewrite bind_ok; [|apply lift_ok; reflexivity].
  unfold bind.
  destruct (processResponse_loop _ _ _ _ _) as [[[]| |] ?]; reflexivity.
Qed.

(** ** Responses the dispatcher refuses *)

Lemma checkCommanded_mismatch (a f : Z) (b : ModbusBuffer) :
  head (_commanded b) <> Some (a, f) ->
  exists b',
    checkCommanded a f b = (Throw (UnmatchedFunction a f (head (_commanded b))), b') /\
    _commanded b' = tail (_commanded b).
Proof.
  intros Hne. destruct (_commanded b) as [|front rest] eqn:Hc.
  - exists b. unfold checkCommanded. rewrite Hc. split; reflexivity.
  - exists (set_commanded rest b).
    rewrite (checkCommanded_other a f front rest b Hc) by (cbn in Hne; congruence).
    split; reflexivity.
Qed.

Lemma remaining_setBuffer (response : list Z) (b : ModbusBuffer) :
  remaining (set_buffer response (set_crc CRC.reset (set_index 0%nat b))) = response.
Proof. reflexivity. Qed.

(** X10. A response nobody asked for is refused before any callback runs. When
    the first two words of a response decode to address [a] and function code
    [f], and the front of the ledger is not [a] with the function [f] answers
    for (or the ledger is empty), [processResponse] throws [UnmatchedFunction]
    naming what it found at the front, removes that front entry, calls no
    [process*] hook and leaves the recorded modes and the change cache
    alone. *)
Theorem unrequested_response_rejected (w1 w2 : Z) (t : list Z) (i : ILC) (fuel : nat) :
  (1 <= fuel)%nat ->
  head (_commanded (base i)) <> Some (wire_byte w1, answered_function (wire_byte w2)) ->
  exists i',
    ILC_processResponse fuel (w1 :: w2 :: t) i
    = (Throw (UnmatchedFunction (wire_byte w1) (answered_function (wire_byte w2))
                (head (_commanded (base i)))), i') /\
    _commanded (base i') = tail (_commanded (base i)) /\
    calls i' = calls i /\
    _lastMode i' = _lastMode i /\
    _cachedResponse i' = _cachedResponse i.
Proof.
  intros Hfuel Hne. destruct fuel as [|fuel]; [lia|].
  rewrite ILC_processResponse_unfold.
  destruct i as [b bus bc at' lm cache cl]. cbn [base with_base] in *.
  rewrite (processResponse_loop_S fuel w1 (w2 :: t)) by reflexivity.
  unfold bind at 1. rewrite (body_header w1 w2 t) by reflexivity.
  cbn [base with_base].
  match goal with
  | |- context [checkCommanded ?a ?f] =>
      destruct (checkCommanded_mismatch a f
                  (consumed [wire_byte w1; wire_byte w2]
                     (set_buffer (w1 :: w2 :: t) (set_crc CRC.reset (set_index 0%nat b)))))
        as (b' & Hcheck & Hcmd); [exact Hne|]
  end.
  cbn [consumed set_buffer set_crc set_index _commanded] in Hcheck, Hcmd.
  erewrite bind_throw; [|apply lift_throw; exact Hcheck].
  eexists. split; [reflexivity|]. cbn [base with_base calls _lastMode _cachedResponse].
  auto.
Qed.

Lemma unrequested_response_rejected_witness :
  let request := liftI (callFunction (codec := ILCCodec) (hooks := ILCHooks) 8 18 270 []) in
  let i := snd (request (ILC_new 1)) in
  exists i',
    ILC_processResponse 1 [0x1212; 0x1224; 0x1200] i
    = (Throw (UnmatchedFunction 9 18 (Some (8, 18))), i') /\
    _commanded (base i') = [] /\
    calls i' = [] /\
    _lastMode i' = ∅ /\
    _cachedResponse i' = ∅.
Proof.
  intros request i.
  apply (unrequested_response_rejected 0x1212 0x1224 [0x1200] i 1).
  - lia.
  - vm_compute. discriminate.
Defined.

Lemma answered_function_error_code (func ec : Z) :
  In (func, ec) [(17, 145); (18, 146); (65, 193); (72, 200); (107, 235)] ->
  answered_function ec = func /\
  _actions ILC_responses !! ec = None /\
  _errorActions ILC_responses !! ec = Some (func, None).
Proof.
  cbn [In]. intros [E|[E|[E|[E|[E|[]]]]]]; injection E as <- <-;
    (split; [|split]); reflexivity.
Qed.

(** X11. An error response is turned into an exception. For each of the five
    functions the ILC registers (17, 18, 65, 72, 107 with the error codes 145,
    146, 193, 200, 235): when the request is at the front of the ledger and
    the response holds the address, the error code, an exception byte and a
    valid CRC, [processResponse] throws [Exception] carrying the address, the
    error code as received and the exception byte. The request is taken off
    the ledger, no hook is called, and words that follow are not looked at. *)
Theorem error_response_raises (func ec a exc : Z) (ws t : list Z)
    (rest : list (Z * Z)) (i : ILC) (fuel : nat) :
  In (func, ec) [(17, 145); (18, 146); (65, 193); (72, 200); (107, 235)] ->
  map wire_byte ws = frame_bytes [a; ec; exc] ->
  _commanded (base i) = (a, func) :: rest ->
  (1 <= fuel)%nat ->
  exists i',
    ILC_processResponse fuel (ws ++ t) i = (Throw (ModbusException a ec exc), i') /\
    _commanded (base i') = rest /\
    remaining (base i') = t /\
    calls i' = calls i /\
    _lastMode i' = _lastMode i /\
    _cachedResponse i' = _cachedResponse i.
Proof.
  intros Hin Hws Hcmd Hfuel. destruct fuel as [|fuel]; [lia|].
  destruct (answered_function_error_code func ec Hin) as (Hans & Hact & Herr).
  rewrite frame_bytes_app in Hws.
  set (c := fold_left CRC.add [a; ec; exc] CRC.reset) in *.
  assert (Hc : is_u16 c) by (apply crc_fold_u16; unfold is_u16, CRC.reset; lia).
  pose proof (crc_split c Hc) as Hsplit.
  destruct ws as [|w1 [|w2 [|w3 [|w4 [|w5 [|w6 ws]]]]]]; try discriminate.
  cbn [map app] in Hws. injection Hws as H1 H2 H3 H4 H5.
  rewrite <- H4, <- H5 in Hsplit. subst c. clear Hc H4 H5.
  rewrite ILC_processResponse_unfold.
  destruct i as [b bus bc at' lm cache cl]. cbn [base with_base] in *.
  cbn [app].
  rewrite (processResponse_loop_S fuel w1 (w2 :: w3 :: w4 :: w5 :: t)) by reflexivity.
  unfold bind at 1. rewrite (body_header w1 w2 (w3 :: w4 :: w5 :: t)) by reflexivity.
  rewrite H1, H2, Hans, Hact, Herr. cbn [snd]. norm_state.
  step ltac:(apply lift_ok; apply checkCommanded_front; exact Hcmd).
  unfold catch_out_of_range at 1. unfold throw at 1.
  unfold catch_out_of_range at 1.
  step ltac:(apply lift_ok; apply (ILC_read_uint8 w3 (w4 :: w5 :: t)); reflexivity).
  rewrite H3.
  step ltac:(apply lift_ok; apply (ILC_checkCRC_ok w4 w5 t);
             [ reflexivity
             | cbn [_crc]; repeat apply crc_add_u16
             | cbn [_crc]; exact Hsplit ]).
  unfold throw. eexists. split; [reflexivity|].
  cbn [base with_base calls _lastMode _cachedResponse].
  repeat split; reflexivity.
Qed.

Lemma error_response_raises_witness :
  let request := liftI (callFunction (codec := ILCCodec) (hooks := ILCHooks) 8 18 270 []) in
  let i := snd (request (ILC_new 1)) in
  let ws := map (fun d => 0x1200 + 2 * d) (frame_bytes [8; 146; 3]) in
  exists i',
    ILC_processResponse 1 (ws ++ [0xA000]) i = (Throw (ModbusException 8 146 3), i') /\
    _commanded (base i') = [] /\
    remaining (base i') = [0xA000] /\
    calls i' = [] /\
    _lastMode i' = ∅ /\
    _cachedResponse i' = ∅.
Proof.
  intros request i ws.
  apply (error_response_raises 18 146 8 3 ws [0xA000] [] i 1).
  - cbn [In]. auto.
  - vm_compute. reflexivity.
  - vm_compute. reflexivity.
  - lia.
Defined.

(** X12. A function code without a callback. When the response carries a
    function code that is neither one of the five functions nor one of their
    error codes, and exactly that address and code are at the front of the
    ledger, [processResponse] takes the entry off the ledger and throws
    [UnknownResponse] with the address and the code; no hook is called. *)
Theorem unknown_function_rejected (w1 w2 : Z) (t : list Z) (rest : list (Z * Z))
    (i : ILC) (fuel : nat) :
  ~ In (wire_byte w2) [17; 18; 65; 72; 107; 145; 146; 193; 200; 235] ->
  _commanded (base i) = (wire_byte w1, wire_byte w2) :: rest ->
  (1 <= fuel)%nat ->
  exists i',
    ILC_processResponse fuel (w1 :: w2 :: t) i
    = (Throw (UnknownResponse (wire_byte w1) (wire_byte w2)), i') /\
    _commanded (base i') = rest /\
    remaining (base i') = t /\
    calls i' = calls i /\
    _lastMode i' = _lastMode i /\
    _cachedResponse i' = _cachedResponse i.
Proof.
  intros Hf Hcmd Hfuel. destruct fuel as [|fuel]; [lia|].
  cbn [In] in Hf.
  assert (Hact : _actions ILC_responses !! wire_byte w2 = None).
  { rewrite ILC_actions_lookup.
    repeat (destruct (decide _) as [E|_]; [exfalso; apply Hf; rewrite E; tauto|]).
    reflexivity. }
  assert (Herr : _errorActions ILC_responses !! wire_byte w2 = None).
  { rewrite ILC_errorActions_lookup.
    repeat (destruct (decide _) as [E|_]; [exfalso; apply Hf; rewrite E; tauto|]).
    reflexivity. }
  rewrite ILC_processResponse_unfold.
  destruct i as [b bus bc at' lm cache cl]. cbn [base with_base] in *.
  rewrite (processResponse_loop_S fuel w1 (w2 :: t)) by reflexivity.
  unfold bind at 1. rewrite (body_header w1 w2 t) by reflexivity.
  unfold answered_function. rewrite Hact, Herr. cbn [base with_base].
  erewrite bind_ok;
    [|apply lift_ok; apply checkCommanded_front;
      cbn [consumed set_buffer set_crc set_index _commanded]; exact Hcmd].
  unfold catch_out_of_range, throw.
  eexists. split; [reflexivity|].
  cbn [base with_base calls _lastMode _cachedResponse].
  repeat split; reflexivity.
Qed.

Lemma unknown_function_rejected_witness :
  let request := liftI (callFunction (codec := ILCCodec) (hooks := ILCHooks) 8 67 1800 []) in
  let i := snd (request (ILC_new 1)) in
  exists i',
    ILC_processResponse 1 [0x1210; 0x1286; 0x1200] i = (Throw (UnknownResponse 8 67), i') /\
    _commanded (base i') = [] /\
    remaining (base i') = [0x1200] /\
    calls i' = [] /\
    _lastMode i' = ∅ /\
    _cachedResponse i' = ∅.
Proof.
  intros request i.
  apply (unknown_function_rejected 0x1210 0x1286 [0x1200] [] i 1).
  - vm_compute. intuition discriminate.
  - vm_compute. reflexivity.
  - lia.
Defined.

(** ** Several responses in one buffer *)

Ltac rem_solve Hrem :=
  unfold remaining;
  cbn [base _buffer _index set_records set_recordChanges set_crc set_commanded consumed
       length Nat.add];
  rewrite <- ?drop_drop;
  match type of Hrem with
  | remaining ?b = _ => change (drop (_index b) (_buffer b)) with (remaining b)
  end;
  rewrite Hrem; reflexivity.

(** One turn of the loop on a reset server or set temporary address response. *)
Lemma body_reply (r : reply) (ws post : list Z) (rest : list (Z * Z)) (i : ILC) :
  map wire_byte ws = frame_bytes (reply_payload r) ->
  remaining (base i) = ws ++ post ->
  _crc (base i) = CRC.reset ->
  _commanded (base i) = reply_request r :: rest ->
  exists i',
    processResponse_body (codec := ILCCodec) base with_base ILC_responses i = (Ok tt, i') /\
    remaining (base i') = post /\
    _crc (base i') = CRC.reset /\
    _commanded (base i') = rest /\
    calls i' = calls i ++ [reply_call r] /\
    _lastMode i' = _lastMode i /\
    _cachedResponse i' = _cachedResponse i.
Proof.
  intros Hws Hrem Hcrc Hcmd.
  rewrite frame_bytes_app in Hws.
  set (c := fold_left CRC.add (reply_payload r) CRC.reset) in *.
  assert (Hc : is_u16 c) by (apply crc_fold_u16; unfold is_u16, CRC.reset; lia).
  pose proof (crc_split c Hc) as Hsplit. subst c. clear Hc.
  destruct i as [b bus bc at' lm cache cl]. cbn [base calls _lastMode _cachedResponse] in *.
  destruct r as [a|a n]; cbn [reply_payload reply_request reply_call fold_left] in *.
  - destruct ws as [|w1 [|w2 [|w3 [|w4 [|w5 ws]]]]]; try discriminate.
    cbn [map app] in Hws, Hrem. injection Hws as H1 H2 H3 H4.
    rewrite <- H3, <- H4 in Hsplit. clear H3 H4.
    rewrite (body_header w1 w2 (w3 :: w4 :: post)) by exact Hrem.
    rewrite H1, H2. change (answered_function 107) with 107.
    change (_actions ILC_responses !! 107) with (Some action107).
    norm_state. rewrite Hcrc.
    step ltac:(apply lift_ok; apply checkCommanded_front; exact Hcmd).
    unfold catch_out_of_range at 1. unfold action107.
    step ltac:(apply liftI_ok; apply (ILC_checkCRC_ok w3 w4 post);
               [ rem_solve Hrem
               | cbn [_crc]; repeat apply crc_add_u16
               | cbn [_crc]; exact Hsplit ]).
    unfold call, modify. eexists. split; [reflexivity|].
    cbn [base calls _lastMode _cachedResponse set_calls _crc _commanded].
    repeat split; try reflexivity. rem_solve Hrem.
  - destruct ws as [|w1 [|w2 [|w3 [|w4 [|w5 [|w6 ws]]]]]]; try discriminate.
    cbn [map app] in Hws, Hrem. injection Hws as H1 H2 H3 H4 H5.
    rewrite <- H4, <- H5 in Hsplit. clear H4 H5.
    rewrite (body_header w1 w2 (w3 :: w4 :: w5 :: post)) by exact Hrem.
    rewrite H1, H2. change (answered_function 72) with 72.
    change (_actions ILC_responses !! 72) with (Some action72).
    norm_state. rewrite Hcrc.
    step ltac:(apply lift_ok; apply checkCommanded_front; exact Hcmd).
    unfold catch_out_of_range at 1. unfold action72.
    step ltac:(apply liftI_ok; apply (ILC_read_uint8 w3 (w4 :: w5 :: post));
               rem_solve Hrem).
    rewrite H3.
    step ltac:(apply liftI_ok; apply (ILC_checkCRC_ok w4 w5 post);
               [ rem_solve Hrem
               | cbn [_crc]; repeat apply crc_add_u16
               | cbn [_crc]; exact Hsplit ]).
    unfold call, modify. eexists. split; [reflexivity|].
    cbn [base calls _lastMode _cachedResponse set_calls _crc _commanded].
    repeat split; try reflexivity. rem_solve Hrem.
Qed.

Lemma loop_replies (rs : list reply) :
  forall (wss : list (list Z)) (rest : list (Z * Z)) (i : ILC) (fuel : nat),
    Forall2 (fun r ws => map wire_byte ws = frame_bytes (reply_payload r)) rs wss ->
    remaining (base i) = concat wss ->
    _crc (base i) = CRC.reset ->
    _commanded (base i) = map reply_request rs ++ rest ->
    (length rs <= fuel)%nat ->
    exists i',
      processResponse_loop (codec := ILCCodec) base with_base ILC_responses fuel i
      = (Ok tt, i') /\
      remaining (base i') = [] /\
      _commanded (base i') = rest /\
      calls i' = calls i ++ map reply_call rs /\
      _lastMode i' = _lastMode i /\
      _cachedResponse i' = _cachedResponse i.
Proof.
  induction rs as [|r rs IH]; intros wss rest i fuel Hall Hrem Hcrc Hcmd Hfuel.
  - apply Forall2_nil_inv_l in Hall. subst wss. cbn [concat map app] in *.
    exists i. rewrite processResponse_loop_done by exact Hrem.
    rewrite app_nil_r. repeat split; auto.
  - apply Forall2_cons_inv_l in Hall. destruct Hall as (ws & wss' & Hws & Hall & ->).
    cbn [concat map app length] in *.
    destruct fuel as [|fuel]; [lia|].
    destruct (body_reply r ws (concat wss') (map reply_request rs ++ rest) i
                Hws Hrem Hcrc Hcmd)
      as (i1 & Hbody & Hrem1 & Hcrc1 & Hcmd1 & Hcalls1 & Hlm1 & Hcache1).
    destruct (IH wss' rest i1 fuel Hall Hrem1 Hcrc1 Hcmd1 ltac:(lia))
      as (i' & Hloop & Hrem' & Hcmd' & Hcalls' & Hlm' & Hcache').
    exists i'.
    assert (Hne : exists w t, remaining (base i) = w :: t).
    { rewrite Hrem. destruct ws as [|w ws].
      - rewrite frame_bytes_app in Hws. destruct (reply_payload r); discriminate.
      - eauto. }
    destruct Hne as (w & t & Hwt).
    rewrite (processResponse_loop_S fuel w t i Hwt).
    erewrite bind_ok; [|exact Hbody].
    split; [exact Hloop|]. split; [exact Hrem'|]. split; [exact Hcmd'|].
    rewrite Hcalls', Hcalls1, Hlm', Hlm1, Hcache', Hcache1, <- app_assoc.
    repeat split; reflexivity.
Qed.

(** X13. Several responses in one buffer are handled in order, one per pending
    request. For any sequence of reset server (107) and set temporary address
    (72) responses with valid CRCs, laid one after the other in the buffer
    [processResponse] receives, with the matching requests at the front of the
    ledger in the same order: the call succeeds, the hooks
    [processResetServer] and [processSetTempILCAddress] are called once per
    response in the order of arrival (a repeated response is reported again,
    these callbacks do no change detection), the answered requests are off the
    ledger and the buffer is read to its end. *)
Theorem replies_processed_in_order (rs : list reply) (wss : list (list Z))
    (rest : list (Z * Z)) (i : ILC) (fuel : nat) :
  Forall2 (fun r ws => map wire_byte ws = frame_bytes (reply_payload r)) rs wss ->
  _commanded (base i) = map reply_request rs ++ rest ->
  (length rs <= fuel)%nat ->
  exists i',
    ILC_processResponse fuel (concat wss) i = (Ok tt, i') /\
    calls i' = calls i ++ map reply_call rs /\
    _commanded (base i') = rest /\
    MB.endOfBuffer (base i') = true /\
    _lastMode i' = _lastMode i /\
    _cachedResponse i' = _cachedResponse i.
Proof.
  intros Hall Hcmd Hfuel.
  rewrite ILC_processResponse_unfold.
  destruct i as [b bus bc at' lm cache cl]. cbn [base with_base] in *.
  destruct (loop_replies rs wss rest
              (mkILC (set_buffer (concat wss) (set_crc CRC.reset (set_index 0%nat b)))
                     bus bc at' lm cache cl) fuel Hall)
    as (i' & Hloop & Hrem & Hcmd' & Hcalls & Hlm & Hcache); try reflexivity; try assumption.
  exists i'. split; [exact Hloop|].
  rewrite endOfBuffer_remaining, Hrem. repeat split; assumption.
Qed.

Lemma replies_processed_in_order_witness :
  let request (f : Z) := liftI (callFunction (codec := ILCCodec) (hooks := ILCHooks) 8 f 1000 []) in
  let i := snd (request 107 (snd (request 72 (snd (request 107 (ILC_new 1)))))) in
  let rs := [ResetServerReply 8; TempAddressReply 8 9; ResetServerReply 8] in
  let wss := map (fun r => map (fun d => 0x1200 + 2 * d) (frame_bytes (reply_payload r))) rs in
  exists i',
    ILC_processResponse 3 (concat wss) i = (Ok tt, i') /\
    calls i' = [ProcessResetServer 8; ProcessSetTempILCAddress 8 9; ProcessResetServer 8] /\
    _commanded (base i') = [] /\
    MB.endOfBuffer (base i') = true /\
    _lastMode i' = ∅ /\
    _cachedResponse i' = ∅.
Proof.
  intros request i rs wss.
  apply (replies_processed_in_order rs wss [] i 3).
  - unfold wss, rs. cbn [map].
    repeat (constructor; [vm_compute; reflexivity|]). constructor.
  - vm_compute. reflexivity.
  - cbn. lia.
Defined.

(** ** Status responses, change detection and corrupted frames *)

(** [processResponse] on a buffer whose first turn of the loop reads it to
    the end, or throws. *)
Lemma process_one (fuel : nat) (w : Z) (t : list Z) (i i' : ILC) :
  processResponse_body (codec := ILCCodec) base with_base ILC_responses
    (with_base (set_buffer (w :: t) (set_crc CRC.reset (set_index 0%nat (base i)))) i)
  = (Ok tt, i') ->
  remaining (base i') = [] ->
  (1 <= fuel)%nat ->
  ILC_processResponse fuel (w :: t) i = (Ok tt, i').
Proof.
  intros Hbody Hrem Hfuel. destruct fuel as [|fuel]; [lia|].
  rewrite ILC_processResponse_unfold.
  rewrite (processResponse_loop_S fuel w t) by (destruct i; reflexivity).
  erewrite bind_ok; [|exact Hbody].
  apply processResponse_loop_done. exact Hrem.
Qed.

Lemma process_one_throw (fuel : nat) (w : Z) (t : list Z) (i i' : ILC) (e : exn) :
  processResponse_body (codec := ILCCodec) base with_base ILC_responses
    (with_base (set_buffer (w :: t) (set_crc CRC.reset (set_index 0%nat (base i)))) i)
  = (Throw e, i') ->
  (1 <= fuel)%nat ->
  ILC_processResponse fuel (w :: t) i = (Throw e, i').
Proof.
  intros Hbody Hfuel. destruct fuel as [|fuel]; [lia|].
  rewrite ILC_processResponse_unfold.
  rewrite (processResponse_loop_S fuel w t) by (destruct i; reflexivity).
  apply bind_throw. exact Hbody.
Qed.

(** The payload bytes of a status response the change cache compares. *)
Lemma status_bytes_inj (m1 s1 f1 m2 s2 f2 : Z) :
  is_u16 s1 -> is_u16 f1 -> is_u16 s2 -> is_u16 f2 ->
  [m1] ++ wire_bytes U16 s1 ++ wire_bytes U16 f1
  = [m2] ++ wire_bytes U16 s2 ++ wire_bytes U16 f2 ->
  (m1, s1, f1) = (m2, s2, f2).
Proof.
  intros Hs1 Hf1 Hs2 Hf2 E. cbn [app] in E.
  assert (Em : m1 = m2) by congruence.
  assert (E' : wire_bytes U16 s1 ++ wire_bytes U16 f1
               = wire_bytes U16 s2 ++ wire_bytes U16 f2) by congruence.
  apply app_inj_1 in E'; [|cbn [wire_bytes]; rewrite !to_mem_length; reflexivity].
  destruct E' as [Es Ef].
  apply (f_equal (fun l => ntohs (of_mem l))) in Es, Ef.
  rewrite !status_fields in Es, Ef by assumption. congruence.
Qed.

(** One turn of the loop on a function 18 response, wherever it is in the
    buffer and whatever the record vector holds. *)
Lemma body_status (a mode status faults : Z) (ws post : list Z) (rest : list (Z * Z))
    (i : ILC) :
  is_u16 status -> is_u16 faults ->
  map wire_byte ws = frame_bytes (status_payload a mode status faults) ->
  remaining (base i) = ws ++ post ->
  _crc (base i) = CRC.reset ->
  _commanded (base i) = (a, 18) :: rest ->
  _recordChanges (base i) = false ->
  let bs := _records (base i) ++ [mode] ++ wire_bytes U16 status ++ wire_bytes U16 faults in
  let same := bool_decide (bs = cached_snapshot i a 18) && negb (_alwaysTrigger i) in
  exists i',
    processResponse_body (codec := ILCCodec) base with_base ILC_responses i = (Ok tt, i') /\
    remaining (base i') = post /\
    _crc (base i') = CRC.reset /\
    _commanded (base i') = rest /\
    _recordChanges (base i') = false /\
    _records (base i') = [] /\
    _alwaysTrigger i' = _alwaysTrigger i /\
    cached_snapshot i' a 18 = bs /\
    calls i' = (if same then calls i
                else calls i ++ [ProcessServerStatus a mode status faults]) /\
    _lastMode i' = (if same then _lastMode i else <[a := mode]> (_lastMode i)).
Proof.
  intros Hs Hf Hws Hrem Hcrc Hcmd Hrc bs same.
  rewrite frame_bytes_app in Hws.
  remember (fold_left CRC.add (status_payload a mode status faults) CRC.reset) as c eqn:Ec.
  assert (Hc : is_u16 c)
    by (rewrite Ec; apply crc_fold_u16; unfold is_u16, CRC.reset; lia).
  pose proof (crc_split c Hc) as Hsplit. clear Hc.
  cbn [status_payload wire_bytes to_mem app] in Hws.
  destruct ws as [|w1 [|w2 [|w3 [|w4 [|w5 [|w6 [|w7 [|w8 [|w9 [|w10 ws]]]]]]]]]];
    try discriminate.
  cbn [map app] in Hws, Hrem. injection Hws as H1 H2 H3 H4 H5 H6 H7 H8 H9.
  rewrite <- H8, <- H9 in Hsplit. clear H8 H9. subst c.
  assert (Est : ntohs (of_mem [wire_byte w4; wire_byte w5]) = status).
  { rewrite <- (status_fields status Hs). cbn [wire_bytes to_mem]. rewrite H4, H5.
    reflexivity. }
  assert (Efl : ntohs (of_mem [wire_byte w6; wire_byte w7]) = faults).
  { rewrite <- (status_fields faults Hf). cbn [wire_bytes to_mem]. rewrite H6, H7.
    reflexivity. }
  assert (Ebs : bs = _records (base i)
                     ++ [mode; wire_byte w4; wire_byte w5; wire_byte w6; wire_byte w7]).
  { subst bs. cbn [wire_bytes to_mem app]. rewrite H4, H5, H6, H7. reflexivity. }
  cbn [status_payload wire_bytes to_mem app fold_left] in Hsplit.
  rewrite <- H4, <- H5, <- H6, <- H7 in Hsplit.
  clearbody bs.
  destruct i as [b bus bc at' lm cache cl].
  cbn [base calls _lastMode _cachedResponse _alwaysTrigger] in *.
  rewrite (body_header w1 w2 (w3 :: w4 :: w5 :: w6 :: w7 :: w8 :: w9 :: post))
    by exact Hrem.
  rewrite H1, H2. change (answered_function 18) with 18.
  change (_actions ILC_responses !! 18) with (Some action18).
  norm_state. rewrite Hcrc, Hrc.
  step ltac:(apply lift_ok; apply checkCommanded_front; exact Hcmd).
  unfold catch_out_of_range at 1. unfold action18.
  step ltac:(apply liftI_ok; reflexivity).
  step ltac:(apply liftI_ok;
             apply (ILC_read_uint8 w3 (w4 :: w5 :: w6 :: w7 :: w8 :: w9 :: post));
             rem_solve Hrem).
  step ltac:(apply liftI_ok;
             apply (ILC_read_uint16 w4 w5 (w6 :: w7 :: w8 :: w9 :: post));
             rem_solve Hrem).
  step ltac:(apply liftI_ok;
             apply (ILC_read_uint16 w6 w7 (w8 :: w9 :: post));
             rem_solve Hrem).
  rewrite Est, Efl, H3.
  step ltac:(apply liftI_ok; apply (ILC_checkCRC_ok w8 w9 post);
             [ rem_solve Hrem
             | cbn [_crc]; repeat apply crc_add_u16
             | cbn [_crc]; exact Hsplit ]).
  match goal with
  | |- context [bind (responseMatchCached a 18) _ ?s7] =>
      destruct (responseMatchCached_spec a 18 s7)
        as (i' & Hr & Hbase & Hsnap & Hat & Hlm & Hcalls);
      change (cached_snapshot s7 a 18)
        with (cached_snapshot (mkILC b bus bc at' lm cache cl) a 18) in Hr
  end.
  erewrite bind_ok; [|exact Hr].
  cbn [base _records _alwaysTrigger _lastMode calls set_records set_recordChanges
       _buffer _index _crc _commanded _recordChanges] in Hr, Hbase, Hsnap, Hat, Hlm, Hcalls |- *.
  rewrite <- !app_assoc in Hr, Hsnap |- *. cbn [app] in Hr, Hsnap |- *.
  rewrite <- Ebs in *. fold same.
  assert (Hrem' : remaining (base i') = post) by (rewrite Hbase; rem_solve Hrem).
  destruct same.
  - exists i'. cbn [negb]. rewrite Hbase at 2 3 4 5.
    cbn [_crc _commanded _recordChanges _records].
    repeat split; assumption || reflexivity.
  - cbn [negb]. eexists. split; [reflexivity|].
    unfold cached_snapshot in *.
    cbn [base _alwaysTrigger _cachedResponse calls _lastMode set_calls set_lastMode].
    rewrite Hbase at 2 3 4 5.
    cbn [_crc _commanded _recordChanges _records].
    repeat split; try assumption; try reflexivity; congruence.
Qed.

(** One turn of the loop on a function 18 response whose CRC words do not
    match. *)
Lemma body_status_corrupted (a mode status faults c1 c2 : Z) (ws post : list Z)
    (rest : list (Z * Z)) (i : ILC) :
  map wire_byte ws = status_payload a mode status faults ++ [c1; c2] ->
  of_mem [c1; c2] <> CRC.of_bytes (status_payload a mode status faults) ->
  remaining (base i) = ws ++ post ->
  _crc (base i) = CRC.reset ->
  _commanded (base i) = (a, 18) :: rest ->
  _recordChanges (base i) = false ->
  exists i',
    processResponse_body (codec := ILCCodec) base with_base ILC_responses i
    = (Throw (CRCError (CRC.of_bytes (status_payload a mode status faults))
                       (of_mem [c1; c2])), i') /\
    _commanded (base i') = rest /\
    _recordChanges (base i') = false /\
    _records (base i')
    = _records (base i) ++ [mode] ++ wire_bytes U16 status ++ wire_bytes U16 faults /\
    _alwaysTrigger i' = _alwaysTrigger i /\
    calls i' = calls i /\
    _lastMode i' = _lastMode i /\
    _cachedResponse i' = _cachedResponse i.
Proof.
  intros Hws Hbad Hrem Hcrc Hcmd Hrc.
  rewrite CRC_of_bytes_fold in *.
  cbn [status_payload wire_bytes to_mem app] in Hws.
  destruct ws as [|w1 [|w2 [|w3 [|w4 [|w5 [|w6 [|w7 [|w8 [|w9 [|w10 ws]]]]]]]]]];
    try discriminate.
  cbn [map app] in Hws, Hrem. injection Hws as H1 H2 H3 H4 H5 H6 H7 H8 H9.
  rewrite <- H8, <- H9 in *. clear H8 H9.
  cbn [status_payload wire_bytes to_mem app fold_left] in *.
  rewrite <- H4, <- H5, <- H6, <- H7 in *.
  destruct i as [b bus bc at' lm cache cl].
  cbn [base calls _lastMode _cachedResponse _alwaysTrigger] in *.
  rewrite (body_header w1 w2 (w3 :: w4 :: w5 :: w6 :: w7 :: w8 :: w9 :: post))
    by exact Hrem.
  rewrite H1, H2. change (answered_function 18) with 18.
  change (_actions ILC_responses !! 18) with (Some action18).
  norm_state. rewrite Hcrc, Hrc.
  step ltac:(apply lift_ok; apply checkCommanded_front; exact Hcmd).
  unfold catch_out_of_range at 1. unfold action18.
  step ltac:(apply liftI_ok; reflexivity).
  step ltac:(apply liftI_ok;
             apply (ILC_read_uint8 w3 (w4 :: w5 :: w6 :: w7 :: w8 :: w9 :: post));
             rem_solve Hrem).
  step ltac:(apply liftI_ok;
             apply (ILC_read_uint16 w4 w5 (w6 :: w7 :: w8 :: w9 :: post));
             rem_solve Hrem).
  step ltac:(apply liftI_ok;
             apply (ILC_read_uint16 w6 w7 (w8 :: w9 :: post));
             rem_solve Hrem).
  rewrite H3.
  erewrite bind_throw;
    [|unfold liftI; apply lift_throw; apply (ILC_checkCRC_mismatch w8 w9 post);
      [ rem_solve Hrem | cbn [base _crc]; exact Hbad ]].
  eexists. split; [reflexivity|].
  cbn [base with_base consumed set_recordChanges _commanded _recordChanges _records
       _alwaysTrigger calls _lastMode _cachedResponse].
  rewrite <- !app_assoc. cbn [app].
  repeat split; reflexivity.
Qed.

(** [processResponse] on a single function 18 response. *)
Lemma process_status (a mode status faults : Z) (ws : list Z) (rest : list (Z * Z))
    (i : ILC) (fuel : nat) :
  is_u16 status -> is_u16 faults ->
  map wire_byte ws = frame_bytes (status_payload a mode status faults) ->
  _commanded (base i) = (a, 18) :: rest ->
  _recordChanges (base i) = false ->
  (1 <= fuel)%nat ->
  let bs := _records (base i) ++ [mode] ++ wire_bytes U16 status ++ wire_bytes U16 faults in
  let same := bool_decide (bs = cached_snapshot i a 18) && negb (_alwaysTrigger i) in
  exists i',
    ILC_processResponse fuel ws i = (Ok tt, i') /\
    _commanded (base i') = rest /\
    _recordChanges (base i') = false /\
    _records (base i') = [] /\
    _alwaysTrigger i' = _alwaysTrigger i /\
    cached_snapshot i' a 18 = bs /\
    calls i' = (if same then calls i
                else calls i ++ [ProcessServerStatus a mode status faults]) /\
    _lastMode i' = (if same then _lastMode i else <[a := mode]> (_lastMode i)).
Proof.
  intros Hs Hf Hws Hcmd Hrc Hfuel bs same.
  destruct i as [b bus bc at' lm cache cl]. cbn [base] in *.
  destruct (body_status a mode status faults ws [] rest
              (mkILC (set_buffer ws (set_crc CRC.reset (set_index 0%nat b)))
                     bus bc at' lm cache cl) Hs Hf Hws)
    as (i' & Hbody & Hrem & _ & Hcmd' & Hrc' & Hrec' & Hat' & Hsnap' & Hcalls' & Hlm');
    try assumption; try reflexivity.
  { rewrite app_nil_r. reflexivity. }
  exists i'. split.
  - destruct ws as [|w t].
    + rewrite frame_bytes_app in Hws. discriminate.
    + apply process_one; assumption.
  - repeat split; assumption.
Qed.

Lemma process_status_corrupted (a mode status faults c1 c2 : Z) (ws : list Z)
    (rest : list (Z * Z)) (i : ILC) (fuel : nat) :
  map wire_byte ws = status_payload a mode status faults ++ [c1; c2] ->
  of_mem [c1; c2] <> CRC.of_bytes (status_payload a mode status faults) ->
  _commanded (base i) = (a, 18) :: rest ->
  _recordChanges (base i) = false ->
  (1 <= fuel)%nat ->
  exists i',
    ILC_processResponse fuel ws i
    = (Throw (CRCError (CRC.of_bytes (status_payload a mode status faults))
                       (of_mem [c1; c2])), i') /\
    _commanded (base i') = rest /\
    _recordChanges (base i') = false /\
    _records (base i')
    = _records (base i) ++ [mode] ++ wire_bytes U16 status ++ wire_bytes U16 faults /\
    _alwaysTrigger i' = _alwaysTrigger i /\
    calls i' = calls i /\
    _lastMode i' = _lastMode i /\
    _cachedResponse i' = _cachedResponse i.
Proof.
  intros Hws Hbad Hcmd Hrc Hfuel.
  destruct i as [b bus bc at' lm cache cl]. cbn [base] in *.
  destruct (body_status_corrupted a mode status faults c1 c2 ws [] rest
              (mkILC (set_buffer ws (set_crc CRC.reset (set_index 0%nat b)))
                     bus bc at' lm cache cl) Hws Hbad)
    as (i' & Hbody & Hfacts); try assumption; try reflexivity.
  { rewrite app_nil_r. reflexivity. }
  exists i'. split; [|exact Hfacts].
  destruct ws as [|w t]; [discriminate|].
  apply process_one_throw; assumption.
Qed.

(** X14. The second of two status responses is reported exactly when it
    differs from the first. Two function 18 responses from the same address
    with valid CRCs, each answering a pending request and processed one after
    the other from a state with an empty record vector and change recording
    switched off: both calls succeed, and the second response leads to a
    [processServerStatus] call and to its mode being recorded exactly when
    its mode, status or faults differ from the first response or
    [_alwaysTrigger] is set; otherwise neither the hooks called nor the
    recorded modes change. *)
Theorem status_reported_iff_changed (a m1 s1 f1 m2 s2 f2 : Z) (ws1 ws2 : list Z)
    (rest : list (Z * Z)) (i : ILC) (fuel1 fuel2 : nat) :
  is_u16 s1 -> is_u16 f1 -> is_u16 s2 -> is_u16 f2 ->
  map wire_byte ws1 = frame_bytes (status_payload a m1 s1 f1) ->
  map wire_byte ws2 = frame_bytes (status_payload a m2 s2 f2) ->
  _commanded (base i) = (a, 18) :: (a, 18) :: rest ->
  _records (base i) = [] ->
  _recordChanges (base i) = false ->
  (1 <= fuel1)%nat -> (1 <= fuel2)%nat ->
  let unchanged := bool_decide ((m2, s2, f2) = (m1, s1, f1)) && negb (_alwaysTrigger i) in
  exists i1 i2,
    ILC_processResponse fuel1 ws1 i = (Ok tt, i1) /\
    ILC_processResponse fuel2 ws2 i1 = (Ok tt, i2) /\
    calls i2 = (if unchanged then calls i1
                else calls i1 ++ [ProcessServerStatus a m2 s2 f2]) /\
    _lastMode i2 = (if unchanged then _lastMode i1 else <[a := m2]> (_lastMode i1)) /\
    _commanded (base i2) = rest.
Proof.
  intros Hs1 Hf1 Hs2 Hf2 Hws1 Hws2 Hcmd Hrec Hrc Hfuel1 Hfuel2 unchanged.
  destruct (process_status a m1 s1 f1 ws1 ((a, 18) :: rest) i fuel1
              Hs1 Hf1 Hws1 Hcmd Hrc Hfuel1)
    as (i1 & Hp1 & Hcmd1 & Hrc1 & Hrec1 & Hat1 & Hsnap1 & _ & _).
  destruct (process_status a m2 s2 f2 ws2 rest i1 fuel2
              Hs2 Hf2 Hws2 Hcmd1 Hrc1 Hfuel2)
    as (i2 & Hp2 & Hcmd2 & _ & _ & _ & _ & Hcalls2 & Hlm2).
  exists i1, i2. split; [exact Hp1|]. split; [exact Hp2|].
  rewrite Hrec1, Hsnap1, Hat1, Hrec in Hcalls2, Hlm2. cbn [app] in Hcalls2, Hlm2.
  assert (E : bool_decide (m2 :: wire_bytes U16 s2 ++ wire_bytes U16 f2
                           = m1 :: wire_bytes U16 s1 ++ wire_bytes U16 f1)
              = bool_decide ((m2, s2, f2) = (m1, s1, f1))).
  { apply bool_decide_ext. split.
    - apply (status_bytes_inj m2 s2 f2 m1 s1 f1); assumption.
    - intros E. injection E as -> -> ->. reflexivity. }
  rewrite E in Hcalls2, Hlm2. fold unchanged in Hcalls2, Hlm2.
  repeat split; assumption.
Qed.

Lemma status_reported_iff_changed_witness :
  let request := liftI (callFunction (codec := ILCCodec) (hooks := ILCHooks) 8 18 270 []) in
  let i := snd (request (snd (request (ILC_new 1)))) in
  let words (payload : list Z) := map (fun d => 0x1200 + 2 * d) (frame_bytes payload) in
  exists i1 i2,
    ILC_processResponse 1 (words (status_payload 8 0 0 0)) i = (Ok tt, i1) /\
    ILC_processResponse 1 (words (status_payload 8 0 0 0x0102)) i1 = (Ok tt, i2) /\
    calls i2 = calls i1 ++ [ProcessServerStatus 8 0 0 0x0102] /\
    _lastMode i2 = <[8 := 0]> (_lastMode i1) /\
    _commanded (base i2) = [].
Proof.
  intros request i words.
  apply (status_reported_iff_changed 8 0 0 0 0 0 0x0102
           (words (status_payload 8 0 0 0)) (words (status_payload 8 0 0 0x0102)) [] i 1 1);
    try (unfold is_u16; lia); try lia; vm_compute; reflexivity.
Defined.

(** X15. A status response with a wrong CRC is refused and reported to
    nobody. When the words of a function 18 response decode to a payload and
    two CRC bytes that do not match the CRC of the payload, and the request is
    at the front of the ledger, [processResponse] throws [CRCError] carrying
    the CRC it calculated and the one it received; no hook is called, the
    recorded modes and the change cache stay as they were, and the request is
    off the ledger. *)
Theorem corrupted_status_response_rejected (a mode status faults c1 c2 : Z) (ws : list Z)
    (rest : list (Z * Z)) (i : ILC) (fuel : nat) :
  map wire_byte ws = status_payload a mode status faults ++ [c1; c2] ->
  of_mem [c1; c2] <> CRC.of_bytes (status_payload a mode status faults) ->
  _commanded (base i) = (a, 18) :: rest ->
  _recordChanges (base i) = false ->
  (1 <= fuel)%nat ->
  exists i',
    ILC_processResponse fuel ws i
    = (Throw (CRCError (CRC.of_bytes (status_payload a mode status faults))
                       (of_mem [c1; c2])), i') /\
    calls i' = calls i /\
    _lastMode i' = _lastMode i /\
    _cachedResponse i' = _cachedResponse i /\
    _commanded (base i') = rest.
Proof.
  intros Hws Hbad Hcmd Hrc Hfuel.
  destruct (process_status_corrupted a mode status faults c1 c2 ws rest i fuel
              Hws Hbad Hcmd Hrc Hfuel)
    as (i' & Hp & Hcmd' & _ & _ & _ & Hcalls & Hlm & Hcache).
  exists i'. repeat split; assumption.
Qed.

Lemma corrupted_status_response_rejected_witness :
  let request := liftI (callFunction (codec := ILCCodec) (hooks := ILCHooks) 8 18 270 []) in
  let i := snd (request (ILC_new 1)) in
  let ws := [0x1210; 0x1224; 0x1200; 0x1200; 0x1200; 0x1200; 0x1200; 0x1322; 0x1366] in
  exists i',
    ILC_processResponse 1 ws i = (Throw (CRCError 0xB291 0xB391), i') /\
    calls i' = [] /\
    _lastMode i' = ∅ /\
    _cachedResponse i' = ∅ /\
    _commanded (base i') = [].
Proof.
  intros request i ws.
  apply (corrupted_status_response_rejected 8 0 0 0 0x91 0xB3 ws [] i 1).
  - vm_compute. reflexivity.
  - vm_compute. discriminate.
  - vm_compute. reflexivity.
  - vm_compute. reflexivity.
  - lia.
Defined.

(** X16. After a status response with a wrong CRC, the next valid status
    response is reported even if nothing changed. The bytes recorded from the
    refused response stay in the record vector ([setBuffer] and
    [recordChanges()] do not clear it), so the next function 18 response, from
    whatever address, is compared together with them and differs from any
    snapshot of at most five bytes, which is what one status response leaves:
    [processServerStatus] is called and the mode recorded although
    [_alwaysTrigger] is unset. *)
Theorem status_after_corrupted_response_reported (a1 m1 s1 f1 c1 c2 a2 m2 s2 f2 : Z)
    (ws1 ws2 : list Z) (rest : list (Z * Z)) (i : ILC) (fuel1 fuel2 : nat) :
  is_u16 s2 -> is_u16 f2 ->
  map wire_byte ws1 = status_payload a1 m1 s1 f1 ++ [c1; c2] ->
  of_mem [c1; c2] <> CRC.of_bytes (status_payload a1 m1 s1 f1) ->
  map wire_byte ws2 = frame_bytes (status_payload a2 m2 s2 f2) ->
  _commanded (base i) = (a1, 18) :: (a2, 18) :: rest ->
  _records (base i) = [] ->
  _recordChanges (base i) = false ->
  (length (cached_snapshot i a2 18) <= 5)%nat ->
  (1 <= fuel1)%nat -> (1 <= fuel2)%nat ->
  exists e i1 i2,
    ILC_processResponse fuel1 ws1 i = (Throw e, i1) /\
    ILC_processResponse fuel2 ws2 i1 = (Ok tt, i2) /\
    calls i2 = calls i ++ [ProcessServerStatus a2 m2 s2 f2] /\
    _lastMode i2 = <[a2 := m2]> (_lastMode i) /\
    _commanded (base i2) = rest.
Proof.
  intros Hs2 Hf2 Hws1 Hbad Hws2 Hcmd Hrec Hrc Hlen Hfuel1 Hfuel2.
  destruct (process_status_corrupted a1 m1 s1 f1 c1 c2 ws1 ((a2, 18) :: rest) i fuel1
              Hws1 Hbad Hcmd Hrc Hfuel1)
    as (i1 & Hp1 & Hcmd1 & Hrc1 & Hrec1 & Hat1 & Hcalls1 & Hlm1 & Hcache1).
  destruct (process_status a2 m2 s2 f2 ws2 rest i1 fuel2 Hs2 Hf2 Hws2 Hcmd1 Hrc1 Hfuel2)
    as (i2 & Hp2 & Hcmd2 & _ & _ & _ & _ & Hcalls2 & Hlm2).
  eexists _, i1, i2. split; [exact Hp1|]. split; [exact Hp2|].
  assert (Hsnap : cached_snapshot i1 a2 18 = cached_snapshot i a2 18)
    by (unfold cached_snapshot; rewrite Hcache1; reflexivity).
  rewrite Hsnap, Hrec1, Hrec in Hcalls2, Hlm2.
  assert (Hne : [] ++ [m1] ++ wire_bytes U16 s1 ++ wire_bytes U16 f1
                ++ [m2] ++ wire_bytes U16 s2 ++ wire_bytes U16 f2
                <> cached_snapshot i a2 18).
  { intros E. apply (f_equal (@length Z)) in E. rewrite <- E in Hlen.
    rewrite !length_app in Hlen. cbn [wire_bytes length] in Hlen.
    rewrite !to_mem_length in Hlen. cbn [length] in Hlen. lia. }
  rewrite <- !app_assoc in Hcalls2, Hlm2.
  rewrite (bool_decide_eq_false_2 _ Hne) in Hcalls2, Hlm2.
  cbn [andb] in Hcalls2, Hlm2. rewrite Hcalls2, Hlm2, Hcalls1, Hlm1.
  split; [reflexivity|]. split; [reflexivity | exact Hcmd2].
Qed.

Lemma status_after_corrupted_response_reported_witness :
  let request := liftI (callFunction (codec := ILCCodec) (hooks := ILCHooks) 8 18 270 []) in
  let i0 := snd (request (snd (request (snd (request (ILC_new 1)))))) in
  let good := [0x1210; 0x1224; 0x1200; 0x1200; 0x1200; 0x1200; 0x1200; 0x1322; 0x1364] in
  let bad := [0x1210; 0x1224; 0x1200; 0x1200; 0x1200; 0x1200; 0x1200; 0x1322; 0x1366] in
  let i := snd (ILC_processResponse 1 good i0) in
  calls i = [ProcessServerStatus 8 0 0 0] /\
  cached_snapshot i 8 18 = [0; 0; 0; 0; 0] /\
  exists e i1 i2,
    ILC_processResponse 1 bad i = (Throw e, i1) /\
    ILC_processResponse 1 good i1 = (Ok tt, i2) /\
    calls i2 = calls i ++ [ProcessServerStatus 8 0 0 0] /\
    _lastMode i2 = <[8 := 0]> (_lastMode i) /\
    _commanded (base i2) = [].
Proof.
  intros request i0 good bad i.
  split; [vm_compute; reflexivity|]. split; [vm_compute; reflexivity|].
  apply (status_after_corrupted_response_reported 8 0 0 0 0x91 0xB3 8 0 0 0
           bad good [] i 1 1);
    try (unfold is_u16; lia); try lia;
    try (vm_compute; reflexivity); try (vm_compute; discriminate).
Defined.

(** ** Mode change responses and the next mode change request *)

(** One turn of the loop on a function 65 response. *)
Lemma body_mode (a mode : Z) (ws post : list Z) (rest : list (Z * Z)) (i : ILC) :
  is_u16 mode ->
  map wire_byte ws = frame_bytes ([a; 65] ++ wire_bytes U16 mode) ->
  remaining (base i) = ws ++ post ->
  _crc (base i) = CRC.reset ->
  _commanded (base i) = (a, 65) :: rest ->
  _recordChanges (base i) = false ->
  let bs := _records (base i) ++ wire_bytes U16 mode in
  let same := bool_decide (bs = cached_snapshot i a 65) && negb (_alwaysTrigger i) in
  exists i',
    processResponse_body (codec := ILCCodec) base with_base ILC_responses i = (Ok tt, i') /\
    remaining (base i') = post /\
    _crc (base i') = CRC.reset /\
    _commanded (base i') = rest /\
    _recordChanges (base i') = false /\
    _records (base i') = [] /\
    _alwaysTrigger i' = _alwaysTrigger i /\
    cached_snapshot i' a 65 = bs /\
    calls i' = (if same then calls i else calls i ++ [ProcessChangeILCMode a mode]) /\
    _lastMode i' = (if same then _lastMode i else <[a := u8 mode]> (_lastMode i)).
Proof.
  intros Hm Hws Hrem Hcrc Hcmd Hrc bs same.
  rewrite frame_bytes_app in Hws.
  remember (fold_left CRC.add ([a; 65] ++ wire_bytes U16 mode) CRC.reset) as c eqn:Ec.
  assert (Hc : is_u16 c)
    by (rewrite Ec; apply crc_fold_u16; unfold is_u16, CRC.reset; lia).
  pose proof (crc_split c Hc) as Hsplit. clear Hc.
  cbn [wire_bytes to_mem app] in Hws.
  destruct ws as [|w1 [|w2 [|w3 [|w4 [|w5 [|w6 [|w7 ws]]]]]]]; try discriminate.
  cbn [map app] in Hws, Hrem. injection Hws as H1 H2 H3 H4 H5 H6.
  rewrite <- H5, <- H6 in Hsplit. clear H5 H6. subst c.
  assert (Emode : ntohs (of_mem [wire_byte w3; wire_byte w4]) = mode).
  { rewrite <- (status_fields mode Hm). cbn [wire_bytes to_mem]. rewrite H3, H4.
    reflexivity. }
  assert (Ebs : bs = _records (base i) ++ [wire_byte w3; wire_byte w4]).
  { subst bs. cbn [wire_bytes to_mem app]. rewrite H3, H4. reflexivity. }
  cbn [wire_bytes to_mem app fold_left] in Hsplit.
  rewrite <- H3, <- H4 in Hsplit.
  clearbody bs.
  destruct i as [b bus bc at' lm cache cl].
  cbn [base calls _lastMode _cachedResponse _alwaysTrigger] in *.
  rewrite (body_header w1 w2 (w3 :: w4 :: w5 :: w6 :: post)) by exact Hrem.
  rewrite H1, H2. change (answered_function 65) with 65.
  change (_actions ILC_responses !! 65) with (Some action65).
  norm_state. rewrite Hcrc, Hrc.
  step ltac:(apply lift_ok; apply checkCommanded_front; exact Hcmd).
  unfold catch_out_of_range at 1. unfold action65.
  step ltac:(apply liftI_ok; reflexivity).
  step ltac:(apply liftI_ok;
             apply (ILC_read_uint16 w3 w4 (w5 :: w6 :: post));
             rem_solve Hrem).
  rewrite Emode.
  step ltac:(apply liftI_ok; apply (ILC_checkCRC_ok w5 w6 post);
             [ rem_solve Hrem
             | cbn [_crc]; repeat apply crc_add_u16
             | cbn [_crc]; exact Hsplit ]).
  match goal with
  | |- context [bind (responseMatchCached a 65) _ ?s7] =>
      destruct (responseMatchCached_spec a 65 s7)
        as (i' & Hr & Hbase & Hsnap & Hat & Hlm & Hcalls);
      change (cached_snapshot s7 a 65)
        with (cached_snapshot (mkILC b bus bc at' lm cache cl) a 65) in Hr
  end.
  erewrite bind_ok; [|exact Hr].
  cbn [base _records _alwaysTrigger _lastMode calls set_records set_recordChanges
       _buffer _index _crc _commanded _recordChanges] in Hr, Hbase, Hsnap, Hat, Hlm, Hcalls |- *.
  rewrite <- Ebs in *. fold same.
  assert (Hrem' : remaining (base i') = post) by (rewrite Hbase; rem_solve Hrem).
  destruct same.
  - exists i'. cbn [negb]. rewrite Hbase at 2 3 4 5.
    cbn [_crc _commanded _recordChanges _records].
    repeat split; assumption || reflexivity.
  - cbn [negb]. eexists. split; [reflexivity|].
    unfold cached_snapshot in *.
    cbn [base _alwaysTrigger _cachedResponse calls _lastMode set_calls set_lastMode].
    rewrite Hbase at 2 3 4 5.
    cbn [_crc _commanded _recordChanges _records].
    repeat split; try assumption; try reflexivity; congruence.
Qed.

Lemma process_mode (a mode : Z) (ws : list Z) (rest : list (Z * Z)) (i : ILC) (fuel : nat) :
  is_u16 mode ->
  map wire_byte ws = frame_bytes ([a; 65] ++ wire_bytes U16 mode) ->
  _commanded (base i) = (a, 65) :: rest ->
  _recordChanges (base i) = false ->
  (1 <= fuel)%nat ->
  let bs := _records (base i) ++ wire_bytes U16 mode in
  let same := bool_decide (bs = cached_snapshot i a 65) && negb (_alwaysTrigger i) in
  exists i',
    ILC_processResponse fuel ws i = (Ok tt, i') /\
    _commanded (base i') = rest /\
    calls i' = (if same then calls i else calls i ++ [ProcessChangeILCMode a mode]) /\
    _lastMode i' = (if same then _lastMode i else <[a := u8 mode]> (_lastMode i)).
Proof.
  intros Hm Hws Hcmd Hrc Hfuel bs same.
  destruct i as [b bus bc at' lm cache cl]. cbn [base] in *.
  destruct (body_mode a mode ws [] rest
              (mkILC (set_buffer ws (set_crc CRC.reset (set_index 0%nat b)))
                     bus bc at' lm cache cl) Hm Hws)
    as (i' & Hbody & Hrem & _ & Hcmd' & _ & _ & _ & _ & Hcalls' & Hlm');
    try assumption; try reflexivity.
  { rewrite app_nil_r. reflexivity. }
  exists i'. split.
  - destruct ws as [|w t].
    + rewrite frame_bytes_app in Hws. discriminate.
    + apply process_one; assumption.
  - repeat split; assumption.
Qed.

(** X17. The mode a device reports decides how long the next mode change may
    take. A function 65 response with a valid CRC that answers the pending
    request and is not in the change cache yet is reported through
    [processChangeILCMode] with its 16-bit mode, and the low byte of that mode
    is recorded for the address. The next [changeILCMode] request to the
    address, built on the cleared buffer, then reads back as function 65 with
    the new mode most significant byte first and a wait of 101000
    microseconds when it goes from Standby to FirmwareUpdate or back, 335
    microseconds otherwise. *)
Theorem mode_response_selects_timeout (a mode m : Z) (ws : list Z)
    (rest : list (Z * Z)) (i : ILC) (fuel : nat) :
  is_u16 mode -> in_range U16 m ->
  map wire_byte ws = frame_bytes ([a; 65] ++ wire_bytes U16 mode) ->
  _commanded (base i) = (a, 65) :: rest ->
  _records (base i) = [] ->
  _recordChanges (base i) = false ->
  cached_snapshot i a 65 = [] ->
  (1 <= fuel)%nat ->
  let wait :=
    if decide ((mode mod 256 = ILCMode.Standby /\ m = ILCMode.FirmwareUpdate)
               \/ (mode mod 256 = ILCMode.FirmwareUpdate /\ m = ILCMode.Standby))
    then 101000 else 335 in
  exists i1 i2 b3,
    ILC_processResponse fuel ws i = (Ok tt, i1) /\
    calls i1 = calls i ++ [ProcessChangeILCMode a mode] /\
    _lastMode i1 !! a = Some (mode mod 256) /\
    changeILCMode a m (with_base (MB.clear true (base i1)) i1) = (Ok tt, i2) /\
    read_request 2 (MB.reset (base i2)) = (Ok (a, 65, big_endian U16 m, wait), b3) /\
    MB.endOfBuffer b3 = true.
Proof.
  intros Hmode Hm Hws Hcmd Hrec Hrc Hcache Hfuel wait.
  assert (Ha : is_u8 a).
  { destruct ws as [|w1 ws]; [rewrite frame_bytes_app in Hws; discriminate|].
    rewrite frame_bytes_app in Hws. cbn [map app] in Hws.
    injection Hws as <- _. apply wire_byte_u8. }
  destruct (process_mode a mode ws rest i fuel Hmode Hws Hcmd Hrc Hfuel)
    as (i1 & Hp & Hcmd1 & Hcalls1 & Hlm1).
  rewrite Hrec, Hcache in Hcalls1, Hlm1. cbn [app] in Hcalls1, Hlm1.
  rewrite bool_decide_eq_false_2 in Hcalls1 by (cbn [wire_bytes to_mem]; discriminate).
  rewrite bool_decide_eq_false_2 in Hlm1 by (cbn [wire_bytes to_mem]; discriminate).
  cbn [andb] in Hcalls1, Hlm1.
  assert (Hlook : _lastMode i1 !! a = Some (mode mod 256))
    by (rewrite Hlm1; apply lookup_insert_eq).
  set (i1c := with_base (MB.clear true (base i1)) i1).
  assert (Hlookc : _lastMode i1c !! a = Some (mode mod 256))
    by (destruct i1; exact Hlook).
  pose proof (changeILCMode_timeout a m i1c) as Hch. rewrite Hlookc in Hch.
  set (t := if decide _ then 100000 else 335) in Hch.
  assert (Ht : 0 <= t < 4294967296) by (unfold t; case_decide; lia).
  destruct (liftI_callFunction_read_back a 65 t [(U16, m)] i1c Ha
              ltac:(unfold is_u8; lia) Ht)
    as (i2 & b3 & Hcall & Hread & Heob & _).
  { destruct i1; reflexivity. }
  { destruct i1; reflexivity. }
  exists i1, i2, b3.
  split; [exact Hp|]. split; [exact Hcalls1|]. split; [exact Hlook|].
  split; [rewrite <- Hcall; exact Hch|]. split; [|exact Heob].
  rewrite (params_bytes_big_endian [(U16, m)]) in Hread
    by (apply Forall_cons_2; [exact Hm | apply Forall_nil_2]).
  cbn [flat_map fst snd] in Hread. rewrite app_nil_r in Hread.
  replace (length (big_endian U16 m)) with 2%nat in Hread
    by (unfold big_endian; rewrite length_rev, to_mem_length; reflexivity).
  rewrite Hread. clear Hch Hcall Hread. subst t wait.
  assert (E : forall x y : Z,
             (Some (mode mod 256) = Some x /\ m = y) <-> (mode mod 256 = x /\ m = y))
    by (intros; split; intros [H1 H2]; split; congruence).
  repeat case_decide; try reflexivity; exfalso; rewrite !E in *; tauto.
Qed.

Lemma mode_response_selects_timeout_witness :
  let i := snd (changeILCMode 8 3 (ILC_new 1)) in
  let ws := map (fun d => 0x1200 + 2 * d) (frame_bytes [8; 65; 0; 3]) in
  exists i1 i2 b3,
    ILC_processResponse 1 ws i = (Ok tt, i1) /\
    calls i1 = [ProcessChangeILCMode 8 3] /\
    _lastMode i1 !! 8 = Some 3 /\
    changeILCMode 8 0 (with_base (MB.clear true (base i1)) i1) = (Ok tt, i2) /\
    read_request 2 (MB.reset (base i2)) = (Ok (8, 65, [0; 0], 101000), b3) /\
    MB.endOfBuffer b3 = true.
Proof.
  intros i ws.
  apply (mode_response_selects_timeout 8 3 0 ws [] i 1);
    try (unfold is_u16; lia); try (simpl; lia); try lia; vm_compute; reflexivity.
Defined.

(** ** Server ID responses *)

Lemma ILC_readU48 (w0 w1 w2 w3 w4 w5 : Z) (t : list Z) (b : ModbusBuffer) :
  remaining b = w0 :: w1 :: w2 :: w3 :: w4 :: w5 :: t ->
  readU48 (codec := ILCCodec) b
  = (Ok (wire_byte w0 * 2 ^ 40 + wire_byte w1 * 2 ^ 32 + wire_byte w2 * 2 ^ 24
         + wire_byte w3 * 2 ^ 16 + wire_byte w4 * 2 ^ 8 + wire_byte w5),
     consumed [wire_byte w0; wire_byte w1; wire_byte w2; wire_byte w3; wire_byte w4;
               wire_byte w5] b).
Proof.
  intros Hr. unfold readU48, bind.
  rewrite (readBuffer_spec (codec := ILCCodec) 6 b [w0; w1; w2; w3; w4; w5])
    by (try reflexivity; fold (remaining b); rewrite Hr; reflexivity).
  change (@decode ILCCodec ILCCodecLaws) with wire_byte. cbn [map].
  rewrite be64toh_low_six by apply wire_byte_u8. reflexivity.
Qed.

Lemma ILC_readString (ws t : list Z) (b : ModbusBuffer) :
  remaining b = ws ++ t ->
  readString (codec := ILCCodec) (length ws) b
  = (Ok (map wire_byte ws), consumed (map wire_byte ws) b).
Proof.
  intros Hr. unfold readString.
  pose proof (readBuffer_spec (codec := ILCCodec) (length ws) b ws) as H.
  change (@decode ILCCodec ILCCodecLaws) with wire_byte in H.
  apply H; [|reflexivity].
  fold (remaining b). rewrite Hr. apply take_app_length.
Qed.

(** X18. A server ID response is taken apart field by field. A function 17
    response holds a length byte (12 plus the length of the firmware name),
    six bytes of unique ID, six one-byte fields, the firmware name and the
    CRC. When it answers the pending request and nothing is cached for the
    address yet, [processServerID] is called once with the unique ID read
    most significant byte first, the six fields in order and the name bytes;
    the request leaves the ledger and the recorded modes are not touched. *)
Theorem server_id_response_parsed
    (a u0 u1 u2 u3 u4 u5 appType nodeType selected options major minor : Z)
    (name ws : list Z) (rest : list (Z * Z)) (i : ILC) (fuel : nat) :
  (length name <= 243)%nat ->
  map wire_byte ws
  = frame_bytes ([a; 17; 12 + Z.of_nat (length name); u0; u1; u2; u3; u4; u5;
                  appType; nodeType; selected; options; major; minor] ++ name) ->
  _commanded (base i) = (a, 17) :: rest ->
  _records (base i) = [] ->
  _recordChanges (base i) = false ->
  cached_snapshot i a 17 = [] ->
  (1 <= fuel)%nat ->
  exists i',
    ILC_processResponse fuel ws i = (Ok tt, i') /\
    calls i' = calls i
               ++ [ProcessServerID a
                     (u0 * 2 ^ 40 + u1 * 2 ^ 32 + u2 * 2 ^ 24 + u3 * 2 ^ 16 + u4 * 2 ^ 8 + u5)
                     appType nodeType selected options major minor name] /\
    _commanded (base i') = rest /\
    MB.endOfBuffer (base i') = true /\
    _lastMode i' = _lastMode i.
Proof.
  intros Hlen Hws Hcmd Hrec Hrc Hcache Hfuel.
  rewrite frame_bytes_app in Hws.
  remember (fold_left CRC.add
              ([a; 17; 12 + Z.of_nat (length name); u0; u1; u2; u3; u4; u5;
                appType; nodeType; selected; options; major; minor] ++ name)
              CRC.reset) as c eqn:Ec.
  assert (Hc : is_u16 c)
    by (rewrite Ec; apply crc_fold_u16; unfold is_u16, CRC.reset; lia).
  pose proof (crc_split c Hc) as Hsplit. clear Hc.
  rewrite <- app_assoc in Hws. cbn [app] in Hws.
  destruct ws as [|w1 [|w2 [|w3 [|x0 [|x1 [|x2 [|x3 [|x4 [|x5 [|t1 [|t2 [|t3 [|t4 [|t5
                 [|t6 ws]]]]]]]]]]]]]]]; try discriminate.
  cbn [map] in Hws.
  injection Hws as H1 H2 H3 Hx0 Hx1 Hx2 Hx3 Hx4 Hx5 Ht1 Ht2 Ht3 Ht4 Ht5 Ht6 Hws.
  apply map_eq_app in Hws. destruct Hws as (nws & cws & -> & Hname & Hcws).
  destruct cws as [|c1 [|c2 [|c3 cws]]]; try discriminate.
  cbn [map] in Hcws. injection Hcws as Hc1 Hc2.
  rewrite <- Hc1, <- Hc2 in Hsplit. clear Hc1 Hc2. subst c.
  rewrite fold_left_app in Hsplit. cbn [fold_left] in Hsplit.
  assert (Hnl : length nws = length name) by (rewrite <- Hname, length_map; reflexivity).
  set (WS := w1 :: w2 :: w3 :: x0 :: x1 :: x2 :: x3 :: x4 :: x5 :: t1 :: t2 :: t3
             :: t4 :: t5 :: t6 :: nws ++ [c1; c2]).
  destruct i as [b bus bc at' lm cache cl].
  cbn [base calls _lastMode] in *.
  assert (Hbody : exists i',
             processResponse_body (codec := ILCCodec) base with_base ILC_responses
               (mkILC (set_buffer WS (set_crc CRC.reset (set_index 0%nat b)))
                      bus bc at' lm cache cl)
             = (Ok tt, i') /\
             remaining (base i') = [] /\
             calls i' = cl
                        ++ [ProcessServerID a
                              (u0 * 2 ^ 40 + u1 * 2 ^ 32 + u2 * 2 ^ 24 + u3 * 2 ^ 16
                               + u4 * 2 ^ 8 + u5)
                              appType nodeType selected options major minor name] /\
             _commanded (base i') = rest /\
             _lastMode i' = lm).
  { set (b0 := set_buffer _ _).
    assert (Hrem : remaining b0 = WS) by reflexivity.
    assert (Hcmd0 : _commanded b0 = (a, 17) :: rest) by exact Hcmd.
    assert (Hrec0 : _records b0 = []) by exact Hrec.
    assert (Hrc0 : _recordChanges b0 = false) by exact Hrc.
    assert (Hcrc0 : _crc b0 = CRC.reset) by reflexivity.
    assert (Hsnap0 : cached_snapshot (mkILC b0 bus bc at' lm cache cl) a 17 = [])
      by exact Hcache.
    clearbody b0. clear Hcmd Hrec Hrc Hcache b. subst WS.
    rewrite (body_header w1 w2 _ (mkILC b0 bus bc at' lm cache cl) Hrem).
    rewrite H1, H2. change (answered_function 17) with 17.
    change (_actions ILC_responses !! 17) with (Some action17).
    norm_state. rewrite Hcrc0, Hrc0, Hrec0.
    step ltac:(apply lift_ok; apply checkCommanded_front; exact Hcmd0).
    unfold catch_out_of_range at 1. unfold action17.
    step ltac:(apply liftI_ok; reflexivity).
    step ltac:(apply liftI_ok; eapply ILC_read_uint8; rem_solve Hrem).
    rewrite H3.
    replace (12 + Z.of_nat (length name) <? 12) with false
      by (symmetry; apply Z.ltb_ge; lia).
    cbv iota.
    replace (u8 (12 + Z.of_nat (length name) - 12)) with (Z.of_nat (length nws))
      by (unfold u8; rewrite Hnl, Z.mod_small; lia).
    rewrite Nat2Z.id.
    step ltac:(apply liftI_ok; eapply ILC_readU48; rem_solve Hrem).
    step ltac:(apply liftI_ok; eapply ILC_read_uint8; rem_solve Hrem).
    step ltac:(apply liftI_ok; eapply ILC_read_uint8; rem_solve Hrem).
    step ltac:(apply liftI_ok; eapply ILC_read_uint8; rem_solve Hrem).
    step ltac:(apply liftI_ok; eapply ILC_read_uint8; rem_solve Hrem).
    step ltac:(apply liftI_ok; eapply ILC_read_uint8; rem_solve Hrem).
    step ltac:(apply liftI_ok; eapply ILC_read_uint8; rem_solve Hrem).
    erewrite bind_ok;
      [|apply liftI_ok; apply (ILC_readString nws [c1; c2]); rem_solve Hrem].
    rewrite Hname, Hx0, Hx1, Hx2, Hx3, Hx4, Hx5, Ht1, Ht2, Ht3, Ht4, Ht5, Ht6.
    norm_state.
    erewrite bind_ok;
      [|apply liftI_ok; apply (ILC_checkCRC_ok c1 c2 []);
        [ unfold remaining; cbn [base _buffer _index]; rewrite <- Hnl, <- !drop_drop;
          change (drop (_index b0) (_buffer b0)) with (remaining b0);
          rewrite Hrem; cbn [drop]; apply drop_app_length
        | cbn [base _crc]; apply crc_fold_u16; repeat apply crc_add_u16
        | cbn [base _crc]; exact Hsplit ]].
    norm_state.
    match goal with
    | |- context [bind (responseMatchCached a 17) _ ?s7] =>
        destruct (responseMatchCached_spec a 17 s7)
          as (i' & Hr & Hbase & _ & _ & Hlm & Hcalls);
        change (cached_snapshot s7 a 17)
          with (cached_snapshot (mkILC b0 bus bc at' lm cache cl) a 17) in Hr
    end.
    rewrite Hsnap0 in Hr.
    cbn [base _records _alwaysTrigger _lastMode calls] in Hr, Hbase, Hlm, Hcalls.
    rewrite bool_decide_eq_false_2 in Hr by discriminate. cbn [andb] in Hr.
    erewrite bind_ok; [|exact Hr]. cbn [negb].
    unfold call, modify.
    eexists. split; [reflexivity|].
    cbn [base calls _lastMode set_calls].
    rewrite Hcalls, Hlm, Hbase.
    split; [|split; [reflexivity|split; reflexivity]].
    unfold remaining. cbn [set_records set_recordChanges _buffer _index].
    rewrite <- Hnl, <- !drop_drop.
    change (drop (_index b0) (_buffer b0)) with (remaining b0).
    rewrite Hrem. cbn [drop]. rewrite drop_0, drop_app_length. reflexivity. }
  destruct Hbody as (i' & Hbody & Hrem & Hcalls & Hcmd' & Hlm).
  exists i'. split; [apply process_one; [exact Hbody | exact Hrem | exact Hfuel]|].
  rewrite endOfBuffer_remaining, Hrem. repeat split; assumption.
Qed.

Lemma server_id_response_parsed_witness :
  let request := liftI (callFunction (codec := ILCCodec) (hooks := ILCHooks) 8 17 835 []) in
  let i := snd (request (ILC_new 1)) in
  let ws := map (fun d => 0x1200 + 2 * d)
                (frame_bytes [8; 17; 14; 1; 2; 3; 4; 5; 6; 7; 8; 9; 10; 11; 12; 65; 66]) in
  exists i',
    ILC_processResponse 1 ws i = (Ok tt, i') /\
    calls i' = [ProcessServerID 8 0x010203040506 7 8 9 10 11 12 [65; 66]] /\
    _commanded (base i') = [] /\
    MB.endOfBuffer (base i') = true /\
    _lastMode i' = ∅.
Proof.
  intros request i ws.
  apply (server_id_response_parsed 8 1 2 3 4 5 6 7 8 9 10 11 12 [65; 66] ws [] i 1);
    try (cbn; lia); vm_compute; reflexivity.
Defined.

(** X19. A server ID response that announces fewer than twelve bytes is
    refused. When the length byte of a function 17 response is below 12 and
    the request is at the front of the ledger, [processResponse] throws a
    runtime error before any further byte is read: no hook is called, the
    request is off the ledger, and change recording stays switched on with
    the length byte in the record vector. *)
Theorem short_server_id_response_rejected (w1 w2 w3 : Z) (t : list Z)
    (rest : list (Z * Z)) (i : ILC) (fuel : nat) :
  wire_byte w2 = 17 ->
  wire_byte w3 < 12 ->
  _commanded (base i) = (wire_byte w1, 17) :: rest ->
  _recordChanges (base i) = false ->
  (1 <= fuel)%nat ->
  exists i',
    ILC_processResponse fuel (w1 :: w2 :: w3 :: t) i = (Throw RuntimeError, i') /\
    calls i' = calls i /\
    _commanded (base i') = rest /\
    remaining (base i') = t /\
    _recordChanges (base i') = true /\
    _records (base i') = _records (base i) ++ [wire_byte w3].
Proof.
  intros H2 H3 Hcmd Hrc Hfuel.
  destruct i as [b bus bc at' lm cache cl]. cbn [base calls] in *.
  eexists. split.
  - apply process_one_throw; [|exact Hfuel].
    rewrite (body_header w1 w2 (w3 :: t)) by reflexivity.
    rewrite H2. change (answered_function 17) with 17.
    change (_actions ILC_responses !! 17) with (Some action17).
    norm_state. rewrite Hrc.
    step ltac:(apply lift_ok; apply checkCommanded_front; exact Hcmd).
    unfold catch_out_of_range at 1. unfold action17.
    step ltac:(apply liftI_ok; reflexivity).
    step ltac:(apply liftI_ok; apply (ILC_read_uint8 w3 t); reflexivity).
    replace (wire_byte w3 <? 12) with true by (symmetry; apply Z.ltb_lt; exact H3).
    reflexivity.
  - cbn [base calls _commanded _recordChanges _records]. repeat split; reflexivity.
Qed.

Lemma short_server_id_response_rejected_witness :
  let request := liftI (callFunction (codec := ILCCodec) (hooks := ILCHooks) 8 17 835 []) in
  let i := snd (request (ILC_new 1)) in
  exists i',
    ILC_processResponse 1 [0x1210; 0x1222; 0x1216; 0x1200] i = (Throw RuntimeError, i') /\
    calls i' = [] /\
    _commanded (base i') = [] /\
    remaining (base i') = [0x1200] /\
    _recordChanges (base i') = true /\
    _records (base i') = [11].
Proof.
  intros request i.
  apply (short_server_id_response_rejected 0x1210 0x1222 0x1216 [0x1200] [] i 1);
    try lia; vm_compute; reflexivity.
Defined.

(** ** What the CRC detects *)

(** The shift step can be undone, so it loses nothing. *)
Lemma crc16_ref_bit_undo (c : Z) :
  is_u16 c ->
  (if Z.testbit (crc16_ref_bit c) 15
   then 2 * Z.lxor (crc16_ref_bit c) 0xA001 + 1
   else 2 * crc16_ref_bit c) = c.
Proof.
  intros Hc. unfold is_u16 in Hc. unfold crc16_ref_bit. cbv zeta.
  assert (H16 : Z.testbit c 16 = false).
  { apply Z.testbit_false; [lia|]. rewrite Z.div_small by lia. reflexivity. }
  assert (Hodd : c = 2 * (c / 2) + (if Z.testbit c 0 then 1 else 0)).
  { rewrite Z.bit0_odd, <- Zmod_odd. apply Z.div_mod. lia. }
  destruct (Z.testbit c 0).
  - rewrite Z.lxor_spec, Z.shiftr_spec by lia.
    change (15 + 1) with 16. rewrite H16. cbn [xorb].
    change (Z.testbit 40961 15) with true. cbv iota.
    rewrite Z.lxor_assoc, Z.lxor_nilpotent, Z.lxor_0_r.
    rewrite Z.shiftr_div_pow2 by lia. change (2 ^ 1) with 2. lia.
  - rewrite Z.shiftr_spec by lia.
    change (15 + 1) with 16. rewrite H16.
    rewrite Z.shiftr_div_pow2 by lia. change (2 ^ 1) with 2. lia.
Qed.

Lemma crc16_ref_bit_inj (c1 c2 : Z) :
  is_u16 c1 -> is_u16 c2 -> crc16_ref_bit c1 = crc16_ref_bit c2 -> c1 = c2.
Proof.
  intros H1 H2 E.
  rewrite <- (crc16_ref_bit_undo c1 H1), <- (crc16_ref_bit_undo c2 H2), E. reflexivity.
Qed.

Lemma crc16_ref_bits_inj (n : nat) (c1 c2 : Z) :
  is_u16 c1 -> is_u16 c2 ->
  Nat.iter n crc16_ref_bit c1 = Nat.iter n crc16_ref_bit c2 -> c1 = c2.
Proof.
  intros H1 H2. induction n as [|n IH]; cbn [Nat.iter]; [auto|].
  intros E. apply IH.
  destruct (crc_iter_ref n c1 H1) as [E1 R1]. destruct (crc_iter_ref n c2 H2) as [E2 R2].
  rewrite E1 in R1. rewrite E2 in R2.
  apply crc16_ref_bit_inj; assumption.
Qed.

Lemma lxor_cancel_r (a b c : Z) : Z.lxor a c = Z.lxor b c -> a = b.
Proof.
  intros E. apply (f_equal (fun x => Z.lxor x c)) in E.
  rewrite !Z.lxor_assoc, !Z.lxor_nilpotent, !Z.lxor_0_r in E. exact E.
Qed.

Lemma lxor_cancel_l (a b c : Z) : Z.lxor c a = Z.lxor c b -> a = b.
Proof. rewrite !(Z.lxor_comm c). apply lxor_cancel_r. Qed.

Lemma crc_add_inj_state (c1 c2 d : Z) :
  is_u16 c1 -> is_u16 c2 -> is_u8 d -> CRC.add c1 d = CRC.add c2 d -> c1 = c2.
Proof.
  intros H1 H2 Hd E.
  destruct (crc_add_ref c1 d H1 Hd) as [E1 _]. destruct (crc_add_ref c2 d H2 Hd) as [E2 _].
  rewrite E1, E2 in E. unfold crc16_ref_byte in E.
  apply crc16_ref_bits_inj in E;
    [|apply lxor_u16; [|apply is_u8_u16]; assumption ..].
  apply lxor_cancel_r in E. exact E.
Qed.

Lemma crc_add_inj_data (c d1 d2 : Z) :
  is_u16 c -> is_u8 d1 -> is_u8 d2 -> CRC.add c d1 = CRC.add c d2 -> d1 = d2.
Proof.
  intros Hc H1 H2 E.
  destruct (crc_add_ref c d1 Hc H1) as [E1 _]. destruct (crc_add_ref c d2 Hc H2) as [E2 _].
  rewrite E1, E2 in E. unfold crc16_ref_byte in E.
  apply crc16_ref_bits_inj in E;
    [|apply lxor_u16; [|apply is_u8_u16]; assumption ..].
  apply lxor_cancel_l in E. exact E.
Qed.

Lemma crc_fold_inj (data : list Z) :
  Forall is_u8 data ->
  forall c1 c2, is_u16 c1 -> is_u16 c2 ->
    fold_left CRC.add data c1 = fold_left CRC.add data c2 -> c1 = c2.
Proof.
  induction 1 as [|d data Hd _ IH]; intros c1 c2 H1 H2 E; cbn [fold_left] in E.
  - exact E.
  - apply IH in E; [|apply crc_add_u16 ..].
    apply (crc_add_inj_state c1 c2 d); assumption.
Qed.

(** X20. The CRC notices every change of a single byte. If two byte sequences
    differ in exactly one byte, their CRCs differ; so a frame in which one
    payload byte was altered on the way, with the CRC bytes of the original
    still attached, never leaves the all-zero register a valid frame leaves
    and [checkCRC] cannot accept it. *)
Theorem single_byte_change_detected (pre post : list Z) (d d' : Z) :
  Forall is_u8 pre -> Forall is_u8 post -> is_u8 d -> is_u8 d' -> d <> d' ->
  let c := CRC.of_bytes (pre ++ d :: post) in
  CRC.of_bytes (pre ++ d' :: post) <> c /\
  CRC.of_bytes (pre ++ d' :: post ++ [Z.land c 0xFF; Z.land (Z.shiftr c 8) 0xFF]) <> 0.
Proof.
  intros Hpre Hpost Hd Hd' Hne c.
  assert (Hstate : forall l, Forall is_u8 l ->
            fold_left CRC.add (pre ++ d' :: l) CRC.reset
            <> fold_left CRC.add (pre ++ d :: l) CRC.reset).
  { intros l Hl E. rewrite !fold_left_app in E. cbn [fold_left] in E.
    apply (crc_fold_inj l Hl) in E; [|apply crc_add_u16 ..].
    apply crc_add_inj_data in E; try assumption; [congruence|].
    apply crc_fold_u16. unfold is_u16, CRC.reset. lia. }
  assert (Hc : is_u16 c)
    by (apply crc_fold_u16; unfold is_u16, CRC.reset; lia).
  split.
  - apply Hstate. exact Hpost.
  - intros E.
    apply (Hstate (post ++ [Z.land c 0xFF; Z.land (Z.shiftr c 8) 0xFF])).
    + apply Forall_app. split; [exact Hpost|].
      apply Forall_cons_2; [apply crc_low_byte|].
      apply Forall_cons_2; [apply crc_high_byte | apply Forall_nil_2].
    + rewrite CRC_of_bytes_fold in E. rewrite E.
      change (pre ++ d :: post ++ [Z.land c 255; Z.land (Z.shiftr c 8) 255])
        with (pre ++ (d :: post) ++ [Z.land c 255; Z.land (Z.shiftr c 8) 255]).
      rewrite app_assoc, fold_left_app.
      change (fold_left CRC.add (pre ++ d :: post) CRC.reset) with c.
      cbn [fold_left]. symmetry. apply crc_residue_word. exact Hc.
Qed.

Lemma single_byte_change_detected_witness :
  CRC.of_bytes [8; 18; 1; 0; 0; 0; 0] <> 0xB291 /\
  CRC.of_bytes [8; 18; 1; 0; 0; 0; 0; 0x91; 0xB2] <> 0.
Proof.
  apply (single_byte_change_detected [8; 18] [0; 0; 0; 0] 0 1);
    try (unfold is_u8; lia);
    repeat (apply Forall_cons_2; [unfold is_u8; lia|]); apply Forall_nil_2.
Defined.

(** ** Framing words are told apart *)

Lemma data_word_class (d : Z) :
  is_u8 d ->
  Z.land (u16 (Z.lor FIFO.TX_MASK (Z.shiftl (u16 d) 1))) 0xF000 = 0x1000.
Proof.
  intros Hd.
  apply Z.eqb_eq.
  apply (forall_below 256
           (fun d => Z.land (u16 (Z.lor FIFO.TX_MASK (Z.shiftl (u16 d) 1))) 0xF000
                     =? 0x1000));
    [vm_compute; reflexivity | exact Hd].
Qed.

Lemma duration_word_class (cs cl t : Z) :
  (cs = FIFO.DELAY /\ cl = FIFO.LONG_DELAY)
  \/ (cs = FIFO.TX_WAIT_RX /\ cl = FIFO.TX_WAIT_LONG_RX) ->
  0 <= t < 4294967296 ->
  Z.land (u16 (if t >? 0x0FFF then Z.lor (Z.land 0x0FFF (t / 1000 + 1)) cl
               else Z.lor t cs)) 0xF000
  = (if t <=? 0x0FFF then cs else cl).
Proof.
  intros Hcls Ht.
  pose proof (duration_word_read cs cl t Hcls Ht) as Hd. cbv zeta in Hd.
  destruct (t <=? 0x0FFF); destruct Hd as [Hc _]; exact Hc.
Qed.

(** The three readers of framing words on a word of another class. *)
Lemma readers_refuse (w : Z) (b : ModbusBuffer) :
  _buffer b !! _index b = Some w ->
  (w <> FIFO.TX_FRAMEEND -> ILCImpl.readEndOfFrame b = (Throw RuntimeError, b)) /\
  (Z.land w 0xF000 <> FIFO.TX_WAIT_RX -> Z.land w 0xF000 <> FIFO.TX_WAIT_LONG_RX ->
   ILCImpl.readWaitForRx b = (Throw RuntimeError, b)) /\
  (Z.land w 0xF000 <> FIFO.DELAY -> Z.land w 0xF000 <> FIFO.LONG_DELAY ->
   readDelay b = (Throw RuntimeError, b)).
Proof.
  intros Hw. split; [|split].
  - intros Hne. unfold ILCImpl.readEndOfFrame, bind, MB.getCurrentBuffer. rewrite Hw.
    destruct (Z.eqb_spec w FIFO.TX_FRAMEEND); [contradiction | reflexivity].
  - intros H1 H2. unfold ILCImpl.readWaitForRx, bind, MB.getCurrentBuffer. rewrite Hw.
    destruct (Z.eqb_spec (Z.land w 61440) FIFO.TX_WAIT_RX); [contradiction|].
    destruct (Z.eqb_spec (Z.land w 61440) FIFO.TX_WAIT_LONG_RX); [contradiction|].
    reflexivity.
  - intros H1 H2. unfold readDelay, bind, MB.getCurrentBuffer. rewrite Hw.
    destruct (Z.eqb_spec (Z.land w 61440) FIFO.DELAY); [contradiction|].
    destruct (Z.eqb_spec (Z.land w 61440) FIFO.LONG_DELAY); [contradiction|].
    reflexivity.
Qed.

(** X21. The readers of framing words accept only their own kind of word.
    With the cursor on a word written by [writeDelay], [readWaitForRx] and
    [readEndOfFrame] throw a runtime error; on a word written by
    [writeWaitForRx], [readDelay] and [readEndOfFrame] throw; on a data word
    of an ILC, all three throw; on the frame end word, [readDelay] and
    [readWaitForRx] throw. In each case the cursor stays where it is. *)
Theorem framing_words_told_apart (w t d : Z) (b : ModbusBuffer) :
  0 <= t < 4294967296 -> is_u8 d ->
  _buffer b !! _index b = Some w ->
  let delay_word := u16 (if t >? 0x0FFF
                         then Z.lor (Z.land 0x0FFF (t / 1000 + 1)) FIFO.LONG_DELAY
                         else Z.lor t FIFO.DELAY) in
  let wait_word := u16 (if t >? 0x0FFF
                        then Z.lor (Z.land 0x0FFF (t / 1000 + 1)) FIFO.TX_WAIT_LONG_RX
                        else Z.lor t FIFO.TX_WAIT_RX) in
  let data_word := u16 (Z.lor FIFO.TX_MASK (Z.shiftl (u16 d) 1)) in
  let refused {A} (m : M ModbusBuffer A) := m b = (Throw RuntimeError, b) in
  (w = delay_word -> refused ILCImpl.readWaitForRx /\ refused ILCImpl.readEndOfFrame) /\
  (w = wait_word -> refused readDelay /\ refused ILCImpl.readEndOfFrame) /\
  (w = data_word ->
   refused readDelay /\ refused ILCImpl.readWaitForRx /\ refused ILCImpl.readEndOfFrame) /\
  (w = FIFO.TX_FRAMEEND -> refused readDelay /\ refused ILCImpl.readWaitForRx).
Proof.
  intros Ht Hd Hw delay_word wait_word data_word refused.
  destruct (readers_refuse w b Hw) as (Hend & Hwait & Hdelay).
  pose proof (duration_word_class FIFO.DELAY FIFO.LONG_DELAY t ltac:(left; auto) Ht) as Cd.
  pose proof (duration_word_class FIFO.TX_WAIT_RX FIFO.TX_WAIT_LONG_RX t
                ltac:(right; auto) Ht) as Cw.
  pose proof (data_word_class d Hd) as Cb.
  fold delay_word in Cd. fold wait_word in Cw. fold data_word in Cb.
  unfold refused.
  assert (Hcls : forall x c, Z.land x 0xF000 = c -> c <> 0x2000 -> x <> FIFO.TX_FRAMEEND).
  { intros x c Hx Hc ->. apply Hc. rewrite <- Hx. reflexivity. }
  split; [|split; [|split]]; intros ->.
  - split.
    + apply Hwait; rewrite Cd; destruct (t <=? 4095); discriminate.
    + apply Hend. eapply Hcls; [exact Cd|]. destruct (t <=? 4095); discriminate.
  - split.
    + apply Hdelay; rewrite Cw; destruct (t <=? 4095); discriminate.
    + apply Hend. eapply Hcls; [exact Cw|]. destruct (t <=? 4095); discriminate.
  - split; [|split].
    + apply Hdelay; rewrite Cb; discriminate.
    + apply Hwait; rewrite Cb; discriminate.
    + apply Hend. eapply Hcls; [exact Cb|]. discriminate.
  - split.
    + apply Hdelay; discriminate.
    + apply Hwait; discriminate.
Qed.

Lemma framing_words_told_apart_witness :
  let b := mkModbusBuffer [0x412C] 0 CRC.reset [] false [] in
  ILCImpl.readWaitForRx b = (Throw RuntimeError, b) /\
  ILCImpl.readEndOfFrame b = (Throw RuntimeError, b).
Proof.
  intros b.
  apply (proj1 (framing_words_told_apart 0x412C 300 0 b ltac:(lia)
                  ltac:(unfold is_u8; lia) eq_refl)).
  reflexivity.
Defined.

(** ** Byte order of written values *)

Lemma big_endian_length (T : scalar) (v : Z) : length (big_endian T v) = width T.
Proof. unfold big_endian. rewrite length_rev, to_mem_length. reflexivity. Qed.

(** X22. Every typed write sends the two's complement pattern of the value,
    most significant byte first. For each of the nine value types (the 8, 16,
    24, 32 and 64 bit integers and the float pattern) and each value of the
    type, [write] appends one word per byte of the pattern, in big-endian
    order and encoded by the byte encoder of the class, feeds the same bytes
    to the CRC in that order, and touches neither the cursor nor the
    ledger. *)
Theorem write_sends_big_endian `{CodecLaws} (T : scalar) (v : Z) (b : ModbusBuffer) :
  in_range T v ->
  exists b',
    write T v b = (Ok tt, b') /\
    _buffer b' = _buffer b ++ map (fun d => u16 (encode d)) (big_endian T v) /\
    length (_buffer b') = (length (_buffer b) + width T)%nat /\
    _crc b' = fold_left CRC.add (big_endian T v) (_crc b) /\
    _index b' = _index b /\
    _commanded b' = _commanded b.
Proof.
  intros Hv. exists (wrote (big_endian T v) b).
  rewrite write_spec, (wire_bytes_big_endian T v Hv).
  split; [reflexivity|]. split; [reflexivity|].
  split; [|repeat split; reflexivity].
  cbn [wrote _buffer]. rewrite length_app, length_map, big_endian_length. reflexivity.
Qed.

Lemma write_sends_big_endian_witness :
  exists b',
    write (codec := ILCCodec) I24 (-2) (mkModbusBuffer [] 0 CRC.reset [] false [])
    = (Ok tt, b') /\
    _buffer b' = [] ++ map (fun d => u16 (encode (codec := ILCCodec) d)) [0xFF; 0xFF; 0xFE] /\
    length (_buffer b') = (0 + 3)%nat /\
    _crc b' = fold_left CRC.add [0xFF; 0xFF; 0xFE] CRC.reset /\
    _index b' = 0%nat /\
    _commanded b' = [].
Proof.
  apply (write_sends_big_endian (codec := ILCCodec) I24 (-2)
           (mkModbusBuffer [] 0 CRC.reset [] false [])).
  simpl. lia.
Defined.
